(** * Intel HEX utilities: parser, validator, flash-page count and
      bootloader-version extraction.

    A shallow embedding of [intel_hex_utils.cpp].  Fixed-width integers are
    integers of [Z] with the wrap-around written out, [std::string] is
    [string], [std::map<uint32_t, uint8_t>] is a [gmap Z Z] iterated in
    ascending key order, [std::unordered_set<uint32_t>] is a [gset Z], and a
    C++ exception is the [Throw] case of [result]. *)

From Stdlib Require Import ZArith Lia Bool List Ascii String.
From Stdlib Require Import Decimal DecimalString Hexadecimal HexadecimalN.
From stdpp Require Import base gmap sorting.
Import ListNotations.

Local Open Scope Z_scope.
Set Warnings "-clear-no-such-hyp".

(** ** Exceptions *)

Inductive exn : Type :=
| runtime_error (what : string)
| invalid_argument
| out_of_range.

Inductive result (A : Type) : Type :=
| Ok (a : A)
| Throw (e : exn).
Arguments Ok {A} a.
Arguments Throw {A} e.

Definition bind {A B : Type} (m : result A) (k : A -> result B) : result B :=
  match m with
  | Ok a => k a
  | Throw e => Throw e
  end.

Notation "x <- m ;; k" := (bind m (fun x => k))
  (at level 60, m at next level, right associativity).

Definition throws {A : Type} (r : result A) : bool :=
  match r with
  | Ok _ => false
  | Throw _ => true
  end.

(** ** Fixed-width integers *)

Definition wrap8 (z : Z) : Z := z mod 256.
Definition wrap16 (z : Z) : Z := z mod 65536.
Definition wrap32 (z : Z) : Z := z mod 4294967296.
Definition wrap64 (z : Z) : Z := z mod 18446744073709551616.

Definition INT_MIN : Z := -2147483648.
Definition INT_MAX : Z := 2147483647.

(** ** Characters (the "C" locale) *)

Definition code (c : ascii) : Z := Z.of_N (N_of_ascii c).

Definition isspace (c : ascii) : bool :=
  (code c =? 32) || ((9 <=? code c) && (code c <=? 13)).

Definition isxdigit (c : ascii) : bool :=
  ((48 <=? code c) && (code c <=? 57))
  || ((65 <=? code c) && (code c <=? 70))
  || ((97 <=? code c) && (code c <=? 102)).

(* bool isHexChar(char c) *)
Definition isHexChar (c : ascii) : bool := isxdigit c.

Definition hexDigitValue (c : ascii) : option Z :=
  if (48 <=? code c) && (code c <=? 57) then Some (code c - 48)
  else if (65 <=? code c) && (code c <=? 70) then Some (code c - 55)
  else if (97 <=? code c) && (code c <=? 102) then Some (code c - 87)
  else None.

(** ** std::string::substr and std::stoi(_, nullptr, 16) *)

(* s.substr(pos, n): out_of_range when pos > size(), otherwise the at most
   n characters from pos on. *)
Definition substr (s : string) (pos n : nat) : result string :=
  if (String.length s <? pos)%nat then Throw out_of_range
  else Ok (substring pos n s).

Fixpoint skipSpace (s : string) : string :=
  match s with
  | String c s' => if isspace c then skipSpace s' else s
  | EmptyString => s
  end.

(* The value of the longest prefix of hexadecimal digits. *)
Fixpoint digitsValue (s : string) (acc : Z) : Z :=
  match s with
  | String c s' =>
      match hexDigitValue c with
      | Some d => digitsValue s' (16 * acc + d)
      | None => acc
      end
  | EmptyString => acc
  end.

Definition startsWithDigit (s : string) : bool :=
  match s with
  | String c _ => isxdigit c
  | EmptyString => false
  end.

(* An optional sign: '-' (45) or '+' (43). *)
Definition takeSign (s : string) : bool * string :=
  match s with
  | String c s' =>
      if code c =? 45 then (true, s')
      else if code c =? 43 then (false, s')
      else (false, s)
  | EmptyString => (false, s)
  end.

(* An optional 0x or 0X is consumed only when a digit follows it. *)
Definition skipPrefix (s : string) : string :=
  match s with
  | String c (String x s') =>
      if (code c =? 48) && ((code x =? 120) || (code x =? 88))
         && startsWithDigit s'
      then s' else s
  | _ => s
  end.

(* std::stoi(s, nullptr, 16): white space, an optional sign, an optional
   0x, then digits up to the first character that is not one;
   invalid_argument when there is no digit, out_of_range when the value is
   no int. *)
Definition stoi16 (s : string) : result Z :=
  let '(neg, s2) := takeSign (skipSpace s) in
  let s3 := skipPrefix s2 in
  if startsWithDigit s3 then
    let v := digitsValue s3 0 in
    let v := if neg then - v else v in
    if (INT_MIN <=? v) && (v <=? INT_MAX) then Ok v else Throw out_of_range
  else Throw invalid_argument.

(* static uint8_t parseHexByte(const std::string& str, size_t pos) *)
Definition parseHexByte (str : string) (pos : nat) : result Z :=
  s <- substr str pos 2 ;;
  v <- stoi16 s ;;
  Ok (wrap8 v).

(* static inline uint8_t hexByte(const std::string& s, size_t pos) *)
Definition hexByte (s : string) (pos : nat) : result Z :=
  t <- substr s pos 2 ;;
  v <- stoi16 t ;;
  Ok (wrap8 v).

(* static_cast<uint16_t>(std::stoi(line.substr(pos, 4), nullptr, 16)) *)
Definition parseHexWord (line : string) (pos : nat) : result Z :=
  s <- substr line pos 4 ;;
  v <- stoi16 s ;;
  Ok (wrap16 v).

(** ** Trimming *)

Definition isEmpty (s : string) : bool :=
  match s with
  | EmptyString => true
  | String _ _ => false
  end.

(* Drop the longest suffix of characters that satisfy [drop]. *)
Fixpoint trimSuffix (drop : ascii -> bool) (s : string) : string :=
  match s with
  | EmptyString => EmptyString
  | String c s' =>
      let t := trimSuffix drop s' in
      if isEmpty t && drop c then EmptyString else String c t
  end.

(* void trimTrailing(std::string& line):
   line.erase(line.find_last_not_of(" \r\n") + 1) *)
Definition trimTrailing (line : string) : string :=
  trimSuffix (fun c => (code c =? 32) || (code c =? 13) || (code c =? 10)) line.

(* static inline void rtrim(std::string& s) *)
Definition rtrim (s : string) : string :=
  trimSuffix (fun c => (code c =? 13) || (code c =? 10)
                       || (code c =? 32) || (code c =? 9)) s.

(** ** Reading a file line by line *)

(* The files that can be opened, with their contents. *)
Definition filesystem : Type := string -> option string.

(* The lines that successive calls of std::getline return: the text
   between line feeds; a line feed at the end of the file starts no line. *)
Fixpoint getlines (content : string) : list string :=
  match content with
  | EmptyString => []
  | String c rest =>
      if code c =? 10 then EmptyString :: getlines rest
      else match getlines rest with
           | [] => [String c EmptyString]
           | l :: ls => String c l :: ls
           end
  end.

(* bool fileExists(const std::string& filename): the stream is good after
   it was opened. *)
Definition fileExists (fs : filesystem) (filename : string) : bool :=
  match fs filename with
  | Some _ => true
  | None => false
  end.

Definition startsWithColon (line : string) : bool :=
  match line with
  | String c _ => code c =? 58
  | EmptyString => false
  end.

(** ** while (std::getline(file, line)) *)

(* What one turn of a loop body does next: go on to the next line with a
   new state (also at continue), or leave the loop (break, return). *)
Inductive flow (S R : Type) : Type :=
| Next (s : S)
| Done (r : R).
Arguments Next {S R} s.
Arguments Done {S R} r.

(* Run the body over the lines in order until it leaves the loop, throws,
   or the lines are exhausted. *)
Fixpoint whileLines {S R : Type} (body : S -> string -> result (flow S R))
    (lines : list string) (st : S) : result (flow S R) :=
  match lines with
  | [] => Ok (Next st)
  | line :: rest =>
      r <- body st line ;;
      match r with
      | Next st' => whileLines body rest st'
      | Done x => Ok (Done x)
      end
  end.

(** ** Line checksum *)

(* for (size_t i = 1; i < line.length(); i += 2) sum += parseHexByte(line, i);
   the positions 1, 3, 5, ... below the length are length/2 many. *)
Fixpoint checksumLoop (line : string) (i count : nat) (sum : Z) : result Z :=
  match count with
  | O => Ok sum
  | S count' =>
      b <- parseHexByte line i ;;
      checksumLoop line (i + 2) count' (wrap8 (sum + b))
  end.

(* bool validateLineChecksum(const std::string& line) *)
Definition validateLineChecksum (line : string) : result bool :=
  sum <- checksumLoop line 1 (String.length line / 2) 0 ;;
  Ok (sum =? 0).


(** ** The memory image: std::map<uint32_t, uint8_t> *)

Definition keyLe (x y : Z * Z) : Prop := fst x <= fst y.

#[global] Instance keyLe_dec (x y : Z * Z) : Decision (keyLe x y) :=
  Z_le_dec (fst x) (fst y).

(* The entries in the order in which the map is iterated: ascending keys. *)
Definition imageEntries (mem : gmap Z Z) : list (Z * Z) :=
  merge_sort keyLe (map_to_list mem).

Definition imageKeys (mem : gmap Z Z) : list Z :=
  map fst (imageEntries mem).

(* Keys are uint32_t and values uint8_t. *)
Definition wfImage (mem : gmap Z Z) : bool :=
  forallb (fun kv => (0 <=? fst kv) && (fst kv <? 4294967296)
                     && (0 <=? snd kv) && (snd kv <? 256))
          (map_to_list mem).

(* uint32_t absoluteAddress = (extendedLinearAddress << 16) | address *)
Definition absoluteAddress (extendedLinearAddress address : Z) : Z :=
  Z.lor (wrap32 (Z.shiftl extendedLinearAddress 16)) address.

(** ** parseIntelHex: the lenient builder behind calculateFlashPagesUsed *)

(* for (uint8_t i = 0; i < byteCount; ++i)
     flashData[absoluteAddress + i] = parseHexByte(line, 9 + i * 2); *)
Fixpoint storeData (line : string) (base : Z) (i count : nat)
    (flashData : gmap Z Z) : result (gmap Z Z) :=
  match count with
  | O => Ok flashData
  | S count' =>
      dataByte <- parseHexByte line (9 + i * 2) ;;
      storeData line base (S i) count'
        (<[wrap32 (base + Z.of_nat i) := dataByte]> flashData)
  end.

(* The body of the while loop of parseIntelHex; the state is
   extendedLinearAddress and flashData, break leaves with flashData. *)
Definition parseIntelHexLine (st : Z * gmap Z Z) (line : string)
    : result (flow (Z * gmap Z Z) (gmap Z Z)) :=
  let '(extendedLinearAddress, flashData) := st in
  if isEmpty line || negb (startsWithColon line) then Ok (Next st)
  else
    byteCount <- parseHexByte line 1 ;;
    address <- parseHexWord line 3 ;;
    recordType <- parseHexByte line 7 ;;
    if recordType =? 0 then
      flashData' <- storeData line
                      (absoluteAddress extendedLinearAddress address)
                      0 (Z.to_nat byteCount) flashData ;;
      Ok (Next (extendedLinearAddress, flashData'))
    else if recordType =? 4 then
      ext <- parseHexWord line 9 ;;
      Ok (Next (ext, flashData))
    else if recordType =? 1 then
      Ok (Done flashData)
    else
      Ok (Next st).

Definition parseIntelHexLines (lines : list string) : result (gmap Z Z) :=
  r <- whileLines parseIntelHexLine lines (0, ∅) ;;
  match r with
  | Next (_, flashData) => Ok flashData
  | Done flashData => Ok flashData
  end.

(* static std::map<uint32_t, uint8_t> parseIntelHex(const std::string&) *)
Definition parseIntelHex (fs : filesystem) (filename : string)
    : result (gmap Z Z) :=
  match fs filename with
  | None => Throw (runtime_error ("Failed to open file: " ++ filename)%string)
  | Some content => parseIntelHexLines (getlines content)
  end.

(* static size_t computePagesUsed(const std::map<uint32_t, uint8_t>&, size_t);
   the source divides by pageSize unguarded, the statements about this
   function take it positive. *)
Definition computePagesUsed (flashData : gmap Z Z) (pageSize : Z) : Z :=
  if bool_decide (flashData = ∅) then 0
  else
    let minAddr := hd 0 (imageKeys flashData) in
    let maxAddr := List.last (imageKeys flashData) 0 in
    let firstPage := minAddr / pageSize in
    let lastPage := maxAddr / pageSize in
    wrap64 (lastPage - firstPage + 1).

(* size_t calculateFlashPagesUsed(const std::string&, size_t) *)
Definition calculateFlashPagesUsed (fs : filesystem) (hexFilename : string)
    (flashPageSize : Z) : result Z :=
  flashData <- parseIntelHex fs hexFilename ;;
  Ok (computePagesUsed flashData flashPageSize).

(** ** validateHexFile *)

(* std::to_string of a size_t *)
Definition to_string (n : Z) : string :=
  NilZero.string_of_uint (N.to_uint (Z.to_N n)).

Fixpoint hexUpperDigits (u : Hexadecimal.uint) : string :=
  match u with
  | Hexadecimal.Nil => EmptyString
  | Hexadecimal.D0 u' => String "0" (hexUpperDigits u')
  | Hexadecimal.D1 u' => String "1" (hexUpperDigits u')
  | Hexadecimal.D2 u' => String "2" (hexUpperDigits u')
  | Hexadecimal.D3 u' => String "3" (hexUpperDigits u')
  | Hexadecimal.D4 u' => String "4" (hexUpperDigits u')
  | Hexadecimal.D5 u' => String "5" (hexUpperDigits u')
  | Hexadecimal.D6 u' => String "6" (hexUpperDigits u')
  | Hexadecimal.D7 u' => String "7" (hexUpperDigits u')
  | Hexadecimal.D8 u' => String "8" (hexUpperDigits u')
  | Hexadecimal.D9 u' => String "9" (hexUpperDigits u')
  | Hexadecimal.Da u' => String "A" (hexUpperDigits u')
  | Hexadecimal.Db u' => String "B" (hexUpperDigits u')
  | Hexadecimal.Dc u' => String "C" (hexUpperDigits u')
  | Hexadecimal.Dd u' => String "D" (hexUpperDigits u')
  | Hexadecimal.De u' => String "E" (hexUpperDigits u')
  | Hexadecimal.Df u' => String "F" (hexUpperDigits u')
  end.

(* ss << std::hex << std::uppercase << a, for a uint32_t *)
Definition toHexUpper (a : Z) : string :=
  hexUpperDigits (N.to_hex_uint (Z.to_N a)).

Fixpoint allHexChars (s : string) : bool :=
  match s with
  | EmptyString => true
  | String c s' => isHexChar c && allHexChars s'
  end.

Definition dropFirst (s : string) : string :=
  match s with
  | EmptyString => EmptyString
  | String _ s' => s'
  end.

Record vstate : Type := mkVstate {
  lineNum : Z;
  eofSeen : bool;
  extAddr : Z;
  writtenAddresses : gset Z
}.

Definition vstateInit : vstate := mkVstate 0 false 0 ∅.

(* for (uint8_t i = 0; i < byteCount; ++i): the first address that was
   written before, or the set with the addresses of this record added. *)
Fixpoint checkOverlap (absAddr : Z) (i count : nat) (written : gset Z)
    : gset Z + Z :=
  match count with
  | O => inl written
  | S count' =>
      let a := wrap32 (absAddr + Z.of_nat i) in
      if bool_decide (a ∈ written) then inr a
      else checkOverlap absAddr (S i) count' ({[a]} ∪ written)
  end.

(* The body of the while loop of validateHexFile: the next state, or the
   message assigned to errorOut before return false. *)
Definition validateLine (st : vstate) (rawLine : string)
    : result (flow vstate string) :=
  let lineNum := wrap64 (lineNum st + 1) in
  let line := trimTrailing rawLine in
  if isEmpty line || negb (startsWithColon line) then
    Ok (Done ("Line " ++ to_string lineNum ++ " does not start with ':'")%string)
  else if negb (allHexChars (dropFirst line)) then
    Ok (Done ("Invalid hex character at line " ++ to_string lineNum)%string)
  else if (String.length line <? 11)%nat then
    Ok (Done ("Line " ++ to_string lineNum ++ " too short.")%string)
  else
    byteCount <- parseHexByte line 1 ;;
    address <- parseHexWord line 3 ;;
    recordType <- parseHexByte line 7 ;;
    let expectedLength := 9 + byteCount * 2 + 2 in
    if negb (Z.of_nat (String.length line) =? expectedLength) then
      Ok (Done ("Incorrect line length at line " ++ to_string lineNum)%string)
    else
      sumOk <- validateLineChecksum line ;;
      if negb sumOk then
        Ok (Done ("Checksum mismatch at line " ++ to_string lineNum)%string)
      else if 5 <? recordType then
        Ok (Done ("Unknown record type at line " ++ to_string lineNum)%string)
      else if (recordType =? 1) && eofSeen st then
        Ok (Done "Multiple EOF records detected."%string)
      else
        let eofSeen' := if recordType =? 1 then true else eofSeen st in
        if recordType =? 0 then
          match checkOverlap (absoluteAddress (extAddr st) address)
                  0 (Z.to_nat byteCount) (writtenAddresses st) with
          | inr a =>
              Ok (Done ("Overlapping data at address 0x" ++ toHexUpper a)%string)
          | inl written =>
              Ok (Next (mkVstate lineNum eofSeen' (extAddr st) written))
          end
        else if recordType =? 4 then
          ext <- parseHexWord line 9 ;;
          Ok (Next (mkVstate lineNum eofSeen' ext (writtenAddresses st)))
        else
          Ok (Next (mkVstate lineNum eofSeen' (extAddr st) (writtenAddresses st))).

(* The loop of validateHexFile and the check that follows it: the returned
   flag and the final content of errorOut. *)
Definition validateLines (lines : list string) (errorOut : string)
    : result (bool * string) :=
  r <- whileLines validateLine lines vstateInit ;;
  match r with
  | Done message => Ok (false, message)
  | Next st =>
      if negb (eofSeen st) then Ok (false, "Missing EOF record."%string)
      else Ok (true, errorOut)
  end.

(* bool validateHexFile(const std::string& hexFilename, std::string& errorOut) *)
Definition validateHexFile (fs : filesystem) (hexFilename : string)
    (errorOut : string) : result (bool * string) :=
  match fs hexFilename with
  | None => Ok (false, ("Failed to open file: " ++ hexFilename)%string)
  | Some content => validateLines (getlines content) errorOut
  end.

(** ** Bootloader version extraction *)

(* static constexpr uint8_t kBootSig[] *)
Definition kBootSig : list Z :=
  [0x20; 0x0F; 0xF9; 0xA7; 0x17; 0x7D; 0x4E; 0x99;
   0xDB; 0x53; 0xA2; 0x72; 0xE7; 0xC3; 0xE1; 0xFA].

Definition kBootSigLen : nat := length kBootSig.

(* for (uint8_t i = 0; i < byteCount; ++i) mem[base + i] = hexByte(line, 9 + i * 2); *)
Fixpoint storeBytes (line : string) (base : Z) (i count : nat)
    (mem : gmap Z Z) : result (gmap Z Z) :=
  match count with
  | O => Ok mem
  | S count' =>
      b <- hexByte line (9 + i * 2) ;;
      storeBytes line base (S i) count' (<[wrap32 (base + Z.of_nat i) := b]> mem)
  end.

(* The body of the while loop of parseIntelHexToMap; the state is extLinear
   and mem; return false leaves with false, break at the EOF record leaves
   with true (sawEOF).  The line counter of the source is never read and is
   left out. *)
Definition parseIntelHexToMapLine (st : Z * gmap Z Z) (rawLine : string)
    : result (flow (Z * gmap Z Z) (bool * gmap Z Z)) :=
  let '(extLinear, mem) := st in
  let line := rtrim rawLine in
  if isEmpty line then Ok (Next st)
  else if negb (startsWithColon line) then Ok (Done (false, mem))
  else if negb (allHexChars (dropFirst line)) then Ok (Done (false, mem))
  else if (String.length line <? 11)%nat then Ok (Done (false, mem))
  else
    byteCount <- hexByte line 1 ;;
    addr16 <- parseHexWord line 3 ;;
    recType <- hexByte line 7 ;;
    let expectedLen := 1 + 2 * (byteCount + 5) in
    if negb (Z.of_nat (String.length line) =? expectedLen) then
      Ok (Done (false, mem))
    else
      sumOk <- validateLineChecksum line ;;
      if negb sumOk then Ok (Done (false, mem))
      else if recType =? 0 then
        mem' <- storeBytes line (absoluteAddress extLinear addr16)
                  0 (Z.to_nat byteCount) mem ;;
        Ok (Next (extLinear, mem'))
      else if recType =? 4 then
        if negb (byteCount =? 2) then Ok (Done (false, mem))
        else
          ext <- parseHexWord line 9 ;;
          Ok (Next (ext, mem))
      else if recType =? 1 then
        Ok (Done (true, mem))
      else
        Ok (Next st).

(* The flag that parseIntelHexToMap returns and the map it leaves in mem. *)
Definition parseIntelHexToMapLines (lines : list string) (mem : gmap Z Z)
    : result (bool * gmap Z Z) :=
  r <- whileLines parseIntelHexToMapLine lines (0, mem) ;;
  match r with
  | Next (_, mem') => Ok (false, mem')
  | Done x => Ok x
  end.

(* static bool parseIntelHexToMap(const std::string&, std::map<uint32_t, uint8_t>&) *)
Definition parseIntelHexToMap (fs : filesystem) (path : string)
    (mem : gmap Z Z) : result (bool * gmap Z Z) :=
  match fs path with
  | None => Ok (false, mem)
  | Some content => parseIntelHexToMapLines (getlines content) mem
  end.

(* for (size_t i = 1; i < patLen; ++i): every mem.find(addr + i) is there
   and holds pat[i]. *)
Fixpoint patternTail (mem : gmap Z Z) (pat : list Z) (addr : Z)
    (i count : nat) : bool :=
  match count with
  | O => true
  | S count' =>
      match mem !! wrap32 (addr + wrap32 (Z.of_nat i)) with
      | None => false
      | Some b =>
          if b =? nth i pat 0 then patternTail mem pat addr (S i) count'
          else false
      end
  end.

(* for (auto it = mem.begin(); it != mem.end(); ++it) *)
Fixpoint findPatternLoop (entries : list (Z * Z)) (mem : gmap Z Z)
    (pat : list Z) (patLen : nat) : option Z :=
  match entries with
  | [] => None
  | (addr, value) :: rest =>
      if negb (value =? nth 0 pat 0) then findPatternLoop rest mem pat patLen
      else if patternTail mem pat addr 1 (patLen - 1) then Some addr
      else findPatternLoop rest mem pat patLen
  end.

(* static bool findPatternAddress(mem, pat, patLen, foundAddr): the flag and
   the final value of foundAddr. *)
Definition findPatternAddress (mem : gmap Z Z) (pat : list Z) (patLen : nat)
    (foundAddr : Z) : bool * Z :=
  if (size mem <? patLen)%nat then (false, foundAddr)
  else
    match findPatternLoop (imageEntries mem) mem pat patLen with
    | Some addr => (true, addr)
    | None => (false, foundAddr)
    end.

(* extractBootloaderVersionFromHex from the parsed image on: the flag and
   the final values of major and minor. *)
Definition extractVersionFromImage (mem : gmap Z Z) (major minor : Z)
    : bool * Z * Z :=
  let '(found, sigAddr) := findPatternAddress mem kBootSig kBootSigLen 0 in
  if negb found then (false, major, minor)
  else
    let versionAddr := wrap32 (sigAddr + wrap32 (Z.of_nat kBootSigLen)) in
    match mem !! versionAddr, mem !! wrap32 (versionAddr + 1) with
    | Some vMajor, Some vMinor => (true, vMajor, vMinor)
    | _, _ => (false, major, minor)
    end.

(* bool extractBootloaderVersionFromHex(const std::string&, uint8_t&, uint8_t&) *)
Definition extractBootloaderVersionFromHex (fs : filesystem) (hexPath : string)
    (major minor : Z) : result (bool * Z * Z) :=
  r <- parseIntelHexToMap fs hexPath ∅ ;;
  if negb (fst r) then Ok (false, major, minor)
  else Ok (extractVersionFromImage (snd r) major minor).

(** * Definitions used by the statements *)

(** ** Decoded fields *)

Definition digitOf (c : ascii) : Z :=
  match hexDigitValue c with
  | Some d => d
  | None => 0
  end.

(* The value of the two characters at [pos], read as a byte. *)
Definition byteAt (s : string) (pos : nat) : Z :=
  digitsValue (substring pos 2 s) 0.

(* A colon followed by hexadecimal digits only. *)
Definition hexLine (line : string) : bool :=
  startsWithColon line && allHexChars (dropFirst line).

Definition wordAt (s : string) (pos : nat) : Z :=
  digitsValue (substring pos 4 s) 0.

(** ** The record of a line *)

(* The fields of one line, at the offsets at which the source reads them:
   byte count at 1, address at 3, record type at 7, payload from 9 on and
   the checksum in the last two characters. *)
Record HexRecord : Type := mkHexRecord {
  recByteCount : Z;
  recAddress : Z;
  recType : Z;
  recPayload : list Z;
  recChecksum : Z
}.

Fixpoint payloadBytes (line : string) (i count : nat) : result (list Z) :=
  match count with
  | O => Ok []
  | S count' =>
      b <- parseHexByte line (9 + i * 2) ;;
      bs <- payloadBytes line (S i) count' ;;
      Ok (b :: bs)
  end.

Definition decodeRecord (line : string) : result HexRecord :=
  byteCount <- parseHexByte line 1 ;;
  address <- parseHexWord line 3 ;;
  recordType <- parseHexByte line 7 ;;
  payload <- payloadBytes line 0 (Z.to_nat byteCount) ;;
  checksum <- parseHexByte line (9 + Z.to_nat byteCount * 2) ;;
  Ok (mkHexRecord byteCount address recordType payload checksum).

Definition sumList (l : list Z) : Z := fold_right Z.add 0 l.

(* The sum of every byte-pair of a record. *)
Definition recordSum (r : HexRecord) : Z :=
  recByteCount r + recAddress r / 256 + recAddress r mod 256 + recType r
  + sumList (recPayload r) + recChecksum r.

(* The checks that come before the checksum check: a colon, digits only, at
   least 11 characters, and the length that the byte count announces. *)
Definition recordShape (line : string) : bool :=
  hexLine line
  && (11 <=? String.length line)%nat
  && (Z.of_nat (String.length line) =? 11 + 2 * byteAt line 1).

(* The sum of [count] byte-pairs from position [i] on. *)
Fixpoint sumBytes (line : string) (i count : nat) : Z :=
  match count with
  | O => 0
  | S count' => byteAt line i + sumBytes line (i + 2) count'
  end.

(** ** Smallest and largest address of an image *)

Definition isMinKey (mem : gmap Z Z) (k : Z) : Prop :=
  is_Some (mem !! k) /\ forall k', is_Some (mem !! k') -> k <= k'.

Definition isMaxKey (mem : gmap Z Z) (k : Z) : Prop :=
  is_Some (mem !! k) /\ forall k', is_Some (mem !! k') -> k' <= k.

(** ** The boot signature in an image *)

(* The 16 addresses from [addr] on are present and hold the signature. *)
Definition sigAt (mem : gmap Z Z) (addr : Z) : Prop :=
  forall i : nat, (i < 16)%nat ->
    mem !! wrap32 (addr + Z.of_nat i) = Some (nth i kBootSig 0).

(* The lowest address at which the signature occurs. *)
Definition lowestSig (mem : gmap Z Z) (addr : Z) : Prop :=
  0 <= addr < 4294967296 /\ sigAt mem addr
  /\ forall addr', 0 <= addr' < 4294967296 -> sigAt mem addr' -> addr <= addr'.

(* The signature from 0x8000 on, then the version bytes 0x06 and 0x68. *)
Definition sampleImage : gmap Z Z :=
  list_to_map
    (zip (seqZ 0x8000 18) (kBootSig ++ [0x06; 0x68])).

(** ** Extended linear address records *)

(* The 16-bit value of a line that is read as a type-0x04 record. *)
Definition extendedValue (line : string) : option Z :=
  if startsWithColon line then
    match parseHexByte line 7, parseHexWord line 9 with
    | Ok recordType, Ok value => if recordType =? 4 then Some value else None
    | _, _ => None
    end
  else None.

(* [E] is the value of the most recent type-0x04 record among the lines
   [before], and [E0] if there is none. *)
Definition mostRecentExt (isExt : string -> option Z) (E0 : Z)
    (before : list string) (E : Z) : Prop :=
  (E = E0 /\ forall l, In l before -> isExt l = None)
  \/ (exists l1 r l2,
        before = l1 ++ r :: l2 /\ isExt r = Some E
        /\ forall l, In l l2 -> isExt l = None).

(* Every payload byte of the data record [line] is in [mem] at the address
   [((E << 16) | address16) + i], a uint32_t sum. *)
Definition payloadStoredAt (line : string) (E address16 byteCount : Z)
    (mem : gmap Z Z) : Prop :=
  forall i : nat, Z.of_nat i < byteCount ->
    exists b, parseHexByte line (9 + i * 2) = Ok b
              /\ mem !! wrap32 (Z.lor (Z.shiftl E 16) address16 + Z.of_nat i)
                 = Some b.

(** ** What the lenient builder can and cannot read *)

(* A line that is read as an end-of-file record. *)
Definition isEofRecord (line : string) : bool :=
  startsWithColon line
  && match parseHexByte line 7 with
     | Ok recordType => recordType =? 1
     | Throw _ => false
     end.

(* A line that starts with a colon and has a field that cannot be decoded:
   byte count, address or record type, a payload byte of a data record, or
   the value of a type-0x04 record. *)
Definition lineFails (line : string) : bool :=
  startsWithColon line
  && match parseHexByte line 1, parseHexWord line 3, parseHexByte line 7 with
     | Ok byteCount, Ok _, Ok recordType =>
         if recordType =? 0 then
           throws (payloadBytes line 0 (Z.to_nat byteCount))
         else if recordType =? 4 then throws (parseHexWord line 9)
         else false
     | _, _, _ => true
     end.

(* Some line before the first end-of-file record cannot be decoded. *)
Fixpoint parseFails (lines : list string) : bool :=
  match lines with
  | [] => false
  | line :: rest =>
      if lineFails line then true
      else if isEofRecord line then false
      else parseFails rest
  end.

(** ** Sample files *)

Definition newline : string := String "010" EmptyString.

(* The file system with the single file "firmware.hex". *)
Definition singleFile (content : string) : filesystem :=
  fun path => if String.eqb path "firmware.hex" then Some content else None.

(* One data record and no end-of-file record. *)
Definition fileWithoutEof : string :=
  (":0100000041BE" ++ newline)%string.

(* The signature at 0x8000 with the version bytes, then the end of file. *)
Definition fileWithSignature : string :=
  (":12800000200FF9A7177D4E99DB53A272E7C3E1FA0668EF" ++ newline
   ++ ":00000001FF" ++ newline)%string.

(* The same file after a first line that is no record. *)
Definition fileWithComment : string :=
  ("# bootloader" ++ newline ++ fileWithSignature)%string.

(** ** What the validator checks on a line and what a file writes *)

(* The line-level checks pass: the shape of a record, the checksum and a
   record type of at most 5. *)
Definition lineChecksOk (line : string) : bool :=
  recordShape line
  && match validateLineChecksum line with
     | Ok sumOk => sumOk
     | Throw _ => false
     end
  && (byteAt line 7 <=? 5).

(* The record-specific checks of validateLine, on the decoded fields. *)
Definition recordChecks (st : vstate) (line : string)
    : result (flow vstate string) :=
  let lineNum := wrap64 (lineNum st + 1) in
  let recordType := byteAt line 7 in
  if (recordType =? 1) && eofSeen st then
    Ok (Done "Multiple EOF records detected."%string)
  else
    let eofSeen' := if recordType =? 1 then true else eofSeen st in
    if recordType =? 0 then
      match checkOverlap (absoluteAddress (extAddr st) (wordAt line 3))
              0 (Z.to_nat (byteAt line 1)) (writtenAddresses st) with
      | inr a =>
          Ok (Done ("Overlapping data at address 0x" ++ toHexUpper a)%string)
      | inl written =>
          Ok (Next (mkVstate lineNum eofSeen' (extAddr st) written))
      end
    else if recordType =? 4 then
      Ok (Next (mkVstate lineNum eofSeen' (wordAt line 9) (writtenAddresses st)))
    else
      Ok (Next (mkVstate lineNum eofSeen' (extAddr st) (writtenAddresses st))).

(* [count] consecutive addresses from [base + i] on, as uint32_t sums. *)
Definition addressesFrom (base : Z) (i count : nat) : list Z :=
  map (fun k : nat => wrap32 (base + Z.of_nat k)) (seq i count).

(* The addresses that a data record writes under the extended address [ext]. *)
Definition recordAddresses (ext : Z) (line : string) : list Z :=
  addressesFrom (absoluteAddress ext (wordAt line 3)) 0
    (Z.to_nat (byteAt line 1)).

(* The addresses that the data records of a file write, in file order, with
   the extended address that is current at each record. *)
Fixpoint allWrites (ext : Z) (lines : list string) : list Z :=
  match lines with
  | [] => []
  | rawLine :: rest =>
      let line := trimTrailing rawLine in
      if byteAt line 7 =? 0 then recordAddresses ext line ++ allWrites ext rest
      else if byteAt line 7 =? 4 then allWrites (wordAt line 9) rest
      else allWrites ext rest
  end.

Definition occursTwice (a : Z) (l : list Z) : Prop :=
  exists l1 l2 l3, l = l1 ++ a :: l2 ++ a :: l3.

(* The number of end-of-file records of a file. *)
Definition countEof (lines : list string) : nat :=
  length (List.filter (fun l => isEofRecord (trimTrailing l)) lines).

Fixpoint hasPrefix (p s : string) : bool :=
  match p, s with
  | EmptyString, _ => true
  | String a p', String b s' => Ascii.eqb a b && hasPrefix p' s'
  | String _ _, EmptyString => false
  end.

Definition isUpperHexChar (c : ascii) : bool :=
  ((48 <=? code c) && (code c <=? 57)) || ((65 <=? code c) && (code c <=? 70)).

Fixpoint allChars (p : ascii -> bool) (s : string) : bool :=
  match s with
  | EmptyString => true
  | String c s' => p c && allChars p s'
  end.

(* Two data records for address 0 and no end-of-file record. *)
Definition fileWithOverlap : string :=
  (":0100000041BE" ++ newline ++ ":0100000041BE" ++ newline)%string.

(** ** Trailing characters *)

(* The characters that trimTrailing erases: space, CR and LF. *)
Definition isTrailingChar (c : ascii) : bool :=
  (code c =? 32) || (code c =? 13) || (code c =? 10).

(* The characters that rtrim pops: CR, LF, space and tab. *)
Definition isRtrimChar (c : ascii) : bool :=
  (code c =? 13) || (code c =? 10) || (code c =? 32) || (code c =? 9).

Fixpoint lastChar (s : string) : option ascii :=
  match s with
  | EmptyString => None
  | String c EmptyString => Some c
  | String _ s' => lastChar s'
  end.

Definition tab : string := String "009" EmptyString.

(** ** The byte-pairs of a line *)

(* The sum of the byte-pairs of a string of digits; a last digit without
   partner counts by itself, as substr(i, 2) returns it alone. *)
Fixpoint pairsTotal (s : string) : Z :=
  match s with
  | EmptyString => 0
  | String a EmptyString => digitOf a
  | String a (String b s') => 16 * digitOf a + digitOf b + pairsTotal s'
  end.

(** ** Messages of the validator *)

(* The texts before and after the line number in the messages of the
   line-level checks, in the order of the checks. *)
Definition lineErrorFormats : list (string * string) :=
  [("Line "%string, " does not start with ':'"%string);
   ("Invalid hex character at line "%string, EmptyString);
   ("Line "%string, " too short."%string);
   ("Incorrect line length at line "%string, EmptyString);
   ("Checksum mismatch at line "%string, EmptyString);
   ("Unknown record type at line "%string, EmptyString)].

(** ** What parseIntelHexToMap accepts *)

(* A trimmed line that parseIntelHexToMap reads without returning false:
   the shape of a record, a valid checksum, and two payload bytes when the
   type is 0x04. *)
Definition mapLineOk (line : string) : bool :=
  recordShape line
  && match validateLineChecksum line with
     | Ok sumOk => sumOk
     | Throw _ => false
     end
  && (negb (byteAt line 7 =? 4) || (byteAt line 1 =? 2)).

(* A line that parseIntelHexToMap passes on its way to the end-of-file
   record: empty after trimming, or a record other than end-of-file. *)
Definition mapLinePassed (rawLine : string) : bool :=
  isEmpty (rtrim rawLine)
  || (mapLineOk (rtrim rawLine) && negb (byteAt (rtrim rawLine) 7 =? 1)).

(* What parseIntelHexToMap does with a trimmed line that it accepts, on the
   decoded fields. *)
Definition mapRecord (st : Z * gmap Z Z) (line : string)
    : result (flow (Z * gmap Z Z) (bool * gmap Z Z)) :=
  let '(extLinear, mem) := st in
  if byteAt line 7 =? 0 then
    mem' <- storeData line (absoluteAddress extLinear (wordAt line 3))
              0 (Z.to_nat (byteAt line 1)) mem ;;
    Ok (Next (extLinear, mem'))
  else if byteAt line 7 =? 4 then Ok (Next (wordAt line 9, mem))
  else if byteAt line 7 =? 1 then Ok (Done (true, mem))
  else Ok (Next st).

(* A line that is no type-0x04 record, or one with two payload bytes. *)
Definition extendedHasTwoBytes (rawLine : string) : bool :=
  negb (byteAt (trimTrailing rawLine) 7 =? 4)
  || (byteAt (trimTrailing rawLine) 1 =? 2).

(** * Proofs *)

(** ** Hexadecimal digits and std::stoi on them *)

Lemma xdigit_facts (c : ascii) :
  isxdigit c = true ->
  isspace c = false /\ (code c =? 45) = false /\ (code c =? 43) = false
  /\ (code c =? 120) = false /\ (code c =? 88) = false
  /\ (code c =? 58) = false
  /\ exists d, hexDigitValue c = Some d /\ 0 <= d < 16.
Proof.
  destruct c as [[] [] [] [] [] [] [] []]; intros H;
    try (vm_compute in H; discriminate H); clear H;
    repeat split; try reflexivity;
    eexists; (split; [vm_compute; reflexivity | lia]).
Qed.

Lemma digitOf_range (c : ascii) : 0 <= digitOf c < 16.
Proof.
  unfold digitOf, hexDigitValue.
  repeat match goal with
         | |- context [if ?b then _ else _] => destruct b eqn:?
         end; lia.
Qed.

Lemma digitsValue_bound (s : string) (acc : Z) :
  0 <= acc ->
  0 <= digitsValue s acc < (acc + 1) * 16 ^ Z.of_nat (String.length s).
Proof.
  revert acc. induction s as [|c s IH]; intros acc Hacc.
  - simpl. lia.
  - cbn [digitsValue String.length].
    rewrite Nat2Z.inj_succ, Z.pow_succ_r by lia.
    assert (Hp : 0 < 16 ^ Z.of_nat (String.length s)) by (apply Z.pow_pos_nonneg; lia).
    destruct (hexDigitValue c) as [d|] eqn:Hd.
    + assert (Hr : 0 <= d < 16).
      { pose proof (digitOf_range c) as H. unfold digitOf in H. now rewrite Hd in H. }
      specialize (IH (16 * acc + d) ltac:(lia)). nia.
    + nia.
Qed.

Lemma stoi16_hex (s : string) :
  startsWithDigit s = true -> allHexChars s = true ->
  (String.length s <= 7)%nat ->
  stoi16 s = Ok (digitsValue s 0).
Proof.
  intros Hd Hall Hlen. unfold stoi16.
  destruct s as [|a s]; [discriminate|].
  cbn [startsWithDigit] in Hd.
  destruct (xdigit_facts a Hd) as (Hsp & Hm & Hp & _ & _ & _ & _).
  cbn [skipSpace]. rewrite Hsp. cbn [takeSign]. rewrite Hm, Hp.
  assert (Hpre : skipPrefix (String a s) = String a s).
  { destruct s as [|b s]; [reflexivity|].
    cbn [allHexChars] in Hall. apply andb_true_iff in Hall as [_ Hall].
    apply andb_true_iff in Hall as [Hb _].
    destruct (xdigit_facts b Hb) as (_ & _ & _ & Hx & HX & _).
    cbn [skipPrefix]. rewrite Hx, HX. now rewrite andb_false_r. }
  cbv zeta. rewrite Hpre. cbn [startsWithDigit]. rewrite Hd.
  pose proof (digitsValue_bound (String a s) 0 ltac:(lia)) as Hb.
  assert (H16 : 16 ^ Z.of_nat (String.length (String a s)) <= 16 ^ 7).
  { apply Z.pow_le_mono_r; lia. }
  replace (16 ^ 7) with 268435456 in H16 by reflexivity.
  unfold INT_MIN, INT_MAX.
  destruct (Z.leb_spec (-2147483648) (digitsValue (String a s) 0)); [|lia].
  destruct (Z.leb_spec (digitsValue (String a s) 0) 2147483647); [|lia].
  reflexivity.
Qed.

(** ** Substrings of lines of digits *)

Lemma substring_allHex (s : string) : forall p n,
  allHexChars s = true -> allHexChars (substring p n s) = true.
Proof.
  induction s as [|c s IH]; intros p n H.
  - destruct p, n; reflexivity.
  - cbn [allHexChars] in H. apply andb_true_iff in H as [Hc Hs].
    destruct p as [|p]; destruct n as [|n]; cbn [substring allHexChars];
      try reflexivity; try (now apply IH).
    rewrite Hc. now apply IH.
Qed.

Lemma substring_length_le (s : string) : forall p n,
  (String.length (substring p n s) <= n)%nat.
Proof.
  induction s as [|c s IH]; intros p n.
  - destruct p, n; simpl; lia.
  - destruct p as [|p]; destruct n as [|n]; cbn [substring String.length];
      try lia; try apply IH.
    specialize (IH 0%nat n). lia.
Qed.

Lemma substring_startsWithDigit (s : string) : forall p n,
  allHexChars s = true -> (p < String.length s)%nat -> (0 < n)%nat ->
  startsWithDigit (substring p n s) = true.
Proof.
  induction s as [|c s IH]; intros p n H Hp Hn.
  - simpl in Hp. lia.
  - cbn [allHexChars] in H. apply andb_true_iff in H as [Hc Hs].
    cbn [String.length] in Hp.
    destruct p as [|p]; destruct n as [|n]; try lia; cbn [substring].
    + exact Hc.
    + apply IH; [assumption | lia | lia].
Qed.

Lemma stoi16_substring (s : string) (p n : nat) :
  allHexChars s = true -> (p < String.length s)%nat ->
  (0 < n <= 7)%nat ->
  stoi16 (substring p n s) = Ok (digitsValue (substring p n s) 0).
Proof.
  intros H Hp Hn. apply stoi16_hex.
  - apply substring_startsWithDigit; [assumption | assumption | lia].
  - now apply substring_allHex.
  - pose proof (substring_length_le s p n). lia.
Qed.

Lemma byteAt_range (s : string) (p : nat) : 0 <= byteAt s p < 256.
Proof.
  unfold byteAt.
  pose proof (digitsValue_bound (substring p 2 s) 0 ltac:(lia)) as H.
  pose proof (substring_length_le s p 2) as Hl.
  assert (16 ^ Z.of_nat (String.length (substring p 2 s)) <= 16 ^ 2)
    by (apply Z.pow_le_mono_r; lia).
  change (16 ^ 2) with 256 in *. lia.
Qed.

Lemma wordAt_range (s : string) (p : nat) : 0 <= wordAt s p < 65536.
Proof.
  unfold wordAt.
  pose proof (digitsValue_bound (substring p 4 s) 0 ltac:(lia)) as H.
  pose proof (substring_length_le s p 4) as Hl.
  assert (16 ^ Z.of_nat (String.length (substring p 4 s)) <= 16 ^ 4)
    by (apply Z.pow_le_mono_r; lia).
  change (16 ^ 4) with 65536 in *. lia.
Qed.

Lemma substr_ok (s : string) (p n : nat) :
  (p <= String.length s)%nat -> substr s p n = Ok (substring p n s).
Proof.
  intros H. unfold substr.
  destruct (Nat.ltb_spec (String.length s) p); [lia | reflexivity].
Qed.

Lemma parseHexByte_digits (s : string) (p : nat) :
  allHexChars s = true -> (p < String.length s)%nat ->
  parseHexByte s p = Ok (byteAt s p).
Proof.
  intros H Hp. unfold parseHexByte.
  rewrite substr_ok by lia. cbn [bind].
  rewrite stoi16_substring by (try assumption; lia). cbn [bind].
  f_equal. unfold wrap8. apply Z.mod_small. apply byteAt_range.
Qed.

Lemma hexByte_parseHexByte (s : string) (p : nat) :
  hexByte s p = parseHexByte s p.
Proof. reflexivity. Qed.

Lemma parseHexWord_digits (s : string) (p : nat) :
  allHexChars s = true -> (p < String.length s)%nat ->
  parseHexWord s p = Ok (wordAt s p).
Proof.
  intros H Hp. unfold parseHexWord.
  rewrite substr_ok by lia. cbn [bind].
  rewrite stoi16_substring by (try assumption; lia). cbn [bind].
  f_equal. unfold wrap16. apply Z.mod_small. apply wordAt_range.
Qed.

(* Positions shift with the leading colon. *)
Lemma parseHexByte_shift (c : ascii) (s : string) (p : nat) :
  parseHexByte (String c s) (S p) = parseHexByte s p.
Proof. reflexivity. Qed.

Lemma parseHexWord_shift (c : ascii) (s : string) (p : nat) :
  parseHexWord (String c s) (S p) = parseHexWord s p.
Proof. reflexivity. Qed.

Lemma byteAt_shift (c : ascii) (s : string) (p : nat) :
  byteAt (String c s) (S p) = byteAt s p.
Proof. reflexivity. Qed.

Lemma wordAt_shift (c : ascii) (s : string) (p : nat) :
  wordAt (String c s) (S p) = wordAt s p.
Proof. reflexivity. Qed.

Lemma hexLine_inv (line : string) :
  hexLine line = true ->
  exists c body, line = String c body /\ code c = 58 /\ allHexChars body = true.
Proof.
  unfold hexLine. destruct line as [|c body]; [discriminate|].
  cbn [startsWithColon dropFirst]. intros H.
  apply andb_true_iff in H as [Hc Hb]. apply Z.eqb_eq in Hc.
  now exists c, body.
Qed.

Lemma parseHexByte_line (line : string) (p : nat) :
  hexLine line = true -> (1 <= p < String.length line)%nat ->
  parseHexByte line p = Ok (byteAt line p).
Proof.
  intros H Hp. destruct (hexLine_inv line H) as (c & body & -> & _ & Hb).
  destruct p as [|p]; [lia|]. cbn [String.length] in Hp.
  rewrite parseHexByte_shift, byteAt_shift. apply parseHexByte_digits; [assumption | lia].
Qed.

Lemma parseHexWord_line (line : string) (p : nat) :
  hexLine line = true -> (1 <= p < String.length line)%nat ->
  parseHexWord line p = Ok (wordAt line p).
Proof.
  intros H Hp. destruct (hexLine_inv line H) as (c & body & -> & _ & Hb).
  destruct p as [|p]; [lia|]. cbn [String.length] in Hp.
  rewrite parseHexWord_shift, wordAt_shift. apply parseHexWord_digits; [assumption | lia].
Qed.

(* A 16-bit field is its high byte followed by its low byte. *)
Lemma wordAt_bytes (s : string) (p : nat) :
  allHexChars s = true -> (p + 4 <= String.length s)%nat ->
  wordAt s p = 256 * byteAt s p + byteAt s (p + 2).
Proof.
  revert p. induction s as [|c s IH]; intros p H Hp.
  - simpl in Hp. lia.
  - destruct p as [|p].
    + clear IH. cbn [String.length] in Hp.
      destruct s as [|c2 [|c3 [|c4 s]]]; cbn [String.length] in Hp; try lia.
      cbn [allHexChars] in H.
      repeat (apply andb_true_iff in H as [? H]).
      unfold wordAt, byteAt. cbn [substring Nat.add].
      repeat match goal with
             | Hx : isHexChar ?x = true |- _ =>
                 let d := fresh "d" in let Hd := fresh "Hd" in
                 destruct (xdigit_facts x Hx) as (_ & _ & _ & _ & _ & _ & d & Hd & _);
                 clear Hx
             end.
      destruct s; cbn [substring digitsValue];
        repeat match goal with Hd : hexDigitValue _ = Some _ |- _ => rewrite Hd; clear Hd end; lia.
    + cbn [allHexChars] in H. apply andb_true_iff in H as [_ H].
      cbn [String.length] in Hp.
      change (S p + 2)%nat with (S (p + 2)).
      rewrite wordAt_shift, !byteAt_shift. apply IH; [assumption | lia].
Qed.

(** ** The checksum of a line *)

Lemma wrap8_add_l (a b : Z) : wrap8 (wrap8 a + b) = wrap8 (a + b).
Proof. unfold wrap8. now rewrite Zplus_mod_idemp_l. Qed.

Lemma checksumLoop_sum (line : string) : forall count i sum,
  hexLine line = true -> (1 <= i)%nat ->
  (i + 2 * count <= String.length line + 1)%nat ->
  checksumLoop line i count (wrap8 sum)
  = Ok (wrap8 (sum + sumBytes line i count)).
Proof.
  induction count as [|count IH]; intros i sum Hh Hi Hlen.
  - cbn [checksumLoop sumBytes]. now rewrite Z.add_0_r.
  - cbn [checksumLoop sumBytes].
    rewrite parseHexByte_line by (try assumption; lia). cbn [bind].
    rewrite wrap8_add_l, IH by (try assumption; lia).
    f_equal. f_equal. lia.
Qed.

Lemma sumBytes_app (line : string) : forall a b i,
  sumBytes line i (a + b) = sumBytes line i a + sumBytes line (i + 2 * a) b.
Proof.
  induction a as [|a IH]; intros b i.
  - rewrite Nat.mul_0_r, Nat.add_0_r, Nat.add_0_l. cbn [sumBytes]. lia.
  - change (S a + b)%nat with (S (a + b)). cbn [sumBytes]. rewrite IH.
    replace (i + 2 + 2 * a)%nat with (i + 2 * S a)%nat by lia. lia.
Qed.

Lemma payloadBytes_sum (line : string) : forall count i,
  hexLine line = true ->
  (9 + 2 * i + 2 * count <= String.length line)%nat ->
  exists bs, payloadBytes line i count = Ok bs
             /\ length bs = count
             /\ sumList bs = sumBytes line (9 + i * 2) count.
Proof.
  induction count as [|count IH]; intros i Hh Hlen.
  - exists []. repeat split.
  - destruct (IH (S i) Hh ltac:(lia)) as (bs & Hbs & Hl & Hs).
    exists (byteAt line (9 + i * 2) :: bs).
    cbn [payloadBytes].
    rewrite parseHexByte_line by (try assumption; lia). cbn [bind].
    rewrite Hbs. cbn [bind]. repeat split.
    + cbn [length]. now rewrite Hl.
    + cbn [sumList fold_right sumBytes]. fold (sumList bs). rewrite Hs.
      f_equal. f_equal. lia.
Qed.

Lemma recordShape_inv (line : string) :
  recordShape line = true ->
  hexLine line = true
  /\ String.length line = (11 + 2 * Z.to_nat (byteAt line 1))%nat.
Proof.
  unfold recordShape. intros H.
  apply andb_true_iff in H as [H H3]. apply andb_true_iff in H as [H1 H2].
  apply Z.eqb_eq in H3. pose proof (byteAt_range line 1). split; [assumption | lia].
Qed.

Lemma validateLineChecksum_sum (line : string) :
  recordShape line = true ->
  validateLineChecksum line
  = Ok (wrap8 (sumBytes line 1 (5 + Z.to_nat (byteAt line 1))) =? 0).
Proof.
  intros H. destruct (recordShape_inv line H) as [Hh Hlen].
  unfold validateLineChecksum.
  replace (String.length line / 2)%nat with (5 + Z.to_nat (byteAt line 1))%nat.
  2:{ rewrite Hlen.
      replace (11 + 2 * Z.to_nat (byteAt line 1))%nat
        with (1 + (5 + Z.to_nat (byteAt line 1)) * 2)%nat by lia.
      rewrite Nat.div_add by lia. reflexivity. }
  change 0 with (wrap8 0) at 1.
  rewrite checksumLoop_sum by (try assumption; lia). reflexivity.
Qed.

Lemma decodeRecord_fields (line : string) :
  recordShape line = true ->
  exists payload,
    decodeRecord line
    = Ok (mkHexRecord (byteAt line 1) (wordAt line 3) (byteAt line 7) payload
            (byteAt line (9 + Z.to_nat (byteAt line 1) * 2)))
    /\ length payload = Z.to_nat (byteAt line 1)
    /\ sumList payload = sumBytes line 9 (Z.to_nat (byteAt line 1)).
Proof.
  intros H. destruct (recordShape_inv line H) as [Hh Hlen].
  destruct (payloadBytes_sum line (Z.to_nat (byteAt line 1)) 0 Hh ltac:(lia))
    as (bs & Hbs & Hl & Hs).
  exists bs. split; [|split; assumption].
  unfold decodeRecord.
  rewrite (parseHexByte_line line 1) by (try assumption; lia). cbn [bind].
  rewrite (parseHexWord_line line 3) by (try assumption; lia). cbn [bind].
  rewrite (parseHexByte_line line 7) by (try assumption; lia). cbn [bind].
  rewrite Hbs. cbn [bind].
  rewrite parseHexByte_line by (try assumption; lia). reflexivity.
Qed.

Lemma wordAt_line_bytes (line : string) (p : nat) :
  hexLine line = true -> (1 <= p)%nat -> (p + 4 <= String.length line)%nat ->
  wordAt line p = 256 * byteAt line p + byteAt line (p + 2).
Proof.
  intros H Hp Hl. destruct (hexLine_inv line H) as (c & body & -> & _ & Hb).
  destruct p as [|p]; [lia|]. cbn [String.length] in Hl.
  change (S p + 2)%nat with (S (p + 2)).
  rewrite wordAt_shift, !byteAt_shift. apply wordAt_bytes; [assumption | lia].
Qed.

(** C4.  A line that has the shape of a record (a colon, hexadecimal digits
    only, the length that its byte count announces) decodes to a record, and
    the checksum check accepts it if and only if the sum of all its
    byte-pairs (byte count, address high and low byte, record type, every
    payload byte and the checksum byte), taken modulo 256, is 0. *)
Theorem checksum_accepts_iff_sum_zero (line : string) :
  recordShape line = true ->
  exists r,
    decodeRecord line = Ok r
    /\ Z.of_nat (length (recPayload r)) = recByteCount r
    /\ (validateLineChecksum line = Ok true <-> recordSum r mod 256 = 0)
    /\ (validateLineChecksum line = Ok false <-> recordSum r mod 256 <> 0).
Proof.
  intros H. destruct (recordShape_inv line H) as [Hh Hlen].
  destruct (decodeRecord_fields line H) as (payload & Hdec & Hl & Hs).
  eexists. split; [exact Hdec|].
  pose proof (byteAt_range line 1) as Hbc.
  cbn [recPayload recByteCount]. split; [lia|].
  rewrite (validateLineChecksum_sum line H).
  assert (Hsum : wrap8 (sumBytes line 1 (5 + Z.to_nat (byteAt line 1)))
                 = recordSum (mkHexRecord (byteAt line 1) (wordAt line 3)
                     (byteAt line 7) payload
                     (byteAt line (9 + Z.to_nat (byteAt line 1) * 2))) mod 256).
  { unfold recordSum, wrap8.
    cbn [recPayload recByteCount recAddress recType recChecksum].
    rewrite Hs, (wordAt_line_bytes line 3) by (try assumption; lia).
    pose proof (byteAt_range line 3). pose proof (byteAt_range line (3 + 2)).
    replace ((256 * byteAt line 3 + byteAt line (3 + 2)) / 256)
      with (byteAt line 3) by (apply Z.div_unique with (byteAt line (3 + 2)); lia).
    replace ((256 * byteAt line 3 + byteAt line (3 + 2)) mod 256)
      with (byteAt line (3 + 2)) by (apply Z.mod_unique with (byteAt line 3); lia).
    f_equal.
    replace (5 + Z.to_nat (byteAt line 1))%nat
      with (4 + (Z.to_nat (byteAt line 1) + 1))%nat by lia.
    rewrite (sumBytes_app line 4), (sumBytes_app line (Z.to_nat (byteAt line 1)) 1).
    change (1 + 2 * 4)%nat with 9%nat.
    assert (E1 : sumBytes line 1 4
                 = byteAt line 1 + byteAt line 3 + byteAt line (3 + 2) + byteAt line 7)
      by (cbn; lia).
    assert (E2 : sumBytes line (9 + 2 * Z.to_nat (byteAt line 1)) 1
                 = byteAt line (9 + Z.to_nat (byteAt line 1) * 2)).
    { cbn [sumBytes]. rewrite Z.add_0_r. f_equal. lia. }
    rewrite E1, E2. lia. }
  rewrite Hsum. split.
  - split; intros E.
    + injection E as E. now apply Z.eqb_eq in E.
    + f_equal. now apply Z.eqb_eq.
  - split; intros E.
    + injection E as E. now apply Z.eqb_neq in E.
    + f_equal. now apply Z.eqb_neq.
Qed.

Lemma checksum_accepts_iff_sum_zero_witness :
  recordShape ":0100000041BE" = true
  /\ exists r,
       decodeRecord ":0100000041BE" = Ok r
       /\ Z.of_nat (length (recPayload r)) = recByteCount r
       /\ (validateLineChecksum ":0100000041BE" = Ok true
           <-> recordSum r mod 256 = 0)
       /\ (validateLineChecksum ":0100000041BE" = Ok false
           <-> recordSum r mod 256 <> 0).
Proof.
  split; [reflexivity|].
  apply (checksum_accepts_iff_sum_zero ":0100000041BE"). reflexivity.
Defined.

(** ** The iteration order of an image *)

#[local] Instance keyLe_total : Total keyLe.
Proof. intros x y. unfold keyLe. lia. Qed.

#[local] Instance keyLe_trans : Transitive keyLe.
Proof. intros x y z. unfold keyLe. lia. Qed.

Lemma elem_of_imageEntries (mem : gmap Z Z) (k v : Z) :
  (k, v) ∈ imageEntries mem <-> mem !! k = Some v.
Proof.
  unfold imageEntries. rewrite merge_sort_Permutation.
  apply elem_of_map_to_list.
Qed.

Lemma imageEntries_sorted (mem : gmap Z Z) :
  StronglySorted keyLe (imageEntries mem).
Proof. apply StronglySorted_merge_sort; apply _. Qed.

Lemma elem_of_imageKeys (mem : gmap Z Z) (k : Z) :
  k ∈ imageKeys mem <-> is_Some (mem !! k).
Proof.
  unfold imageKeys. split.
  - intros H. apply list_elem_of_fmap in H as ([k' v] & -> & H).
    apply elem_of_imageEntries in H. now exists v.
  - intros [v H]. apply list_elem_of_fmap. exists (k, v).
    split; [reflexivity|]. now apply elem_of_imageEntries.
Qed.

Lemma imageKeys_sorted (mem : gmap Z Z) : StronglySorted Z.le (imageKeys mem).
Proof.
  unfold imageKeys.
  apply (StronglySorted_fmap fst keyLe Z.le); [intros x y H; exact H|].
  apply imageEntries_sorted.
Qed.

Lemma sorted_hd_least (l : list Z) (d x : Z) :
  StronglySorted Z.le l -> x ∈ l -> hd d l ∈ l /\ hd d l <= x.
Proof.
  intros Hs Hx. destruct l as [|y l]; [now apply elem_of_nil in Hx|].
  cbn [hd]. split. { rewrite elem_of_cons. now left. }
  apply StronglySorted_inv in Hs as [_ Hall].
  apply elem_of_cons in Hx as [->|Hx]; [lia|].
  rewrite Forall_forall in Hall. now apply Hall.
Qed.

Lemma sorted_last_greatest (l : list Z) (d : Z) :
  StronglySorted Z.le l -> forall x, x ∈ l ->
  List.last l d ∈ l /\ x <= List.last l d.
Proof.
  induction l as [|y l IH]; intros Hs x Hx; [now apply elem_of_nil in Hx|].
  apply StronglySorted_inv in Hs as [Hs Hall].
  destruct l as [|z l].
  - apply list_elem_of_singleton in Hx as ->. cbn [List.last].
    split; [rewrite list_elem_of_singleton; reflexivity | lia].
  - change (List.last (y :: z :: l) d) with (List.last (z :: l) d).
    assert (Hz : z ∈ z :: l) by (rewrite elem_of_cons; now left).
    destruct (IH Hs z Hz) as [Hin Hzl].
    split; [rewrite elem_of_cons; now right|].
    apply elem_of_cons in Hx as [->|Hx].
    + rewrite Forall_forall in Hall. apply Z.le_trans with z; [now apply Hall|].
      exact Hzl.
    + now apply IH.
Qed.

Lemma imageKeys_minmax (mem : gmap Z Z) :
  mem <> ∅ ->
  isMinKey mem (hd 0 (imageKeys mem))
  /\ isMaxKey mem (List.last (imageKeys mem) 0).
Proof.
  intros Hne. apply map_choose in Hne as (k & v & Hk).
  assert (Hin : k ∈ imageKeys mem) by (apply elem_of_imageKeys; now exists v).
  pose proof (imageKeys_sorted mem) as Hs.
  split; split.
  - apply elem_of_imageKeys. now apply (sorted_hd_least _ 0 k Hs).
  - intros k' Hk'. apply elem_of_imageKeys in Hk'.
    now apply (sorted_hd_least _ 0 k' Hs).
  - apply elem_of_imageKeys. now apply (sorted_last_greatest _ 0 Hs k).
  - intros k' Hk'. apply elem_of_imageKeys in Hk'.
    now apply (sorted_last_greatest _ 0 Hs k').
Qed.

Lemma wfImage_lookup (mem : gmap Z Z) (k v : Z) :
  wfImage mem = true -> mem !! k = Some v ->
  0 <= k < 4294967296 /\ 0 <= v < 256.
Proof.
  unfold wfImage. rewrite forallb_forall. intros H Hk.
  apply elem_of_map_to_list, list_elem_of_In in Hk.
  specialize (H _ Hk). cbn [fst snd] in H. lia.
Qed.

Lemma wfImage_intro (mem : gmap Z Z) :
  (forall k v, mem !! k = Some v -> 0 <= k < 4294967296 /\ 0 <= v < 256) ->
  wfImage mem = true.
Proof.
  intros H. unfold wfImage. apply forallb_forall. intros [k v] Hin.
  apply list_elem_of_In, elem_of_map_to_list in Hin.
  specialize (H _ _ Hin). cbn [fst snd]. lia.
Qed.

Lemma minKey_unique (mem : gmap Z Z) (a b : Z) :
  isMinKey mem a -> isMinKey mem b -> a = b.
Proof. intros [Ha Hla] [Hb Hlb]. specialize (Hla b Hb). specialize (Hlb a Ha). lia. Qed.

Lemma maxKey_unique (mem : gmap Z Z) (a b : Z) :
  isMaxKey mem a -> isMaxKey mem b -> a = b.
Proof. intros [Ha Hla] [Hb Hlb]. specialize (Hla b Hb). specialize (Hlb a Ha). lia. Qed.

(** ** computePagesUsed *)

Lemma computePagesUsed_minmax (flashData : gmap Z Z) (pageSize lo hi : Z) :
  wfImage flashData = true -> 0 < pageSize ->
  isMinKey flashData lo -> isMaxKey flashData hi ->
  computePagesUsed flashData pageSize = hi / pageSize - lo / pageSize + 1.
Proof.
  intros Hwf Hps Hlo Hhi.
  assert (Hne : flashData <> ∅).
  { intros ->. destruct Hlo as [[v Hv] _]. now rewrite lookup_empty in Hv. }
  unfold computePagesUsed. rewrite bool_decide_eq_false_2 by assumption.
  destruct (imageKeys_minmax flashData Hne) as [Hmin Hmax].
  rewrite (minKey_unique _ _ _ Hmin Hlo), (maxKey_unique _ _ _ Hmax Hhi).
  cbv zeta. unfold wrap64. apply Z.mod_small.
  destruct Hlo as [[vlo Hvlo] Hlo]. destruct Hhi as [[vhi Hvhi] Hhi].
  pose proof (wfImage_lookup _ _ _ Hwf Hvlo) as [Hrlo _].
  pose proof (wfImage_lookup _ _ _ Hwf Hvhi) as [Hrhi _].
  assert (lo <= hi) by (apply Hlo; now exists vhi).
  assert (0 <= lo / pageSize) by (apply Z.div_pos; lia).
  assert (lo / pageSize <= hi / pageSize) by (apply Z.div_le_mono; lia).
  assert (hi / pageSize <= hi) by (apply Z.div_le_upper_bound; nia).
  lia.
Qed.

Lemma two_byte_image_minmax (a b va vb : Z) :
  a <= b ->
  isMinKey (<[b := vb]> (<[a := va]> ∅)) a
  /\ isMaxKey (<[b := vb]> (<[a := va]> ∅)) b.
Proof.
  intros Hab.
  assert (Hkeys : forall k, is_Some ((<[b := vb]> (<[a := va]> (∅ : gmap Z Z))) !! k)
                            -> k = a \/ k = b).
  { intros k [v Hv]. destruct (decide (k = b)) as [->|Hb]; [now right|].
    rewrite lookup_insert_ne in Hv by congruence.
    destruct (decide (k = a)) as [->|Ha]; [now left|].
    rewrite lookup_insert_ne, lookup_empty in Hv by congruence. discriminate. }
  split; split.
  - destruct (decide (a = b)) as [->|Hne].
    + rewrite lookup_insert_eq. now eexists.
    + rewrite lookup_insert_ne, lookup_insert_eq by congruence. now eexists.
  - intros k Hk. destruct (Hkeys k Hk); lia.
  - rewrite lookup_insert_eq. now eexists.
  - intros k Hk. destruct (Hkeys k Hk); lia.
Qed.

(** C3.  On an image of 32-bit addresses and a positive page size, the
    flash-page computation returns 0 for the empty image and otherwise
    [maxAddress / pageSize - minAddress / pageSize + 1] over the smallest
    and the largest key; bytes only at 0x0000 and 0x07FF with page size 2048
    give 1, bytes at 0x0000 and 0x0800 give 2. *)
Theorem computePagesUsed_spec (flashData : gmap Z Z) (pageSize b1 b2 : Z) :
  wfImage flashData = true -> 0 < pageSize ->
  0 <= b1 < 256 -> 0 <= b2 < 256 ->
  (flashData = ∅ -> computePagesUsed flashData pageSize = 0)
  /\ (flashData <> ∅ ->
      exists minAddress maxAddress,
        isMinKey flashData minAddress /\ isMaxKey flashData maxAddress
        /\ computePagesUsed flashData pageSize
           = maxAddress / pageSize - minAddress / pageSize + 1)
  /\ computePagesUsed (<[0x07FF := b2]> (<[0x0000 := b1]> ∅)) 2048 = 1
  /\ computePagesUsed (<[0x0800 := b2]> (<[0x0000 := b1]> ∅)) 2048 = 2.
Proof.
  intros Hwf Hps Hb1 Hb2. split; [|split; [|split]].
  - intros ->. reflexivity.
  - intros Hne. destruct (imageKeys_minmax flashData Hne) as [Hmin Hmax].
    eexists _, _. split; [exact Hmin|]. split; [exact Hmax|].
    now apply computePagesUsed_minmax.
  - destruct (two_byte_image_minmax 0 0x07FF b1 b2 ltac:(lia)) as [Hmin Hmax].
    rewrite (computePagesUsed_minmax _ 2048 0 0x07FF); [reflexivity | | lia | exact Hmin | exact Hmax].
    apply wfImage_intro. intros k v Hk.
    destruct (decide (k = 0x07FF)) as [->|Hn].
    + rewrite lookup_insert_eq in Hk. injection Hk as <-. lia.
    + rewrite lookup_insert_ne in Hk by congruence.
      destruct (decide (k = 0)) as [->|Hn0].
      * rewrite lookup_insert_eq in Hk. injection Hk as <-. lia.
      * rewrite lookup_insert_ne, lookup_empty in Hk by congruence. discriminate.
  - destruct (two_byte_image_minmax 0 0x0800 b1 b2 ltac:(lia)) as [Hmin Hmax].
    rewrite (computePagesUsed_minmax _ 2048 0 0x0800); [reflexivity | | lia | exact Hmin | exact Hmax].
    apply wfImage_intro. intros k v Hk.
    destruct (decide (k = 0x0800)) as [->|Hn].
    + rewrite lookup_insert_eq in Hk. injection Hk as <-. lia.
    + rewrite lookup_insert_ne in Hk by congruence.
      destruct (decide (k = 0)) as [->|Hn0].
      * rewrite lookup_insert_eq in Hk. injection Hk as <-. lia.
      * rewrite lookup_insert_ne, lookup_empty in Hk by congruence. discriminate.
Qed.

Lemma computePagesUsed_spec_witness :
  wfImage (<[0x0800 := 2]> (<[0x0000 := 1]> ∅)) = true /\ 0 < 2048
  /\ 0 <= 1 < 256 /\ 0 <= 2 < 256
  /\ computePagesUsed (<[0x0800 := 2]> (<[0x0000 := 1]> ∅)) 2048 = 2.
Proof.
  assert (Hwf : wfImage (<[0x0800 := 2]> (<[0x0000 := 1]> ∅)) = true)
    by (vm_compute; reflexivity).
  split; [exact Hwf|]. split; [lia|]. split; [lia|]. split; [lia|].
  apply (computePagesUsed_spec (<[0x0800 := 2]> (<[0x0000 := 1]> ∅)) 2048 1 2);
    [exact Hwf | lia | lia | lia].
Defined.

(** ** 32-bit address arithmetic *)

Lemma wrap32_small (z : Z) : 0 <= z < 4294967296 -> wrap32 z = z.
Proof. intros H. unfold wrap32. now apply Z.mod_small. Qed.

Lemma wrap32_range (z : Z) : 0 <= wrap32 z < 4294967296.
Proof. unfold wrap32. apply Z.mod_pos_bound. lia. Qed.

Lemma wrap32_add_l (a b : Z) : wrap32 (wrap32 a + b) = wrap32 (a + b).
Proof. unfold wrap32. now rewrite Zplus_mod_idemp_l. Qed.

Lemma wrap32_add_inj (a i j : Z) :
  0 <= i < 4294967296 -> 0 <= j < 4294967296 ->
  wrap32 (a + i) = wrap32 (a + j) -> i = j.
Proof.
  unfold wrap32. intros Hi Hj H.
  pose proof (Z.div_mod (a + i) 4294967296 ltac:(lia)) as E1.
  pose proof (Z.div_mod (a + j) 4294967296 ltac:(lia)) as E2.
  rewrite H in E1.
  assert (i - j = 4294967296 * ((a + i) / 4294967296 - (a + j) / 4294967296)) by lia.
  lia.
Qed.

(** ** findPatternAddress *)

Lemma patternTail_spec (mem : gmap Z Z) (pat : list Z) (addr : Z) :
  forall count i,
    Z.of_nat i + Z.of_nat count <= 4294967296 ->
    patternTail mem pat addr i count = true
    <-> forall k : nat, (i <= k < i + count)%nat ->
          mem !! wrap32 (addr + Z.of_nat k) = Some (nth k pat 0).
Proof.
  induction count as [|count IH]; intros i Hb.
  - cbn [patternTail]. split; [intros _ k Hk; lia | reflexivity].
  - cbn [patternTail]. rewrite (wrap32_small (Z.of_nat i)) by lia.
    destruct (mem !! wrap32 (addr + Z.of_nat i)) as [b|] eqn:Hl.
    + destruct (Z.eqb_spec b (nth i pat 0)) as [->|Hne].
      * rewrite IH by lia. split.
        -- intros H k Hk. destruct (decide (k = i)) as [->|Hki]; [exact Hl|].
           apply H. lia.
        -- intros H k Hk. apply H. lia.
      * split; [discriminate|]. intros H.
        specialize (H i ltac:(lia)). rewrite Hl in H. congruence.
    + split; [discriminate|]. intros H.
      specialize (H i ltac:(lia)). rewrite Hl in H. discriminate.
Qed.

Lemma candidate_spec (mem : gmap Z Z) (addr value : Z) :
  0 <= addr < 4294967296 -> mem !! addr = Some value ->
  negb (value =? nth 0 kBootSig 0) = false
  /\ patternTail mem kBootSig addr 1 (kBootSigLen - 1) = true
  <-> sigAt mem addr.
Proof.
  intros Hr Hv. change (kBootSigLen - 1)%nat with 15%nat.
  rewrite patternTail_spec by lia. unfold sigAt. split.
  - intros [H0 H] i Hi. destruct i as [|i].
    + rewrite Z.add_0_r, wrap32_small, Hv by lia. f_equal.
      apply negb_false_iff in H0. now apply Z.eqb_eq in H0.
    + apply H. lia.
  - intros H. split.
    + specialize (H 0%nat ltac:(lia)).
      rewrite Z.add_0_r, wrap32_small, Hv in H by lia. injection H as ->.
      apply negb_false_iff. apply Z.eqb_refl.
    + intros k Hk. apply H. lia.
Qed.

Lemma findPatternLoop_spec (mem : gmap Z Z) (entries : list (Z * Z)) :
  (forall k v, (k, v) ∈ entries -> 0 <= k < 4294967296 /\ mem !! k = Some v) ->
  StronglySorted keyLe entries ->
  match findPatternLoop entries mem kBootSig kBootSigLen with
  | Some addr =>
      (exists v, (addr, v) ∈ entries) /\ sigAt mem addr
      /\ forall k v, (k, v) ∈ entries -> sigAt mem k -> addr <= k
  | None => forall k v, (k, v) ∈ entries -> ~ sigAt mem k
  end.
Proof.
  induction entries as [|[addr value] rest IH]; intros Hin Hs.
  - cbn [findPatternLoop]. intros k v H. now apply elem_of_nil in H.
  - apply StronglySorted_inv in Hs as [Hs Hall].
    assert (Hhere : (addr, value) ∈ (addr, value) :: rest)
      by (rewrite elem_of_cons; now left).
    destruct (Hin _ _ Hhere) as [Hr Hv].
    pose proof (candidate_spec mem addr value Hr Hv) as Hc.
    assert (Hrest : forall k v, (k, v) ∈ rest ->
                      0 <= k < 4294967296 /\ mem !! k = Some v).
    { intros k v H. apply Hin. rewrite elem_of_cons. now right. }
    specialize (IH Hrest Hs).
    cbn [findPatternLoop].
    destruct (negb (value =? nth 0 kBootSig 0)) eqn:H0;
      [|destruct (patternTail mem kBootSig addr 1 (kBootSigLen - 1)) eqn:Ht].
    + assert (Hno : ~ sigAt mem addr) by (intros H; apply Hc in H as [? _]; discriminate).
      destruct (findPatternLoop rest mem kBootSig kBootSigLen) as [a|].
      * destruct IH as ((v & Hv') & Hsig & Hleast). split; [|split].
        -- exists v. rewrite elem_of_cons. now right.
        -- exact Hsig.
        -- intros k w Hk Hsk. apply elem_of_cons in Hk as [E|Hk].
           ++ injection E as -> ->. contradiction.
           ++ now apply (Hleast k w).
      * intros k w Hk. apply elem_of_cons in Hk as [E|Hk].
        -- injection E as -> ->. exact Hno.
        -- now apply (IH k w).
    + assert (Hsig : sigAt mem addr) by (apply Hc; now split).
      split; [now exists value|]. split; [exact Hsig|].
      intros k w Hk _. apply elem_of_cons in Hk as [E|Hk].
      * injection E as -> ->. lia.
      * rewrite Forall_forall in Hall. apply (Hall (k, w) Hk).
    + assert (Hno : ~ sigAt mem addr)
        by (intros H; apply Hc in H as [_ H]; rewrite H in Ht; discriminate).
      destruct (findPatternLoop rest mem kBootSig kBootSigLen) as [a|].
      * destruct IH as ((v & Hv') & Hsig & Hleast). split; [|split].
        -- exists v. rewrite elem_of_cons. now right.
        -- exact Hsig.
        -- intros k w Hk Hsk. apply elem_of_cons in Hk as [E|Hk].
           ++ injection E as -> ->. contradiction.
           ++ now apply (Hleast k w).
      * intros k w Hk. apply elem_of_cons in Hk as [E|Hk].
        -- injection E as -> ->. exact Hno.
        -- now apply (IH k w).
Qed.

(* An image that holds the signature has at least 16 entries. *)
Lemma sigAt_size (mem : gmap Z Z) (addr : Z) :
  sigAt mem addr -> (16 <= size mem)%nat.
Proof.
  intros H.
  set (keys := (fun i : nat => wrap32 (addr + Z.of_nat i)) <$> seq 0 16).
  assert (Hnd : NoDup keys).
  { apply NoDup_fmap_2_strong; [|apply NoDup_seq].
    intros x y Hx Hy E. apply elem_of_seq in Hx, Hy.
    apply wrap32_add_inj in E; lia. }
  assert (Hsub : (list_to_set keys : gset Z) ⊆ dom mem).
  { intros k Hk. apply elem_of_list_to_set in Hk.
    apply list_elem_of_fmap in Hk as (i & -> & Hi). apply elem_of_seq in Hi.
    apply elem_of_dom. rewrite H by lia. now eexists. }
  apply subseteq_size in Hsub.
  rewrite size_list_to_set, size_dom in Hsub by exact Hnd.
  unfold keys in Hsub. rewrite length_fmap, length_seq in Hsub. exact Hsub.
Qed.

Lemma findPatternAddress_spec (mem : gmap Z Z) (foundAddr : Z) :
  wfImage mem = true ->
  (exists addr, lowestSig mem addr
                /\ findPatternAddress mem kBootSig kBootSigLen foundAddr
                   = (true, addr))
  \/ ((forall addr, 0 <= addr < 4294967296 -> ~ sigAt mem addr)
      /\ findPatternAddress mem kBootSig kBootSigLen foundAddr
         = (false, foundAddr)).
Proof.
  intros Hwf. unfold findPatternAddress.
  assert (Hin : forall k v, (k, v) ∈ imageEntries mem ->
                  0 <= k < 4294967296 /\ mem !! k = Some v).
  { intros k v H. apply elem_of_imageEntries in H. split; [|exact H].
    now destruct (wfImage_lookup mem k v Hwf H). }
  assert (Hkey : forall a, 0 <= a < 4294967296 -> sigAt mem a ->
                   exists v, (a, v) ∈ imageEntries mem).
  { intros a Ha Hs. specialize (Hs 0%nat ltac:(lia)).
    rewrite Z.add_0_r, wrap32_small in Hs by lia.
    eexists. apply elem_of_imageEntries. exact Hs. }
  pose proof (findPatternLoop_spec mem (imageEntries mem) Hin
                (imageEntries_sorted mem)) as Hloop.
  destruct (Nat.ltb_spec (size mem) kBootSigLen) as [Hsmall|Hbig].
  - right. split; [|reflexivity]. intros a Ha Hs.
    apply sigAt_size in Hs. change kBootSigLen with 16%nat in Hsmall. lia.
  - destruct (findPatternLoop (imageEntries mem) mem kBootSig kBootSigLen) as [a|].
    + left. exists a. split; [|reflexivity].
      destruct Hloop as ((v & Hv) & Hsig & Hleast).
      split; [now destruct (Hin _ _ Hv)|]. split; [exact Hsig|].
      intros a' Ha' Hs'. destruct (Hkey a' Ha' Hs') as (v' & Hv').
      now apply (Hleast a' v').
    + right. split; [|reflexivity]. intros a Ha Hs.
      destruct (Hkey a Ha Hs) as (v & Hv). now apply (Hloop a v).
Qed.

Lemma lowestSig_unique (mem : gmap Z Z) (a b : Z) :
  lowestSig mem a -> lowestSig mem b -> a = b.
Proof.
  intros (Ha & Hsa & Hla) (Hb & Hsb & Hlb).
  specialize (Hla b Hb Hsb). specialize (Hlb a Ha Hsa). lia.
Qed.

(** C2.  On an image of 32-bit addresses, the extraction locates the lowest
    address at which the 16 signature bytes are all present (addresses
    count modulo 2^32, as the uint32_t sums of the source do); there is
    either such an address or none at all.  On a match the result is
    success with major and minor read from the two addresses that follow
    the signature, and failure, with major and minor as they were, when one
    of them is absent; without a match, and in particular with fewer than 16
    entries, it is failure. *)
Theorem extractVersion_lowest_signature (mem : gmap Z Z) (major minor : Z) :
  wfImage mem = true ->
  ((exists addr, lowestSig mem addr)
   \/ (forall addr, 0 <= addr < 4294967296 -> ~ sigAt mem addr))
  /\ (forall addr, lowestSig mem addr ->
      extractVersionFromImage mem major minor
      = match mem !! wrap32 (addr + 16), mem !! wrap32 (addr + 17) with
        | Some vMajor, Some vMinor => (true, vMajor, vMinor)
        | _, _ => (false, major, minor)
        end)
  /\ ((forall addr, 0 <= addr < 4294967296 -> ~ sigAt mem addr) ->
      extractVersionFromImage mem major minor = (false, major, minor))
  /\ ((size mem < 16)%nat ->
      extractVersionFromImage mem major minor = (false, major, minor))
  /\ (forall addr, sigAt mem addr -> 0 <= addr -> addr + 17 < 4294967296 ->
      (forall i : nat, (i < 16)%nat ->
         mem !! (addr + Z.of_nat i) = Some (nth i kBootSig 0))
      /\ wrap32 (addr + 16) = addr + 16 /\ wrap32 (addr + 17) = addr + 17).
Proof.
  intros Hwf.
  pose proof (findPatternAddress_spec mem 0 Hwf) as Hfind.
  assert (Hnone : (forall addr, 0 <= addr < 4294967296 -> ~ sigAt mem addr) ->
                  extractVersionFromImage mem major minor = (false, major, minor)).
  { intros Hno. unfold extractVersionFromImage.
    destruct Hfind as [(a & Hlow & _)|[_ ->]]; [|reflexivity].
    destruct Hlow as (Ha & Hs & _). now destruct (Hno a Ha). }
  split; [|split; [|split; [|split]]].
  - destruct Hfind as [(a & Hlow & _)|[Hno _]]; [left; now exists a | now right].
  - intros addr Hlow. unfold extractVersionFromImage.
    destruct Hfind as [(a & Hlow' & ->)|[Hno _]].
    + rewrite (lowestSig_unique _ _ _ Hlow Hlow'). cbn [negb].
      change (wrap32 (Z.of_nat kBootSigLen)) with 16.
      rewrite wrap32_add_l. replace (a + 16 + 1) with (a + 17) by lia.
      reflexivity.
    + destruct Hlow as (Ha & Hs & _). now destruct (Hno addr Ha).
  - exact Hnone.
  - intros Hsize. apply Hnone. intros a Ha Hs. apply sigAt_size in Hs. lia.
  - intros addr Hs H0 H17. split; [|split].
    + intros i Hi. rewrite <- (wrap32_small (addr + Z.of_nat i)) by lia.
      now apply Hs.
    + apply wrap32_small. lia.
    + apply wrap32_small. lia.
Qed.

Lemma extractVersion_lowest_signature_witness :
  wfImage sampleImage = true
  /\ ((exists addr, lowestSig sampleImage addr)
      \/ (forall addr, 0 <= addr < 4294967296 -> ~ sigAt sampleImage addr)).
Proof.
  assert (Hwf : wfImage sampleImage = true) by (vm_compute; reflexivity).
  split; [exact Hwf|].
  apply (extractVersion_lowest_signature sampleImage 0 0 Hwf).
Defined.

(* The signature at 0x8000 followed by 0x06 and 0x68. *)
Example extractVersion_sample :
  extractVersionFromImage sampleImage 0 0 = (true, 0x06, 0x68).
Proof. vm_compute. reflexivity. Qed.

(* Close a goal whose first premise equates two different results. *)
Ltac absurd_result := let H := fresh in intros H; discriminate H.

(** ** Loops over lines *)

Lemma whileLines_app {S R : Type} (body : S -> string -> result (flow S R))
    (l1 l2 : list string) (st : S) :
  whileLines body (l1 ++ l2) st
  = match whileLines body l1 st with
    | Ok (Next st') => whileLines body l2 st'
    | other => other
    end.
Proof.
  revert st. induction l1 as [|l l1 IH]; intros st; [reflexivity|].
  cbn [whileLines app]. destruct (body st l) as [[st'|x]|e]; cbn [bind];
    [apply IH | reflexivity | reflexivity].
Qed.

Lemma whileLines_cons_Next {S R : Type}
    (body : S -> string -> result (flow S R))
    (l : string) (rest : list string) (st st2 : S) :
  whileLines body (l :: rest) st = Ok (Next st2) ->
  exists st1, body st l = Ok (Next st1)
              /\ whileLines body rest st1 = Ok (Next st2).
Proof.
  cbn [whileLines]. destruct (body st l) as [[st1|x]|e]; cbn [bind]; intros H;
    try discriminate. now exists st1.
Qed.

(** ** The extended linear address carried across lines *)

Section MostRecent.
Context {M R : Type}.
Variable body : Z * M -> string -> result (flow (Z * M) R).
Variable isExt : string -> option Z.
Hypothesis body_ext : forall E m l E' m',
  body (E, m) l = Ok (Next (E', m')) ->
  E' = match isExt l with Some v => v | None => E end.

Lemma whileLines_mostRecentExt (before : list string) :
  forall E0 m0 E m,
    whileLines body before (E0, m0) = Ok (Next (E, m)) ->
    mostRecentExt isExt E0 before E.
Proof.
  induction before as [|l rest IH]; intros E0 m0 E m H.
  - cbn [whileLines] in H. injection H as -> ->. left.
    split; [reflexivity | intros l []].
  - apply whileLines_cons_Next in H as ([E1 m1] & Hb & Hrest).
    apply body_ext in Hb. destruct (IH _ _ _ _ Hrest) as [[-> Hno]|Hsome].
    + destruct (isExt l) as [v|] eqn:Hl.
      * right. exists [], l, rest. subst E1. repeat split; assumption.
      * left. split; [exact Hb|]. intros l' [<-|Hin]; [exact Hl | now apply Hno].
    + destruct Hsome as (l1 & r & l2 & -> & Hr & Hno).
      right. exists (l :: l1), r, l2. repeat split; assumption.
Qed.
End MostRecent.

Lemma parseHexWord_range (line : string) (p : nat) (v : Z) :
  parseHexWord line p = Ok v -> 0 <= v < 65536.
Proof.
  unfold parseHexWord. destruct (substr line p 4) as [s|e]; cbn [bind]; [|discriminate].
  destruct (stoi16 s) as [w|e]; cbn [bind]; [|discriminate].
  intros H. injection H as <-. unfold wrap16. apply Z.mod_pos_bound. lia.
Qed.

Lemma parseHexByte_range (line : string) (p : nat) (v : Z) :
  parseHexByte line p = Ok v -> 0 <= v < 256.
Proof.
  unfold parseHexByte. destruct (substr line p 2) as [s|e]; cbn [bind]; [|discriminate].
  destruct (stoi16 s) as [w|e]; cbn [bind]; [|discriminate].
  intros H. injection H as <-. unfold wrap8. apply Z.mod_pos_bound. lia.
Qed.

Lemma mostRecentExt_range (isExt : string -> option Z) (before : list string)
    (E : Z) :
  (forall l v, isExt l = Some v -> 0 <= v < 65536) ->
  mostRecentExt isExt 0 before E -> 0 <= E < 65536.
Proof.
  intros Hr [[-> _]|(l1 & r & l2 & _ & Hv & _)]; [lia | now apply (Hr r)].
Qed.

Lemma extendedValue_range (l : string) (v : Z) :
  extendedValue l = Some v -> 0 <= v < 65536.
Proof.
  unfold extendedValue. destruct (startsWithColon l); [|discriminate].
  destruct (parseHexByte l 7) as [t|]; [|discriminate].
  destruct (parseHexWord l 9) as [w|] eqn:Hw; [|discriminate].
  destruct (t =? 4); [|discriminate]. intros H. injection H as <-.
  now apply parseHexWord_range in Hw.
Qed.

(** ** (extendedLinearAddress << 16) | address *)

Lemma lor_shiftl_16 (E a : Z) :
  0 <= E -> 0 <= a < 65536 -> Z.lor (Z.shiftl E 16) a = E * 65536 + a.
Proof.
  intros HE Ha.
  assert (Hland : Z.land (Z.shiftl E 16) a = 0).
  { apply Z.bits_inj'. intros n Hn. rewrite Z.land_spec, Z.bits_0.
    destruct (Z.lt_ge_cases n 16) as [Hlt|Hge].
    - now rewrite Z.shiftl_spec_low by lia.
    - destruct (Z.eq_dec a 0) as [->|Hne]; [rewrite Z.bits_0; apply andb_false_r|].
      rewrite (Z.bits_above_log2 a n); [apply andb_false_r | lia |].
      apply Z.lt_le_trans with 16; [|lia].
      apply Z.log2_lt_pow2; [lia|]. change (2 ^ 16) with 65536. lia. }
  rewrite <- Z.lxor_lor by exact Hland.
  rewrite <- Z.add_nocarry_lxor by exact Hland.
  rewrite Z.shiftl_mul_pow2 by lia. reflexivity.
Qed.

(** ** Storing the payload of a data record *)

Lemma storeData_other (line : string) (base : Z) : forall count i m m' key,
  storeData line base i count m = Ok m' ->
  (forall k : nat, (i <= k < i + count)%nat -> key <> wrap32 (base + Z.of_nat k)) ->
  m' !! key = m !! key.
Proof.
  induction count as [|count IH]; intros i m m' key H Hkey.
  - cbn [storeData] in H. now injection H as <-.
  - cbn [storeData] in H.
    destruct (parseHexByte line (9 + i * 2)) as [b|e]; cbn [bind] in H; [|discriminate].
    rewrite (IH _ _ _ key H) by (intros k Hk; apply Hkey; lia).
    apply lookup_insert_ne. intros E. apply (Hkey i); [lia | now symmetry].
Qed.

Lemma storeData_lookup (line : string) (base : Z) : forall count i m m',
  Z.of_nat i + Z.of_nat count <= 4294967296 ->
  storeData line base i count m = Ok m' ->
  forall k : nat, (i <= k < i + count)%nat ->
    exists b, parseHexByte line (9 + k * 2) = Ok b
              /\ m' !! wrap32 (base + Z.of_nat k) = Some b.
Proof.
  induction count as [|count IH]; intros i m m' Hb H k Hk; [lia|].
  cbn [storeData] in H.
  destruct (parseHexByte line (9 + i * 2)) as [b|e] eqn:Hp; cbn [bind] in H;
    [|discriminate].
  destruct (decide (k = i)) as [->|Hne].
  - exists b. split; [exact Hp|].
    rewrite (storeData_other _ _ _ _ _ _ _ H).
    + apply lookup_insert_eq.
    + intros j Hj E. apply wrap32_add_inj in E; lia.
  - apply (IH (S i) _ m' ltac:(lia) H). lia.
Qed.

Lemma storeBytes_storeData (line : string) (base : Z) : forall count i m,
  storeBytes line base i count m = storeData line base i count m.
Proof.
  induction count as [|count IH]; intros i m; [reflexivity|].
  cbn [storeBytes storeData]. rewrite hexByte_parseHexByte.
  destruct (parseHexByte line (9 + i * 2)); cbn [bind]; [apply IH | reflexivity].
Qed.

(** ** The two builders keep the most recent extended address *)

Lemma parseIntelHexLine_ext (E : Z) (m : gmap Z Z) (l : string)
    (E' : Z) (m' : gmap Z Z) :
  parseIntelHexLine (E, m) l = Ok (Next (E', m')) ->
  E' = match extendedValue l with Some v => v | None => E end.
Proof.
  unfold parseIntelHexLine, extendedValue.
  destruct (isEmpty l || negb (startsWithColon l)) eqn:Hskip.
  - intros H. injection H as <- <-.
    destruct l as [|c s]; [reflexivity|].
    cbn [isEmpty orb] in Hskip. apply negb_true_iff in Hskip.
    now rewrite Hskip.
  - apply orb_false_iff in Hskip as [_ Hc]. apply negb_false_iff in Hc.
    rewrite Hc.
    destruct (parseHexByte l 1) as [bc|]; cbn [bind]; [|absurd_result].
    destruct (parseHexWord l 3) as [a|]; cbn [bind]; [|absurd_result].
    destruct (parseHexByte l 7) as [t|]; cbn [bind]; [|absurd_result].
    destruct (Z.eqb_spec t 0) as [->|H0].
    + destruct (storeData l (absoluteAddress E a) 0 (Z.to_nat bc) m);
        cbn [bind]; [|absurd_result].
      intros H. injection H as <- <-. now destruct (parseHexWord l 9).
    + destruct (Z.eqb_spec t 4) as [->|H4].
      * destruct (parseHexWord l 9) as [v|]; cbn [bind]; [|absurd_result].
        intros H. now injection H as <- <-.
      * destruct (t =? 1); [absurd_result|]. intros H. injection H as <- <-.
        now destruct (parseHexWord l 9).
Qed.

Lemma parseIntelHexToMapLine_ext (E : Z) (m : gmap Z Z) (l : string)
    (E' : Z) (m' : gmap Z Z) :
  parseIntelHexToMapLine (E, m) l = Ok (Next (E', m')) ->
  E' = match extendedValue (rtrim l) with Some v => v | None => E end.
Proof.
  unfold parseIntelHexToMapLine, extendedValue.
  destruct (isEmpty (rtrim l)) eqn:Hemp.
  - intros H. injection H as <- <-. now destruct (rtrim l).
  - destruct (startsWithColon (rtrim l)); cbn [negb]; [|absurd_result].
    destruct (negb (allHexChars (dropFirst (rtrim l)))); [absurd_result|].
    destruct (String.length (rtrim l) <? 11)%nat; [absurd_result|].
    change hexByte with parseHexByte.
    destruct (parseHexByte (rtrim l) 1) as [bc|]; cbn [bind]; [|absurd_result].
    destruct (parseHexWord (rtrim l) 3) as [a|]; cbn [bind]; [|absurd_result].
    destruct (parseHexByte (rtrim l) 7) as [t|]; cbn [bind]; [|absurd_result].
    destruct (negb (Z.of_nat (String.length (rtrim l)) =? 1 + 2 * (bc + 5)));
      [absurd_result|].
    destruct (validateLineChecksum (rtrim l)) as [ok|]; cbn [bind]; [|absurd_result].
    destruct (negb ok); [absurd_result|].
    destruct (Z.eqb_spec t 0) as [->|H0].
    + destruct (storeBytes (rtrim l) (absoluteAddress E a) 0 (Z.to_nat bc) m);
        cbn [bind]; [|absurd_result].
      intros H. injection H as <- <-. now destruct (parseHexWord (rtrim l) 9).
    + destruct (Z.eqb_spec t 4) as [->|H4].
      * destruct (negb (bc =? 2)); [absurd_result|].
        destruct (parseHexWord (rtrim l) 9) as [v|]; cbn [bind]; [|absurd_result].
        intros H. now injection H as <- <-.
      * destruct (t =? 1); [absurd_result|]. intros H. injection H as <- <-.
        now destruct (parseHexWord (rtrim l) 9).
Qed.

Lemma parseIntelHexLine_data (E : Z) (m : gmap Z Z) (line : string)
    (byteCount address16 : Z) (r : flow (Z * gmap Z Z) (gmap Z Z)) :
  startsWithColon line = true ->
  parseHexByte line 1 = Ok byteCount ->
  parseHexWord line 3 = Ok address16 ->
  parseHexByte line 7 = Ok 0 ->
  parseIntelHexLine (E, m) line = Ok r ->
  exists m', r = Next (E, m')
             /\ storeData line (absoluteAddress E address16) 0
                  (Z.to_nat byteCount) m = Ok m'.
Proof.
  intros Hc Hbc Ha Ht. unfold parseIntelHexLine.
  assert (Hskip : isEmpty line || negb (startsWithColon line) = false)
    by (destruct line; [discriminate | now rewrite Hc]).
  rewrite Hskip, Hbc, Ha, Ht. cbn [bind Z.eqb].
  destruct (storeData line (absoluteAddress E address16) 0 (Z.to_nat byteCount) m)
    as [m'|]; cbn [bind]; [|absurd_result].
  intros H. injection H as <-. now exists m'.
Qed.

Lemma parseIntelHexToMapLine_data (E : Z) (m : gmap Z Z) (rawLine : string)
    (byteCount address16 : Z) (E' : Z) (m' : gmap Z Z) :
  hexByte (rtrim rawLine) 1 = Ok byteCount ->
  parseHexWord (rtrim rawLine) 3 = Ok address16 ->
  hexByte (rtrim rawLine) 7 = Ok 0 ->
  parseIntelHexToMapLine (E, m) rawLine = Ok (Next (E', m')) ->
  E' = E
  /\ storeData (rtrim rawLine) (absoluteAddress E address16) 0
       (Z.to_nat byteCount) m = Ok m'.
Proof.
  intros Hbc Ha Ht. unfold parseIntelHexToMapLine.
  change hexByte with parseHexByte in *.
  destruct (isEmpty (rtrim rawLine)) eqn:Hemp.
  - revert Hbc Hemp.
    destruct (rtrim rawLine); intros Hbc Hemp; [discriminate Hbc | discriminate Hemp].
  - destruct (negb (startsWithColon (rtrim rawLine))); [absurd_result|].
    destruct (negb (allHexChars (dropFirst (rtrim rawLine)))); [absurd_result|].
    destruct (String.length (rtrim rawLine) <? 11)%nat; [absurd_result|].
    rewrite Hbc, Ha, Ht. cbn [bind Z.eqb].
    destruct (negb (Z.of_nat (String.length (rtrim rawLine))
                    =? 1 + 2 * (byteCount + 5))); [absurd_result|].
    destruct (validateLineChecksum (rtrim rawLine)) as [ok|]; cbn [bind];
      [|absurd_result].
    destruct (negb ok); [absurd_result|].
    rewrite storeBytes_storeData.
    destruct (storeData (rtrim rawLine) (absoluteAddress E address16) 0
                (Z.to_nat byteCount) m) as [m1|]; cbn [bind]; [|absurd_result].
    intros H. injection H as <- <-. now split.
Qed.

Lemma storeData_payloadStoredAt (line : string) (E address16 byteCount : Z)
    (m m' : gmap Z Z) :
  0 <= E < 65536 -> 0 <= byteCount < 256 ->
  storeData line (absoluteAddress E address16) 0 (Z.to_nat byteCount) m = Ok m' ->
  payloadStoredAt line E address16 byteCount m'.
Proof.
  intros HE Hbc H i Hi.
  assert (Hbase : absoluteAddress E address16 = Z.lor (Z.shiftl E 16) address16).
  { unfold absoluteAddress. rewrite wrap32_small; [reflexivity|].
    rewrite Z.shiftl_mul_pow2 by lia. change (2 ^ 16) with 65536. lia. }
  rewrite <- Hbase.
  apply (storeData_lookup line _ (Z.to_nat byteCount) 0 m m'); [lia | exact H | lia].
Qed.

(** C5.  Both builders store payload byte [i] of a data record at the
    address [((E << 16) | address16) + i], where [E] is the 16-bit value of
    the most recent type-0x04 record among the lines folded before it and 0
    if there is none; the sum is a uint32_t sum and [(E << 16) | address16]
    is [E * 65536 + address16].  Under the state 0x0001 the byte is at
    [0x00010000 + address16 + i]. *)
Theorem data_record_bytes_at_extended_address :
  (forall (before : list string) (line : string) (E byteCount address16 : Z)
          (flashData flashData' : gmap Z Z),
     whileLines parseIntelHexLine before (0, ∅) = Ok (Next (E, flashData)) ->
     startsWithColon line = true ->
     parseHexByte line 1 = Ok byteCount ->
     parseHexWord line 3 = Ok address16 ->
     parseHexByte line 7 = Ok 0 ->
     parseIntelHexLine (E, flashData) line = Ok (Next (E, flashData')) ->
     mostRecentExt extendedValue 0 before E
     /\ Z.lor (Z.shiftl E 16) address16 = E * 65536 + address16
     /\ payloadStoredAt line E address16 byteCount flashData'
     /\ (E = 0x0001 ->
         forall i : nat, Z.of_nat i < byteCount ->
           exists b, parseHexByte line (9 + i * 2) = Ok b
                     /\ flashData' !! (0x00010000 + address16 + Z.of_nat i) = Some b))
  /\ (forall (before : list string) (rawLine : string) (E byteCount address16 : Z)
             (mem mem' : gmap Z Z),
        whileLines parseIntelHexToMapLine before (0, ∅) = Ok (Next (E, mem)) ->
        hexByte (rtrim rawLine) 1 = Ok byteCount ->
        parseHexWord (rtrim rawLine) 3 = Ok address16 ->
        hexByte (rtrim rawLine) 7 = Ok 0 ->
        parseIntelHexToMapLine (E, mem) rawLine = Ok (Next (E, mem')) ->
        mostRecentExt (fun l => extendedValue (rtrim l)) 0 before E
        /\ Z.lor (Z.shiftl E 16) address16 = E * 65536 + address16
        /\ payloadStoredAt (rtrim rawLine) E address16 byteCount mem'
        /\ (E = 0x0001 ->
            forall i : nat, Z.of_nat i < byteCount ->
              exists b, hexByte (rtrim rawLine) (9 + i * 2) = Ok b
                        /\ mem' !! (0x00010000 + address16 + Z.of_nat i) = Some b)).
Proof.
  assert (Hone : forall line address16 byteCount m,
             0 <= address16 < 65536 -> 0 <= byteCount < 256 ->
             payloadStoredAt line 1 address16 byteCount m ->
             forall i : nat, Z.of_nat i < byteCount ->
               exists b, parseHexByte line (9 + i * 2) = Ok b
                         /\ m !! (0x00010000 + address16 + Z.of_nat i) = Some b).
  { intros line a bc m Ha Hbc Hst i Hi. destruct (Hst i Hi) as (b & Hb & Hl).
    exists b. split; [exact Hb|].
    rewrite lor_shiftl_16, wrap32_small in Hl by lia. exact Hl. }
  split.
  - intros before line E bc a m m' Hrun Hc Hbc Ha Ht Hstep.
    pose proof (whileLines_mostRecentExt parseIntelHexLine extendedValue
                  parseIntelHexLine_ext before _ _ _ _ Hrun) as Hmr.
    pose proof (mostRecentExt_range _ _ _ extendedValue_range Hmr) as HE.
    pose proof (parseHexWord_range _ _ _ Ha) as Har.
    pose proof (parseHexByte_range _ _ _ Hbc) as Hbr.
    destruct (parseIntelHexLine_data E m line bc a _ Hc Hbc Ha Ht Hstep)
      as (m1 & Hm1 & Hstore).
    injection Hm1 as <-.
    pose proof (storeData_payloadStoredAt _ _ _ _ _ _ HE Hbr Hstore) as Hst.
    split; [exact Hmr|]. split; [apply lor_shiftl_16; lia|].
    split; [exact Hst|]. intros ->. now apply Hone.
  - intros before rawLine E bc a m m' Hrun Hbc Ha Ht Hstep.
    pose proof (whileLines_mostRecentExt parseIntelHexToMapLine
                  (fun l => extendedValue (rtrim l))
                  parseIntelHexToMapLine_ext before _ _ _ _ Hrun) as Hmr.
    pose proof (mostRecentExt_range _ _ _
                  (fun l v => extendedValue_range (rtrim l) v) Hmr) as HE.
    pose proof (parseHexWord_range _ _ _ Ha) as Har.
    pose proof (parseHexByte_range _ _ _ Hbc) as Hbr.
    destruct (parseIntelHexToMapLine_data E m rawLine bc a _ _ Hbc Ha Ht Hstep)
      as (_ & Hstore).
    pose proof (storeData_payloadStoredAt _ _ _ _ _ _ HE Hbr Hstore) as Hst.
    split; [exact Hmr|]. split; [apply lor_shiftl_16; lia|].
    split; [exact Hst|]. intros ->. now apply Hone.
Qed.

Lemma data_record_bytes_at_extended_address_witness :
  (exists flashData flashData',
     whileLines parseIntelHexLine [":020000040001F9"%string] (0, ∅)
       = Ok (Next (0x0001, flashData))
     /\ parseIntelHexLine (0x0001, flashData) ":01123400AB0E"
        = Ok (Next (0x0001, flashData'))
     /\ payloadStoredAt ":01123400AB0E" 0x0001 0x1234 1 flashData')
  /\ (exists mem mem',
        whileLines parseIntelHexToMapLine [":020000040001F9"%string] (0, ∅)
          = Ok (Next (0x0001, mem))
        /\ parseIntelHexToMapLine (0x0001, mem) ":01123400AB0E"
           = Ok (Next (0x0001, mem'))
        /\ payloadStoredAt (rtrim ":01123400AB0E") 0x0001 0x1234 1 mem').
Proof.
  split.
  - exists ∅, (<[0x00011234 := 0xAB]> ∅).
    split; [reflexivity|]. split; [reflexivity|].
    apply (proj1 data_record_bytes_at_extended_address
             [":020000040001F9"%string] ":01123400AB0E"%string 0x0001 1 0x1234
             ∅ (<[0x00011234 := 0xAB]> ∅)); reflexivity.
  - exists ∅, (<[0x00011234 := 0xAB]> ∅).
    split; [reflexivity|]. split; [reflexivity|].
    apply (proj2 data_record_bytes_at_extended_address
             [":020000040001F9"%string] ":01123400AB0E"%string 0x0001 1 0x1234
             ∅ (<[0x00011234 := 0xAB]> ∅)); reflexivity.
Defined.

(** ** Lines that are no records *)

Lemma trimSuffix_first (drop : ascii -> bool) (c : ascii) (s : string) :
  isEmpty (trimSuffix drop (String c s)) = false ->
  exists t, trimSuffix drop (String c s) = String c t.
Proof.
  cbn [trimSuffix].
  destruct (isEmpty (trimSuffix drop s) && drop c); [discriminate|].
  intros _. now eexists.
Qed.

Lemma rtrim_startsWithColon (line : string) :
  isEmpty (rtrim line) = false ->
  startsWithColon (rtrim line) = startsWithColon line.
Proof.
  unfold rtrim. destruct line as [|c s]; [discriminate|]. intros H.
  destruct (trimSuffix_first _ c s H) as (t & ->). reflexivity.
Qed.

(** C8 as stated fails: parseIntelHexToMap, the builder behind
    extractBootloaderVersionFromHex, returns false at a line that is not
    empty and does not start with a colon; the version of a file is found
    without such a line and not found with it. *)
Lemma nonrecord_line_fails_parseIntelHexToMap :
  isEmpty (rtrim "# bootloader") = false
  /\ startsWithColon "# bootloader" = false
  /\ parseIntelHexToMapLine (0, ∅) "# bootloader" = Ok (Done (false, ∅))
  /\ extractBootloaderVersionFromHex (singleFile fileWithSignature)
       "firmware.hex" 0 0 = Ok (true, 0x06, 0x68)
  /\ extractBootloaderVersionFromHex (singleFile fileWithComment)
       "firmware.hex" 0 0 = Ok (false, 0, 0).
Proof. repeat split; vm_compute; reflexivity. Qed.

(** C8, amended.  A line that is not empty after trimming and does not start
    with a colon is skipped by parseIntelHex, the builder behind
    calculateFlashPagesUsed, which goes on with the next line in the same
    state; parseIntelHexToMap, the builder behind
    extractBootloaderVersionFromHex, returns false at it with the map as it
    is, and skips only the lines that are empty after trimming. *)
Theorem nonrecord_line_skipped_or_rejected (line : string)
    (rest : list string) (st : Z * gmap Z Z) :
  isEmpty (rtrim line) = false -> startsWithColon line = false ->
  parseIntelHexLine st line = Ok (Next st)
  /\ whileLines parseIntelHexLine (line :: rest) st
     = whileLines parseIntelHexLine rest st
  /\ parseIntelHexToMapLine st line = Ok (Done (false, snd st))
  /\ whileLines parseIntelHexToMapLine (line :: rest) st
     = Ok (Done (false, snd st))
  /\ (forall blank, isEmpty (rtrim blank) = true ->
        whileLines parseIntelHexToMapLine (blank :: rest) st
        = whileLines parseIntelHexToMapLine rest st).
Proof.
  intros Hne Hc. destruct st as [E m].
  assert (H1 : parseIntelHexLine (E, m) line = Ok (Next (E, m))).
  { unfold parseIntelHexLine. now rewrite Hc, orb_true_r. }
  assert (H2 : parseIntelHexToMapLine (E, m) line = Ok (Done (false, m))).
  { unfold parseIntelHexToMapLine.
    now rewrite Hne, (rtrim_startsWithColon line Hne), Hc. }
  split; [exact H1|]. split; [cbn [whileLines]; now rewrite H1|].
  split; [exact H2|]. split; [cbn [whileLines]; now rewrite H2|].
  intros blank Hb. cbn [whileLines]. unfold parseIntelHexToMapLine at 1.
  now rewrite Hb.
Qed.

Lemma nonrecord_line_skipped_or_rejected_witness :
  isEmpty (rtrim "# bootloader") = false
  /\ startsWithColon "# bootloader" = false
  /\ parseIntelHexLine (0, ∅) "# bootloader" = Ok (Next (0, ∅)).
Proof.
  split; [reflexivity|]. split; [reflexivity|].
  apply (nonrecord_line_skipped_or_rejected "# bootloader" [] (0, ∅));
    reflexivity.
Defined.

(** ** When calculateFlashPagesUsed throws *)

Lemma storeData_throws (line : string) (base : Z) : forall count i m,
  throws (storeData line base i count m) = throws (payloadBytes line i count).
Proof.
  induction count as [|count IH]; intros i m; [reflexivity|].
  cbn [storeData payloadBytes].
  destruct (parseHexByte line (9 + i * 2)) as [b|e]; cbn [bind]; [|reflexivity].
  rewrite IH. now destruct (payloadBytes line (S i) count).
Qed.

Lemma parseIntelHexLine_outcome (st : Z * gmap Z Z) (line : string) :
  match parseIntelHexLine st line with
  | Throw _ => lineFails line = true
  | Ok (Done _) => lineFails line = false /\ isEofRecord line = true
  | Ok (Next _) => lineFails line = false /\ isEofRecord line = false
  end.
Proof.
  destruct st as [E m]. unfold parseIntelHexLine, lineFails, isEofRecord.
  destruct line as [|c s]; [now split|].
  cbn [isEmpty orb]. destruct (startsWithColon (String c s)); cbn [negb andb];
    [|now split].
  destruct (parseHexByte (String c s) 1) as [bc|]; cbn [bind]; [|reflexivity].
  destruct (parseHexWord (String c s) 3) as [a|]; cbn [bind]; [|reflexivity].
  destruct (parseHexByte (String c s) 7) as [t|]; cbn [bind]; [|reflexivity].
  destruct (Z.eqb_spec t 0) as [->|H0].
  - pose proof (storeData_throws (String c s) (absoluteAddress E a)
                  (Z.to_nat bc) 0 m) as Hth.
    destruct (storeData (String c s) (absoluteAddress E a) 0 (Z.to_nat bc) m);
      cbn [bind throws] in *; [now split | now symmetry].
  - destruct (Z.eqb_spec t 4) as [->|H4].
    + destruct (parseHexWord (String c s) 9); cbn [bind throws]; now try split.
    + destruct (Z.eqb_spec t 1); now split.
Qed.

Lemma whileLines_parseIntelHex_throws (lines : list string) :
  forall st, throws (whileLines parseIntelHexLine lines st) = parseFails lines.
Proof.
  induction lines as [|line rest IH]; intros st; [reflexivity|].
  cbn [whileLines parseFails].
  pose proof (parseIntelHexLine_outcome st line) as H.
  destruct (parseIntelHexLine st line) as [[st'|x]|e]; cbn [bind].
  - destruct H as [-> ->]. apply IH.
  - destruct H as [-> ->]. reflexivity.
  - now rewrite H.
Qed.

Lemma parseIntelHexLines_throws (lines : list string) :
  throws (parseIntelHexLines lines) = parseFails lines.
Proof.
  unfold parseIntelHexLines.
  rewrite <- (whileLines_parseIntelHex_throws lines (0, ∅)).
  destruct (whileLines parseIntelHexLine lines (0, ∅)) as [[[E m]|m]|e];
    reflexivity.
Qed.

(** C1 as stated fails: a file with a data record and no end-of-file record
    is read to its end and a page count is returned. *)
Lemma missing_eof_returns_page_count :
  existsb isEofRecord (getlines fileWithoutEof) = false
  /\ calculateFlashPagesUsed (singleFile fileWithoutEof) "firmware.hex" 2048
     = Ok 1.
Proof. split; vm_compute; reflexivity. Qed.

(** C1, amended.  For a positive page size, calculateFlashPagesUsed throws
    exactly when the file cannot be opened or a line that starts with a
    colon and comes before the first end-of-file record has a field that
    cannot be decoded, and returns a page count otherwise; a file without
    end-of-file record whose lines decode is such a file. *)
Theorem calculateFlashPagesUsed_throws_iff (fs : filesystem)
    (hexFilename : string) (flashPageSize : Z) :
  0 < flashPageSize ->
  (throws (calculateFlashPagesUsed fs hexFilename flashPageSize) = true
   <-> fs hexFilename = None
       \/ exists content, fs hexFilename = Some content
                          /\ parseFails (getlines content) = true)
  /\ (fs hexFilename = None ->
      calculateFlashPagesUsed fs hexFilename flashPageSize
      = Throw (runtime_error ("Failed to open file: " ++ hexFilename)%string))
  /\ (forall content,
        fs hexFilename = Some content ->
        parseFails (getlines content) = false ->
        exists flashData,
          parseIntelHex fs hexFilename = Ok flashData
          /\ calculateFlashPagesUsed fs hexFilename flashPageSize
             = Ok (computePagesUsed flashData flashPageSize))
  /\ (forall content,
        fs hexFilename = Some content ->
        forallb (fun l => negb (lineFails l)) (getlines content) = true ->
        parseFails (getlines content) = false).
Proof.
  intros _.
  assert (Hth : throws (calculateFlashPagesUsed fs hexFilename flashPageSize)
                = throws (parseIntelHex fs hexFilename)).
  { unfold calculateFlashPagesUsed. now destruct (parseIntelHex fs hexFilename). }
  split; [|split; [|split]].
  - rewrite Hth. unfold parseIntelHex.
    destruct (fs hexFilename) as [content|] eqn:Hfs.
    + rewrite parseIntelHexLines_throws. split.
      * intros H. right. now exists content.
      * intros [H|(c & Hc & H)]; [discriminate|]. now injection Hc as ->.
    + split; [now left | reflexivity].
  - intros Hfs. unfold calculateFlashPagesUsed, parseIntelHex. now rewrite Hfs.
  - intros content Hfs Hok. unfold calculateFlashPagesUsed, parseIntelHex.
    rewrite Hfs. rewrite <- parseIntelHexLines_throws in Hok.
    destruct (parseIntelHexLines (getlines content)) as [m|e]; [|discriminate].
    now exists m.
  - intros content _. induction (getlines content) as [|l ls IH]; [reflexivity|].
    cbn [forallb parseFails]. intros H. apply andb_true_iff in H as [Hl Hls].
    apply negb_true_iff in Hl. rewrite Hl.
    destruct (isEofRecord l); [reflexivity | now apply IH].
Qed.

Lemma calculateFlashPagesUsed_throws_iff_witness :
  0 < 2048
  /\ singleFile fileWithoutEof "firmware.hex"%string = Some fileWithoutEof
  /\ parseFails (getlines fileWithoutEof) = false
  /\ exists flashData,
       parseIntelHex (singleFile fileWithoutEof) "firmware.hex" = Ok flashData
       /\ calculateFlashPagesUsed (singleFile fileWithoutEof) "firmware.hex" 2048
          = Ok (computePagesUsed flashData 2048).
Proof.
  split; [reflexivity|]. split; [reflexivity|]. split; [reflexivity|].
  apply (proj1 (proj2 (proj2 (calculateFlashPagesUsed_throws_iff
                                (singleFile fileWithoutEof) "firmware.hex" 2048
                                eq_refl)))
           fileWithoutEof); reflexivity.
Defined.

(** ** validateLine on the decoded fields *)

Lemma hexLine_checks (line : string) :
  hexLine line = true ->
  isEmpty line || negb (startsWithColon line) = false
  /\ negb (allHexChars (dropFirst line)) = false.
Proof.
  unfold hexLine. intros H. apply andb_true_iff in H as [Hc Hh].
  rewrite Hc, Hh. destruct line; [discriminate | now split].
Qed.

Lemma lineChecksOk_inv (line : string) :
  lineChecksOk line = true ->
  recordShape line = true /\ hexLine line = true
  /\ (11 <= String.length line)%nat
  /\ Z.of_nat (String.length line) = 11 + 2 * byteAt line 1
  /\ validateLineChecksum line = Ok true
  /\ byteAt line 7 <= 5.
Proof.
  unfold lineChecksOk. intros H.
  apply andb_true_iff in H as [H Ht]. apply andb_true_iff in H as [Hs Hsum].
  assert (Hs' := Hs). unfold recordShape in Hs'.
  apply andb_true_iff in Hs' as [Hs' Hlen]. apply andb_true_iff in Hs' as [Hh Hmin].
  apply Nat.leb_le in Hmin. apply Z.eqb_eq in Hlen. apply Z.leb_le in Ht.
  repeat split; try assumption.
  destruct (validateLineChecksum line) as [[]|]; [reflexivity | discriminate | discriminate].
Qed.

Lemma validateLine_checks_ok (st : vstate) (rawLine : string) :
  lineChecksOk (trimTrailing rawLine) = true ->
  validateLine st rawLine = recordChecks st (trimTrailing rawLine).
Proof.
  intros H. unfold validateLine, recordChecks. cbv zeta.
  set (line := trimTrailing rawLine) in *.
  destruct (lineChecksOk_inv line H) as (_ & Hh & Hmin & Hlen & Hsum & Ht).
  destruct (hexLine_checks line Hh) as [-> ->].
  destruct (Nat.ltb_spec (String.length line) 11) as [|_]; [lia|].
  rewrite (parseHexByte_line line 1) by (try assumption; lia). cbn [bind].
  rewrite (parseHexWord_line line 3) by (try assumption; lia). cbn [bind].
  rewrite (parseHexByte_line line 7) by (try assumption; lia). cbn [bind].
  replace (Z.of_nat (String.length line) =? 9 + byteAt line 1 * 2 + 2) with true
    by (symmetry; apply Z.eqb_eq; lia).
  cbn [negb]. rewrite Hsum. cbn [bind negb].
  destruct (Z.ltb_spec 5 (byteAt line 7)) as [|_]; [lia|].
  destruct ((byteAt line 7 =? 1) && eofSeen st); [reflexivity|].
  destruct (byteAt line 7 =? 0); [reflexivity|].
  destruct (byteAt line 7 =? 4); [|reflexivity].
  rewrite (parseHexWord_line line 9) by (try assumption; lia). reflexivity.
Qed.

Lemma validateLine_checks_fail (st : vstate) (rawLine : string) :
  lineChecksOk (trimTrailing rawLine) = false ->
  exists message,
    validateLine st rawLine = Ok (Done message)
    /\ hasPrefix "Overlapping" message = false.
Proof.
  intros H. unfold validateLine. cbv zeta.
  set (line := trimTrailing rawLine) in *.
  destruct (isEmpty line || negb (startsWithColon line)) eqn:H1;
    [eexists; split; reflexivity|].
  destruct (negb (allHexChars (dropFirst line))) eqn:H2;
    [eexists; split; reflexivity|].
  destruct (Nat.ltb_spec (String.length line) 11) as [|Hmin];
    [eexists; split; reflexivity|].
  assert (Hh : hexLine line = true).
  { unfold hexLine. apply orb_false_iff in H1 as [_ H1].
    apply negb_false_iff in H1, H2. now rewrite H1, H2. }
  rewrite (parseHexByte_line line 1) by (try assumption; lia). cbn [bind].
  rewrite (parseHexWord_line line 3) by (try assumption; lia). cbn [bind].
  rewrite (parseHexByte_line line 7) by (try assumption; lia). cbn [bind].
  destruct (Z.eqb_spec (Z.of_nat (String.length line)) (9 + byteAt line 1 * 2 + 2))
    as [Hlen|]; cbn [negb]; [|eexists; split; reflexivity].
  assert (Hs : recordShape line = true).
  { unfold recordShape. rewrite Hh. cbn [andb].
    apply andb_true_iff. split; [apply Nat.leb_le; lia | apply Z.eqb_eq; lia]. }
  rewrite (validateLineChecksum_sum line Hs). cbn [bind].
  destruct (wrap8 (sumBytes line 1 (5 + Z.to_nat (byteAt line 1))) =? 0) eqn:Hsum;
    cbn [negb]; [|eexists; split; reflexivity].
  destruct (Z.ltb_spec 5 (byteAt line 7)) as [|Ht]; [eexists; split; reflexivity|].
  exfalso. unfold lineChecksOk in H.
  rewrite Hs, (validateLineChecksum_sum line Hs), Hsum in H. cbn [andb] in H.
  apply Z.leb_gt in H. lia.
Qed.

(* validateLine never throws. *)
Lemma validateLine_total (st : vstate) (rawLine : string) :
  exists r, validateLine st rawLine = Ok r.
Proof.
  destruct (lineChecksOk (trimTrailing rawLine)) eqn:H.
  - rewrite (validateLine_checks_ok st rawLine H). unfold recordChecks. cbv zeta.
    destruct ((byteAt (trimTrailing rawLine) 7 =? 1) && eofSeen st); [now eexists|].
    destruct (byteAt (trimTrailing rawLine) 7 =? 0).
    + destruct (checkOverlap _ _ _ _); now eexists.
    + destruct (byteAt (trimTrailing rawLine) 7 =? 4); now eexists.
  - destruct (validateLine_checks_fail st rawLine H) as (msg & -> & _). now eexists.
Qed.

Lemma whileLines_validateLine_total (lines : list string) :
  forall st, exists r, whileLines validateLine lines st = Ok r.
Proof.
  induction lines as [|l rest IH]; intros st; [now eexists|].
  cbn [whileLines]. destruct (validateLine_total st l) as ([st'|msg] & ->);
    cbn [bind]; [apply IH | now eexists].
Qed.

(** C10.  validateHexFile never throws, and when it returns true errorOut
    holds what it held at entry: a message is assigned only together with
    the result false. *)
Theorem validateHexFile_true_keeps_errorOut (fs : filesystem)
    (hexFilename errorOut : string) :
  validateHexFile fs hexFilename errorOut = Ok (true, errorOut)
  \/ exists message, validateHexFile fs hexFilename errorOut = Ok (false, message).
Proof.
  unfold validateHexFile. destruct (fs hexFilename) as [content|].
  - unfold validateLines.
    destruct (whileLines_validateLine_total (getlines content) vstateInit)
      as ([st|msg] & ->); cbn [bind].
    + destruct (eofSeen st); cbn [negb]; [now left | right; now eexists].
    + right. now eexists.
  - right. now eexists.
Qed.

(** ** parseIntelHexToMap never throws *)

Lemma storeData_total (line : string) (base : Z) : forall count i m,
  hexLine line = true ->
  (9 + 2 * i + 2 * count < String.length line)%nat ->
  exists m', storeData line base i count m = Ok m'.
Proof.
  induction count as [|count IH]; intros i m Hh Hlen; [now eexists|].
  cbn [storeData].
  rewrite parseHexByte_line by (try assumption; lia). cbn [bind].
  apply IH; [assumption | lia].
Qed.

Lemma parseIntelHexToMapLine_total (st : Z * gmap Z Z) (rawLine : string) :
  exists r, parseIntelHexToMapLine st rawLine = Ok r.
Proof.
  destruct st as [E m]. unfold parseIntelHexToMapLine. cbv zeta.
  change hexByte with parseHexByte.
  set (line := rtrim rawLine).
  destruct (isEmpty line) eqn:H0; [now eexists|].
  destruct (negb (startsWithColon line)) eqn:H1; [now eexists|].
  destruct (negb (allHexChars (dropFirst line))) eqn:H2; [now eexists|].
  destruct (Nat.ltb_spec (String.length line) 11) as [|Hmin]; [now eexists|].
  assert (Hh : hexLine line = true).
  { unfold hexLine. apply negb_false_iff in H1, H2. now rewrite H1, H2. }
  rewrite (parseHexByte_line line 1) by (try assumption; lia). cbn [bind].
  rewrite (parseHexWord_line line 3) by (try assumption; lia). cbn [bind].
  rewrite (parseHexByte_line line 7) by (try assumption; lia). cbn [bind].
  destruct (Z.eqb_spec (Z.of_nat (String.length line)) (1 + 2 * (byteAt line 1 + 5)))
    as [Hlen|]; cbn [negb]; [|now eexists].
  assert (Hs : recordShape line = true).
  { unfold recordShape. rewrite Hh. cbn [andb].
    apply andb_true_iff. split; [apply Nat.leb_le; lia | apply Z.eqb_eq; lia]. }
  rewrite (validateLineChecksum_sum line Hs). cbn [bind].
  destruct (negb (wrap8 (sumBytes line 1 (5 + Z.to_nat (byteAt line 1))) =? 0));
    [now eexists|].
  pose proof (byteAt_range line 1) as Hbc.
  destruct (byteAt line 7 =? 0).
  - rewrite storeBytes_storeData.
    destruct (storeData_total line (absoluteAddress E (wordAt line 3))
                (Z.to_nat (byteAt line 1)) 0 m Hh ltac:(lia)) as (m' & ->).
    now eexists.
  - destruct (byteAt line 7 =? 4).
    + destruct (negb (byteAt line 1 =? 2)); [now eexists|].
      rewrite (parseHexWord_line line 9) by (try assumption; lia). now eexists.
    + destruct (byteAt line 7 =? 1); now eexists.
Qed.

Lemma parseIntelHexToMap_total (fs : filesystem) (path : string)
    (mem : gmap Z Z) :
  exists r, parseIntelHexToMap fs path mem = Ok r.
Proof.
  unfold parseIntelHexToMap. destruct (fs path) as [content|]; [|now eexists].
  unfold parseIntelHexToMapLines.
  assert (H : forall lines st,
            exists r, whileLines parseIntelHexToMapLine lines st = Ok r).
  { induction lines as [|l rest IH]; intros st; [now eexists|].
    cbn [whileLines].
    destruct (parseIntelHexToMapLine_total st l) as ([st'|x] & ->); cbn [bind];
      [apply IH | now eexists]. }
  destruct (H (getlines content) (0, mem)) as ([[E m]|x] & ->); cbn [bind];
    now eexists.
Qed.

Lemma extractVersionFromImage_frame (mem : gmap Z Z) (major minor : Z) :
  extractVersionFromImage mem major minor = (false, major, minor)
  \/ exists vMajor vMinor,
       extractVersionFromImage mem major minor = (true, vMajor, vMinor).
Proof.
  unfold extractVersionFromImage.
  destruct (findPatternAddress mem kBootSig kBootSigLen 0) as [[] sigAddr];
    cbn [negb]; [|now left].
  destruct (mem !! wrap32 (sigAddr + wrap32 (Z.of_nat kBootSigLen))); [|now left].
  destruct (mem !! wrap32 (wrap32 (sigAddr + wrap32 (Z.of_nat kBootSigLen)) + 1));
    [right; now eexists _, _ | now left].
Qed.

(** C9.  extractBootloaderVersionFromHex never throws, and whenever it
    returns false (the file cannot be opened or parsed, the signature is not
    found or a version byte is missing) major and minor hold what they held
    at entry: they are assigned only together with the result true. *)
Theorem extract_false_keeps_major_minor (fs : filesystem) (hexPath : string)
    (major minor : Z) :
  extractBootloaderVersionFromHex fs hexPath major minor
  = Ok (false, major, minor)
  \/ exists vMajor vMinor,
       extractBootloaderVersionFromHex fs hexPath major minor
       = Ok (true, vMajor, vMinor).
Proof.
  unfold extractBootloaderVersionFromHex.
  destruct (parseIntelHexToMap_total fs hexPath ∅) as ([ok mem] & ->).
  cbn [bind fst snd]. destruct ok; cbn [negb]; [|now left].
  destruct (extractVersionFromImage_frame mem major minor) as [->|(a & b & ->)];
    [now left | right; now eexists _, _].
Qed.

(** ** The overlap check of one data record *)

Lemma addressesFrom_cons (base : Z) (i count : nat) :
  addressesFrom base i (S count)
  = wrap32 (base + Z.of_nat i) :: addressesFrom base (S i) count.
Proof. reflexivity. Qed.

Lemma addressesFrom_In (base : Z) (i count : nat) (a : Z) :
  In a (addressesFrom base i count)
  <-> exists k : nat, (i <= k < i + count)%nat /\ a = wrap32 (base + Z.of_nat k).
Proof.
  unfold addressesFrom. rewrite in_map_iff. split.
  - intros (k & <- & Hk). apply in_seq in Hk. now exists k.
  - intros (k & Hk & ->). exists k. split; [reflexivity | now apply in_seq].
Qed.

Lemma addressesFrom_NoDup (base : Z) (i count : nat) :
  Z.of_nat i + Z.of_nat count <= 4294967296 ->
  List.NoDup (addressesFrom base i count).
Proof.
  revert i. induction count as [|count IH]; intros i Hb; [constructor|].
  rewrite addressesFrom_cons. constructor; [|apply IH; lia].
  intros Hin. apply addressesFrom_In in Hin as (k & Hk & E).
  apply wrap32_add_inj in E; lia.
Qed.

Lemma checkOverlap_inl (base : Z) : forall count i W W',
  checkOverlap base i count W = inl W' ->
  W' = W ∪ list_to_set (addressesFrom base i count)
  /\ forall a, In a (addressesFrom base i count) -> a ∉ W.
Proof.
  induction count as [|count IH]; intros i W W' H.
  - cbn [checkOverlap] in H. injection H as <-.
    split; [cbn; set_solver | intros a []].
  - cbn [checkOverlap] in H. rewrite addressesFrom_cons.
    destruct (bool_decide (wrap32 (base + Z.of_nat i) ∈ W)) eqn:Hd; [discriminate|].
    apply bool_decide_eq_false in Hd.
    destruct (IH _ _ _ H) as [-> Hno]. split.
    + cbn [list_to_set]. set_solver.
    + intros a [<-|Hin]; [exact Hd|]. specialize (Hno a Hin). set_solver.
Qed.

Lemma checkOverlap_inr (base : Z) : forall count i W a,
  Z.of_nat i + Z.of_nat count <= 4294967296 ->
  checkOverlap base i count W = inr a ->
  a ∈ W /\ In a (addressesFrom base i count).
Proof.
  induction count as [|count IH]; intros i W a Hb H.
  - discriminate.
  - cbn [checkOverlap] in H. rewrite addressesFrom_cons.
    destruct (bool_decide (wrap32 (base + Z.of_nat i) ∈ W)) eqn:Hd.
    + injection H as <-. apply bool_decide_eq_true in Hd. split; [exact Hd | now left].
    + destruct (IH (S i) _ a ltac:(lia) H) as [HW Hin]. split; [|now right].
      apply elem_of_union in HW as [HW|HW]; [|exact HW].
      apply elem_of_singleton in HW. subst a.
      apply addressesFrom_In in Hin as (k & Hk & E).
      apply wrap32_add_inj in E; lia.
Qed.

Lemma checkOverlap_disjoint (base : Z) : forall count i W,
  Z.of_nat i + Z.of_nat count <= 4294967296 ->
  (forall a, In a (addressesFrom base i count) -> a ∉ W) ->
  checkOverlap base i count W
  = inl (W ∪ list_to_set (addressesFrom base i count)).
Proof.
  intros count i W Hb Hno.
  destruct (checkOverlap base i count W) as [W'|a] eqn:H.
  - now destruct (checkOverlap_inl _ _ _ _ _ H) as [-> _].
  - destruct (checkOverlap_inr _ _ _ _ _ Hb H) as [HW Hin].
    now destruct (Hno a Hin).
Qed.

Lemma recordAddresses_from (ext : Z) (line : string) :
  recordAddresses ext line
  = addressesFrom (absoluteAddress ext (wordAt line 3)) 0 (Z.to_nat (byteAt line 1)).
Proof. reflexivity. Qed.

Lemma recordAddresses_bound (line : string) :
  Z.of_nat 0 + Z.of_nat (Z.to_nat (byteAt line 1)) <= 4294967296.
Proof. pose proof (byteAt_range line 1). lia. Qed.

(** ** One line of the validator, by record type *)

Lemma isEofRecord_ok (line : string) :
  lineChecksOk line = true -> isEofRecord line = (byteAt line 7 =? 1).
Proof.
  intros H. destruct (lineChecksOk_inv line H) as (_ & Hh & Hmin & _).
  unfold isEofRecord. rewrite (parseHexByte_line line 7) by (try assumption; lia).
  unfold hexLine in Hh. apply andb_true_iff in Hh as [-> _]. reflexivity.
Qed.

Lemma countEof_cons (l : string) (rest : list string) :
  countEof (l :: rest)
  = ((if isEofRecord (trimTrailing l) then 1 else 0) + countEof rest)%nat.
Proof.
  unfold countEof. cbn [List.filter].
  now destruct (isEofRecord (trimTrailing l)).
Qed.

(* What a line whose checks pass does to the state. *)
Lemma recordChecks_Next (st st' : vstate) (line : string) :
  recordChecks st line = Ok (Next st') ->
  eofSeen st' = eofSeen st || (byteAt line 7 =? 1)
  /\ (byteAt line 7 =? 1) && eofSeen st = false
  /\ extAddr st' = (if byteAt line 7 =? 0 then extAddr st
                    else if byteAt line 7 =? 4 then wordAt line 9
                    else extAddr st)
  /\ (if byteAt line 7 =? 0 then
        writtenAddresses st'
        = writtenAddresses st ∪ list_to_set (recordAddresses (extAddr st) line)
        /\ forall a, In a (recordAddresses (extAddr st) line) ->
                     a ∉ writtenAddresses st
      else writtenAddresses st' = writtenAddresses st).
Proof.
  unfold recordChecks. cbv zeta.
  destruct ((byteAt line 7 =? 1) && eofSeen st) eqn:Heof; [discriminate|].
  assert (Hseen : (if byteAt line 7 =? 1 then true else eofSeen st)
                  = eofSeen st || (byteAt line 7 =? 1))
    by (destruct (byteAt line 7 =? 1), (eofSeen st); reflexivity).
  rewrite Hseen.
  destruct (byteAt line 7 =? 0) eqn:H0.
  - destruct (checkOverlap _ _ _ _) as [W'|a] eqn:Hc; [|discriminate].
    intros H. injection H as <-. cbn [eofSeen extAddr writtenAddresses].
    apply checkOverlap_inl in Hc as [-> Hno]. repeat split; assumption.
  - destruct (byteAt line 7 =? 4); intros H; injection H as <-;
      cbn [eofSeen extAddr writtenAddresses]; repeat split.
Qed.

Lemma validateLine_Next (st st' : vstate) (rawLine : string) :
  validateLine st rawLine = Ok (Next st') ->
  lineChecksOk (trimTrailing rawLine) = true
  /\ recordChecks st (trimTrailing rawLine) = Ok (Next st').
Proof.
  intros H. destruct (lineChecksOk (trimTrailing rawLine)) eqn:Hok.
  - split; [reflexivity|]. now rewrite <- (validateLine_checks_ok st rawLine Hok).
  - destruct (validateLine_checks_fail st rawLine Hok) as (msg & Hm & _).
    rewrite Hm in H. discriminate.
Qed.

(** ** A file that is accepted writes no address twice *)

Lemma accepted_writes_NoDup (lines : list string) : forall st st',
  whileLines validateLine lines st = Ok (Next st') ->
  forallb (fun l => lineChecksOk (trimTrailing l)) lines = true
  /\ List.NoDup (allWrites (extAddr st) lines)
  /\ (forall a, In a (allWrites (extAddr st) lines) -> a ∉ writtenAddresses st)
  /\ writtenAddresses st'
     = writtenAddresses st ∪ list_to_set (allWrites (extAddr st) lines).
Proof.
  induction lines as [|l rest IH]; intros st st' H.
  - cbn [whileLines] in H. injection H as <-.
    repeat split; [constructor | intros a [] | cbn; set_solver].
  - apply whileLines_cons_Next in H as (st1 & Hl & Hrest).
    apply validateLine_Next in Hl as [Hok Hrec].
    apply recordChecks_Next in Hrec as (_ & _ & Hext & HW).
    destruct (IH _ _ Hrest) as (Hoks & Hnd & Hno & HW').
    cbn [forallb allWrites]. rewrite Hok, Hoks. split; [reflexivity|].
    rewrite Hext in Hnd, Hno, HW'.
    destruct (byteAt (trimTrailing l) 7 =? 0).
    + destruct HW as [HW1 Hfresh]. rewrite HW1 in Hno, HW'.
      split; [|split].
      * apply NoDup_ListNoDup, NoDup_app. split; [|split].
        -- apply NoDup_ListNoDup. rewrite recordAddresses_from.
           apply addressesFrom_NoDup, recordAddresses_bound.
        -- intros a Ha Hb. apply list_elem_of_In in Ha, Hb.
           specialize (Hno a Hb). apply Hno. apply elem_of_union. right.
           apply elem_of_list_to_set. now apply list_elem_of_In.
        -- now apply NoDup_ListNoDup.
      * intros a Ha. apply in_app_or in Ha as [Ha|Ha]; [now apply Hfresh|].
        specialize (Hno a Ha). set_solver.
      * rewrite HW', list_to_set_app_L. set_solver.
    + rewrite HW in Hno, HW'.
      destruct (byteAt (trimTrailing l) 7 =? 4); repeat split; assumption.
Qed.

(** ** Upper-case hexadecimal rendering *)

Lemma hexUpperDigits_chars (u : Hexadecimal.uint) :
  allChars isUpperHexChar (hexUpperDigits u) = true.
Proof. induction u; cbn [hexUpperDigits allChars]; try rewrite IHu; reflexivity. Qed.

Lemma hexUpperDigits_acc (u : Hexadecimal.uint) : forall acc : positive,
  digitsValue (hexUpperDigits u) (Z.pos acc) = Z.pos (Pos.of_hex_uint_acc u acc).
Proof.
  induction u; intros acc; cbn [hexUpperDigits Pos.of_hex_uint_acc];
    [reflexivity | ..];
    cbn [digitsValue]; cbv [hexDigitValue code N_of_ascii]; cbn;
    rewrite <- IHu; f_equal; lia.
Qed.

Lemma hexUpperDigits_value (u : Hexadecimal.uint) :
  digitsValue (hexUpperDigits u) 0 = Z.of_N (Pos.of_hex_uint u).
Proof.
  induction u; cbn [hexUpperDigits Pos.of_hex_uint];
    [reflexivity | ..];
    cbn [digitsValue]; cbv [hexDigitValue code N_of_ascii]; cbn;
    try exact IHu;
    cbn [Z.of_N]; rewrite <- hexUpperDigits_acc; reflexivity.
Qed.

Lemma toHexUpper_value (a : Z) : 0 <= a -> digitsValue (toHexUpper a) 0 = a.
Proof.
  intros Ha. unfold toHexUpper. rewrite hexUpperDigits_value.
  change (Pos.of_hex_uint (N.to_hex_uint (Z.to_N a)))
    with (N.of_hex_uint (N.to_hex_uint (Z.to_N a))).
  rewrite HexadecimalN.Unsigned.of_to. lia.
Qed.

Lemma toHexUpper_chars (a : Z) : allChars isUpperHexChar (toHexUpper a) = true.
Proof. apply hexUpperDigits_chars. Qed.

(** ** The overlap error names an address that is written twice *)

Lemma occursTwice_app_r (a : Z) (l1 l2 : list Z) :
  occursTwice a l2 -> occursTwice a (l1 ++ l2).
Proof.
  intros (x & y & z & ->). exists (l1 ++ x), y, z. now rewrite <- app_assoc.
Qed.

Lemma occursTwice_both (a : Z) (l1 l2 : list Z) :
  In a l1 -> In a l2 -> occursTwice a (l1 ++ l2).
Proof.
  intros H1 H2. apply in_split in H1 as (x1 & x2 & ->).
  apply in_split in H2 as (y1 & y2 & ->).
  exists x1, (x2 ++ y1), y2. rewrite <- !app_assoc. reflexivity.
Qed.

Lemma allWrites_range (lines : list string) : forall ext a,
  In a (allWrites ext lines) -> 0 <= a < 4294967296.
Proof.
  induction lines as [|l rest IH]; intros ext a H; [destruct H|].
  cbn [allWrites] in H. destruct (byteAt (trimTrailing l) 7 =? 0).
  - apply in_app_or in H as [H|H]; [|now apply (IH ext)].
    unfold recordAddresses in H. apply in_map_iff in H as (k & <- & _).
    apply wrap32_range.
  - destruct (byteAt (trimTrailing l) 7 =? 4); now apply IH in H.
Qed.

Lemma recordChecks_Done (st : vstate) (line message : string) :
  recordChecks st line = Ok (Done message) ->
  hasPrefix "Overlapping" message = true ->
  exists a,
    message = ("Overlapping data at address 0x" ++ toHexUpper a)%string
    /\ (byteAt line 7 =? 0) = true
    /\ a ∈ writtenAddresses st
    /\ In a (recordAddresses (extAddr st) line).
Proof.
  unfold recordChecks. cbv zeta.
  destruct ((byteAt line 7 =? 1) && eofSeen st).
  - intros H. injection H as <-. discriminate.
  - destruct (byteAt line 7 =? 0).
    + destruct (checkOverlap _ _ _ _) as [W'|a] eqn:Hc; [discriminate|].
      intros H _. injection H as <-. exists a.
      apply checkOverlap_inr in Hc as [HW Hin]; [|apply recordAddresses_bound].
      repeat split; assumption.
    + destruct (byteAt line 7 =? 4); discriminate.
Qed.

Lemma overlap_message (lines : list string) : forall st message,
  whileLines validateLine lines st = Ok (Done message) ->
  hasPrefix "Overlapping" message = true ->
  exists a,
    message = ("Overlapping data at address 0x" ++ toHexUpper a)%string
    /\ In a (allWrites (extAddr st) lines)
    /\ (a ∈ writtenAddresses st
        \/ occursTwice a (allWrites (extAddr st) lines)).
Proof.
  induction lines as [|l rest IH]; intros st message H Hp; [discriminate|].
  cbn [whileLines] in H.
  destruct (lineChecksOk (trimTrailing l)) eqn:Hok.
  - rewrite (validateLine_checks_ok st l Hok) in H.
    destruct (recordChecks st (trimTrailing l)) as [[st1|m]|e] eqn:Hrec;
      cbn [bind] in H; [| |discriminate].
    + apply recordChecks_Next in Hrec as (_ & _ & Hext & HW).
      destruct (IH _ _ H Hp) as (a & Hm & Hin & Htw). exists a.
      split; [exact Hm|]. cbn [allWrites]. rewrite Hext in Hin, Htw.
      destruct (byteAt (trimTrailing l) 7 =? 0).
      * destruct HW as [HW _]. rewrite HW in Htw.
        split; [apply in_or_app; now right|].
        destruct Htw as [Htw|Htw]; [|right; now apply occursTwice_app_r].
        apply elem_of_union in Htw as [Htw|Htw]; [now left|].
        right. apply occursTwice_both; [|exact Hin].
        apply list_elem_of_In. now apply elem_of_list_to_set in Htw.
      * rewrite HW in Htw.
        destruct (byteAt (trimTrailing l) 7 =? 4); now split.
    + injection H as ->.
      destruct (recordChecks_Done _ _ _ Hrec Hp) as (a & Hm & H0 & HW & Hin).
      exists a. split; [exact Hm|]. cbn [allWrites]. rewrite H0.
      split; [apply in_or_app; now left | now left].
  - destruct (validateLine_checks_fail st l Hok) as (m & Hm & Hno).
    rewrite Hm in H. cbn [bind] in H. injection H as <-. congruence.
Qed.

(* When every line passes the line-level checks and there are not two
   end-of-file records, the only error left is the overlap error. *)
Lemma checked_lines_outcome (lines : list string) : forall st,
  forallb (fun l => lineChecksOk (trimTrailing l)) lines = true ->
  (countEof lines + (if eofSeen st then 1 else 0) <= 1)%nat ->
  match whileLines validateLine lines st with
  | Ok (Next _) => True
  | Ok (Done message) => hasPrefix "Overlapping" message = true
  | Throw _ => False
  end.
Proof.
  induction lines as [|l rest IH]; intros st Hok Hn; [exact I|].
  cbn [forallb] in Hok. apply andb_true_iff in Hok as [Hl Hrest].
  rewrite countEof_cons, (isEofRecord_ok _ Hl) in Hn.
  cbn [whileLines]. rewrite (validateLine_checks_ok st l Hl).
  destruct (recordChecks st (trimTrailing l)) as [[st1|m]|e] eqn:Hrec;
    cbn [bind].
  - apply IH; [exact Hrest|].
    apply recordChecks_Next in Hrec as (Hseen & _ & _ & _). rewrite Hseen.
    destruct (byteAt (trimTrailing l) 7 =? 1), (eofSeen st); cbn [orb] in *; lia.
  - unfold recordChecks in Hrec. cbv zeta in Hrec.
    destruct ((byteAt (trimTrailing l) 7 =? 1) && eofSeen st) eqn:Heof.
    + apply andb_true_iff in Heof as [H1 H2]. rewrite H1, H2 in Hn. lia.
    + destruct (byteAt (trimTrailing l) 7 =? 0).
      * destruct (checkOverlap _ _ _ _); [discriminate|].
        injection Hrec as <-. reflexivity.
      * destruct (byteAt (trimTrailing l) 7 =? 4); discriminate.
  - unfold recordChecks in Hrec. cbv zeta in Hrec.
    destruct ((byteAt (trimTrailing l) 7 =? 1) && eofSeen st); [discriminate|].
    destruct (byteAt (trimTrailing l) 7 =? 0).
    + destruct (checkOverlap _ _ _ _); discriminate.
    + destruct (byteAt (trimTrailing l) 7 =? 4); discriminate.
Qed.

(** C6.  A file whose data records together write some address twice is
    rejected, whatever the bytes are.  When the validator reports an
    overlap, the message is "Overlapping data at address 0x" followed by an
    address that the data records write twice, in upper-case hexadecimal
    digits that read back as that address; it does report the overlap when
    no line fails a line-level check and there are not two end-of-file
    records.  One record alone writes no address twice. *)
Theorem overlapping_writes_rejected (fs : filesystem)
    (hexFilename content errorOut : string) :
  fs hexFilename = Some content ->
  (~ List.NoDup (allWrites 0 (getlines content)) ->
   exists message,
     validateHexFile fs hexFilename errorOut = Ok (false, message))
  /\ (forall message,
        validateHexFile fs hexFilename errorOut = Ok (false, message) ->
        hasPrefix "Overlapping" message = true ->
        exists a,
          message = ("Overlapping data at address 0x" ++ toHexUpper a)%string
          /\ occursTwice a (allWrites 0 (getlines content))
          /\ 0 <= a < 4294967296
          /\ allChars isUpperHexChar (toHexUpper a) = true
          /\ digitsValue (toHexUpper a) 0 = a)
  /\ (~ List.NoDup (allWrites 0 (getlines content)) ->
      forallb (fun l => lineChecksOk (trimTrailing l)) (getlines content) = true ->
      (countEof (getlines content) <= 1)%nat ->
      exists a,
        validateHexFile fs hexFilename errorOut
        = Ok (false, ("Overlapping data at address 0x" ++ toHexUpper a)%string)
        /\ occursTwice a (allWrites 0 (getlines content)))
  /\ (forall ext line, List.NoDup (recordAddresses ext line)).
Proof.
  intros Hfs. unfold validateHexFile. rewrite Hfs. unfold validateLines.
  assert (Hmsg : forall message,
            whileLines validateLine (getlines content) vstateInit
            = Ok (Done message) ->
            hasPrefix "Overlapping" message = true ->
            exists a,
              message = ("Overlapping data at address 0x" ++ toHexUpper a)%string
              /\ occursTwice a (allWrites 0 (getlines content))
              /\ 0 <= a < 4294967296).
  { intros message Hrun Hp.
    destruct (overlap_message _ _ _ Hrun Hp) as (a & Hm & Hin & Htw).
    exists a. split; [exact Hm|].
    cbn [vstateInit extAddr writtenAddresses] in Hin, Htw.
    destruct Htw as [Htw|Htw]; [now apply not_elem_of_empty in Htw|].
    split; [exact Htw | exact (allWrites_range _ _ _ Hin)]. }
  split; [|split; [|split]].
  - intros Hdup.
    destruct (whileLines_validateLine_total (getlines content) vstateInit)
      as ([st|msg] & Hrun); rewrite Hrun; cbn [bind]; [|now eexists].
    apply accepted_writes_NoDup in Hrun as (_ & Hnd & _). now destruct Hdup.
  - intros message H Hp.
    destruct (whileLines validateLine (getlines content) vstateInit)
      as [[st|msg]|e] eqn:Hrun; cbn [bind] in H; [| |discriminate].
    + destruct (eofSeen st); cbn [negb] in H; [discriminate|].
      injection H as <-. discriminate.
    + injection H as ->.
      destruct (Hmsg _ eq_refl Hp) as (a & Hm & Htw & Hr).
      exists a. repeat split; try assumption; try lia.
      * apply toHexUpper_chars.
      * apply toHexUpper_value. lia.
  - intros Hdup Hok Hn.
    pose proof (checked_lines_outcome (getlines content) vstateInit Hok) as Hout.
    cbn [vstateInit eofSeen] in Hout. specialize (Hout ltac:(lia)).
    destruct (whileLines validateLine (getlines content) vstateInit)
      as [[st|msg]|e] eqn:Hrun; [| |destruct Hout].
    + apply accepted_writes_NoDup in Hrun as (_ & Hnd & _). now destruct Hdup.
    + destruct (Hmsg _ eq_refl Hout) as (a & -> & Htw & _).
      exists a. split; [reflexivity | exact Htw].
  - intros ext line. rewrite recordAddresses_from.
    apply addressesFrom_NoDup, recordAddresses_bound.
Qed.

Lemma overlapping_writes_rejected_witness :
  singleFile fileWithOverlap "firmware.hex"%string = Some fileWithOverlap
  /\ validateHexFile (singleFile fileWithOverlap) "firmware.hex" ""
     = Ok (false, "Overlapping data at address 0x0"%string)
  /\ exists a,
       "Overlapping data at address 0x0"%string
       = ("Overlapping data at address 0x" ++ toHexUpper a)%string
       /\ occursTwice a (allWrites 0 (getlines fileWithOverlap))
       /\ 0 <= a < 4294967296
       /\ allChars isUpperHexChar (toHexUpper a) = true
       /\ digitsValue (toHexUpper a) 0 = a.
Proof.
  split; [reflexivity|]. split; [vm_compute; reflexivity|].
  apply (proj1 (proj2 (overlapping_writes_rejected (singleFile fileWithOverlap)
                         "firmware.hex" fileWithOverlap "" eq_refl)));
    vm_compute; reflexivity.
Defined.

(** ** The number of end-of-file records decides the verdict *)

Lemma recordChecks_forward (st : vstate) (line : string) :
  (byteAt line 7 =? 1) && eofSeen st = false ->
  ((byteAt line 7 =? 0) = true ->
   forall a, In a (recordAddresses (extAddr st) line) -> a ∉ writtenAddresses st) ->
  exists st', recordChecks st line = Ok (Next st').
Proof.
  intros Heof Hfresh. unfold recordChecks. cbv zeta. rewrite Heof.
  destruct (byteAt line 7 =? 0).
  - rewrite checkOverlap_disjoint;
      [now eexists | apply recordAddresses_bound | now apply Hfresh].
  - destruct (byteAt line 7 =? 4); now eexists.
Qed.

Lemma recordChecks_second_eof (st : vstate) (line : string) :
  (byteAt line 7 =? 1) && eofSeen st = true ->
  recordChecks st line = Ok (Done "Multiple EOF records detected."%string).
Proof. intros H. unfold recordChecks. cbv zeta. now rewrite H. Qed.

Lemma eof_count_verdict (lines : list string) : forall st,
  forallb (fun l => lineChecksOk (trimTrailing l)) lines = true ->
  List.NoDup (allWrites (extAddr st) lines) ->
  (forall a, In a (allWrites (extAddr st) lines) -> a ∉ writtenAddresses st) ->
  ((countEof lines + (if eofSeen st then 1 else 0) <= 1)%nat ->
   exists st', whileLines validateLine lines st = Ok (Next st')
               /\ eofSeen st'
                  = (0 <? countEof lines + (if eofSeen st then 1 else 0))%nat)
  /\ ((2 <= countEof lines + (if eofSeen st then 1 else 0))%nat ->
      whileLines validateLine lines st
      = Ok (Done "Multiple EOF records detected."%string)).
Proof.
  induction lines as [|l rest IH]; intros st Hok Hnd Hfresh.
  - cbn [whileLines countEof List.filter length Nat.add]. split.
    + intros _. exists st. split; [reflexivity|]. now destruct (eofSeen st).
    + destruct (eofSeen st); lia.
  - cbn [forallb] in Hok. apply andb_true_iff in Hok as [Hl Hrest].
    rewrite countEof_cons, (isEofRecord_ok _ Hl).
    cbn [whileLines]. rewrite (validateLine_checks_ok st l Hl).
    set (line := trimTrailing l) in *. cbn [allWrites] in Hnd, Hfresh.
    fold line in Hnd, Hfresh.
    destruct ((byteAt line 7 =? 1) && eofSeen st) eqn:Heof.
    + rewrite (recordChecks_second_eof st line Heof). cbn [bind].
      apply andb_true_iff in Heof as [-> ->]. split; [lia | reflexivity].
    + destruct (recordChecks_forward st line Heof) as (st1 & Hrec).
      { intros H0 a Ha. apply Hfresh. rewrite H0. apply in_or_app. now left. }
      rewrite Hrec. cbn [bind].
      apply recordChecks_Next in Hrec as (Hseen & _ & Hext & HW).
      assert (Hn : ((if (byteAt line 7 =? 1)%Z then 1 else 0) + countEof rest
                    + (if eofSeen st then 1 else 0)
                    = countEof rest + (if eofSeen st1 then 1 else 0))%nat).
      { rewrite Hseen. destruct (byteAt line 7 =? 1), (eofSeen st);
          try discriminate; cbn [orb]; lia. }
      rewrite Hn. apply IH; [exact Hrest | |]; rewrite Hext.
      * destruct (byteAt line 7 =? 0).
        -- apply NoDup_ListNoDup in Hnd. apply NoDup_app in Hnd as (_ & _ & Hnd).
           now apply NoDup_ListNoDup.
        -- now destruct (byteAt line 7 =? 4).
      * destruct (byteAt line 7 =? 0).
        -- destruct HW as [-> _]. intros a Ha.
           apply NoDup_ListNoDup in Hnd. apply NoDup_app in Hnd as (_ & Hdis & _).
           assert (a ∉ writtenAddresses st)
             by (apply Hfresh, in_or_app; now right).
           assert (a ∉ recordAddresses (extAddr st) line)
             by (intros Hin; apply (Hdis a Hin); now apply list_elem_of_In).
           rewrite elem_of_union, elem_of_list_to_set. tauto.
        -- rewrite HW. now destruct (byteAt line 7 =? 4).
Qed.

(** C7 as stated fails: every line of the file passes the line-level checks
    and there is no end-of-file record, but the second data record writes
    address 0 again and the validator reports the overlap at that line, not
    the missing end-of-file record. *)
Lemma overlap_reported_before_missing_eof :
  forallb (fun l => lineChecksOk (trimTrailing l)) (getlines fileWithOverlap)
  = true
  /\ countEof (getlines fileWithOverlap) = 0%nat
  /\ validateHexFile (singleFile fileWithOverlap) "firmware.hex" ""
     = Ok (false, "Overlapping data at address 0x0"%string)
  /\ validateHexFile (singleFile fileWithOverlap) "firmware.hex" ""
     <> Ok (false, "Missing EOF record."%string).
Proof.
  split; [vm_compute; reflexivity|]. split; [vm_compute; reflexivity|].
  assert (H : validateHexFile (singleFile fileWithOverlap) "firmware.hex" ""
              = Ok (false, "Overlapping data at address 0x0"%string))
    by (vm_compute; reflexivity).
  split; [exact H|]. rewrite H. discriminate.
Qed.

(** C7, amended.  For a file whose lines all pass the line-level checks and
    whose data records write no address twice: without end-of-file record
    the validator returns false with the missing-EOF message, after all
    lines; with exactly one it returns true; with two or more it returns
    false with the multiple-EOF message, whatever lines follow the file; so
    it accepts exactly the files with exactly one end-of-file record. *)
Theorem eof_cardinality (fs : filesystem)
    (hexFilename content errorOut : string) :
  fs hexFilename = Some content ->
  forallb (fun l => lineChecksOk (trimTrailing l)) (getlines content) = true ->
  List.NoDup (allWrites 0 (getlines content)) ->
  (countEof (getlines content) = 0%nat ->
   validateHexFile fs hexFilename errorOut
   = Ok (false, "Missing EOF record."%string))
  /\ (countEof (getlines content) = 1%nat ->
      validateHexFile fs hexFilename errorOut = Ok (true, errorOut))
  /\ ((2 <= countEof (getlines content))%nat ->
      forall following,
        validateLines (getlines content ++ following) errorOut
        = Ok (false, "Multiple EOF records detected."%string))
  /\ ((2 <= countEof (getlines content))%nat ->
      validateHexFile fs hexFilename errorOut
      = Ok (false, "Multiple EOF records detected."%string))
  /\ ((exists finalError,
         validateHexFile fs hexFilename errorOut = Ok (true, finalError))
      <-> countEof (getlines content) = 1%nat).
Proof.
  intros Hfs Hok Hnd. unfold validateHexFile. rewrite Hfs.
  destruct (eof_count_verdict (getlines content) vstateInit Hok Hnd) as [Hle Hge].
  { intros a _. apply not_elem_of_empty. }
  cbn [vstateInit eofSeen] in Hle, Hge. rewrite Nat.add_0_r in Hle, Hge.
  assert (H0 : countEof (getlines content) = 0%nat ->
               validateLines (getlines content) errorOut
               = Ok (false, "Missing EOF record."%string)).
  { intros Hc. destruct (Hle ltac:(lia)) as (st & Hrun & Hseen).
    unfold validateLines. rewrite Hrun. cbn [bind]. rewrite Hseen, Hc. reflexivity. }
  assert (H1 : countEof (getlines content) = 1%nat ->
               validateLines (getlines content) errorOut = Ok (true, errorOut)).
  { intros Hc. destruct (Hle ltac:(lia)) as (st & Hrun & Hseen).
    unfold validateLines. rewrite Hrun. cbn [bind]. rewrite Hseen, Hc. reflexivity. }
  assert (H2 : (2 <= countEof (getlines content))%nat ->
               forall following,
                 validateLines (getlines content ++ following) errorOut
                 = Ok (false, "Multiple EOF records detected."%string)).
  { intros Hc following. unfold validateLines.
    rewrite whileLines_app, (Hge Hc). reflexivity. }
  split; [exact H0|]. split; [exact H1|]. split; [exact H2|]. split.
  - intros Hc. specialize (H2 Hc []). now rewrite app_nil_r in H2.
  - split.
    + intros (e & He).
      destruct (Nat.lt_trichotomy (countEof (getlines content)) 1) as [Hlt|[Heq|Hgt]].
      * rewrite H0 in He by lia. discriminate.
      * exact Heq.
      * specialize (H2 ltac:(lia) []). rewrite app_nil_r in H2.
        rewrite H2 in He. discriminate.
    + intros Hc. exists errorOut. now apply H1.
Qed.

Lemma eof_cardinality_witness :
  singleFile fileWithSignature "firmware.hex"%string = Some fileWithSignature
  /\ forallb (fun l => lineChecksOk (trimTrailing l)) (getlines fileWithSignature)
     = true
  /\ List.NoDup (allWrites 0 (getlines fileWithSignature))
  /\ countEof (getlines fileWithSignature) = 1%nat
  /\ validateHexFile (singleFile fileWithSignature) "firmware.hex" "unchanged"
     = Ok (true, "unchanged"%string).
Proof.
  assert (Hok : forallb (fun l => lineChecksOk (trimTrailing l))
                  (getlines fileWithSignature) = true)
    by (vm_compute; reflexivity).
  assert (Hnd : List.NoDup (allWrites 0 (getlines fileWithSignature))).
  { apply NoDup_ListNoDup.
    apply (bool_decide_unpack (NoDup (allWrites 0 (getlines fileWithSignature)))).
    vm_compute. exact I. }
  split; [reflexivity|]. split; [exact Hok|]. split; [exact Hnd|].
  split; [vm_compute; reflexivity|].
  apply (proj1 (proj2 (eof_cardinality (singleFile fileWithSignature)
                         "firmware.hex" fileWithSignature "unchanged"
                         eq_refl Hok Hnd))).
  vm_compute. reflexivity.
Defined.

(** ** The images that the builders return hold 32-bit addresses and bytes *)

Lemma wfImage_insert (m : gmap Z Z) (k v : Z) :
  wfImage m = true -> 0 <= k < 4294967296 -> 0 <= v < 256 ->
  wfImage (<[k := v]> m) = true.
Proof.
  intros Hwf Hk Hv. apply wfImage_intro. intros k' v' H.
  destruct (decide (k = k')) as [<-|Hne].
  - rewrite lookup_insert_eq in H. injection H as <-. now split.
  - rewrite lookup_insert_ne in H by exact Hne. now apply (wfImage_lookup m).
Qed.

Lemma storeData_wf (line : string) (base : Z) : forall count i m m',
  wfImage m = true -> storeData line base i count m = Ok m' ->
  wfImage m' = true.
Proof.
  induction count as [|count IH]; intros i m m' Hwf H.
  - cbn [storeData] in H. now injection H as <-.
  - cbn [storeData] in H.
    destruct (parseHexByte line (9 + i * 2)) as [b|] eqn:Hb; cbn [bind] in H;
      [|discriminate].
    apply (IH _ _ _ (wfImage_insert m _ b Hwf (wrap32_range _)
                       (parseHexByte_range _ _ _ Hb)) H).
Qed.

Section LoopInvariant.
Context {S R : Type}.
Variable body : S -> string -> result (flow S R).
Variable inv : S -> Prop.
Variable post : R -> Prop.
Hypothesis body_Next : forall st l st', inv st -> body st l = Ok (Next st') -> inv st'.
Hypothesis body_Done : forall st l x, inv st -> body st l = Ok (Done x) -> post x.

Lemma whileLines_invariant (lines : list string) : forall st,
  inv st ->
  match whileLines body lines st with
  | Ok (Next st') => inv st'
  | Ok (Done x) => post x
  | Throw _ => True
  end.
Proof.
  induction lines as [|l rest IH]; intros st Hst; [exact Hst|].
  cbn [whileLines]. destruct (body st l) as [[st'|x]|e] eqn:Hb; cbn [bind].
  - apply IH. now apply (body_Next st l).
  - now apply (body_Done st l).
  - exact I.
Qed.
End LoopInvariant.

Lemma wfImage_empty : wfImage ∅ = true.
Proof. apply wfImage_intro. intros k v H. now rewrite lookup_empty in H. Qed.

Lemma parseIntelHexLine_wf (st : Z * gmap Z Z) (l : string) :
  wfImage (snd st) = true ->
  match parseIntelHexLine st l with
  | Ok (Next st') => wfImage (snd st') = true
  | Ok (Done m) => wfImage m = true
  | Throw _ => True
  end.
Proof.
  destruct st as [E m]. cbn [snd]. intros Hwf. unfold parseIntelHexLine.
  destruct (isEmpty l || negb (startsWithColon l)); [exact Hwf|].
  destruct (parseHexByte l 1) as [bc|]; cbn [bind]; [|exact I].
  destruct (parseHexWord l 3) as [a|]; cbn [bind]; [|exact I].
  destruct (parseHexByte l 7) as [t|]; cbn [bind]; [|exact I].
  destruct (t =? 0).
  - destruct (storeData l (absoluteAddress E a) 0 (Z.to_nat bc) m) as [m1|] eqn:Hs;
      cbn [bind snd]; [|exact I].
    now apply (storeData_wf _ _ _ _ _ _ Hwf Hs).
  - destruct (t =? 4).
    + destruct (parseHexWord l 9); cbn [bind snd]; [exact Hwf | exact I].
    + destruct (t =? 1); exact Hwf.
Qed.

Lemma parseIntelHexToMapLine_wf (st : Z * gmap Z Z) (l : string) :
  wfImage (snd st) = true ->
  match parseIntelHexToMapLine st l with
  | Ok (Next st') => wfImage (snd st') = true
  | Ok (Done x) => wfImage (snd x) = true
  | Throw _ => True
  end.
Proof.
  destruct st as [E m]. cbn [snd]. intros Hwf. unfold parseIntelHexToMapLine.
  cbv zeta. change hexByte with parseHexByte.
  destruct (isEmpty (rtrim l)); [exact Hwf|].
  destruct (negb (startsWithColon (rtrim l))); [exact Hwf|].
  destruct (negb (allHexChars (dropFirst (rtrim l)))); [exact Hwf|].
  destruct (String.length (rtrim l) <? 11)%nat; [exact Hwf|].
  destruct (parseHexByte (rtrim l) 1) as [bc|]; cbn [bind]; [|exact I].
  destruct (parseHexWord (rtrim l) 3) as [a|]; cbn [bind]; [|exact I].
  destruct (parseHexByte (rtrim l) 7) as [t|]; cbn [bind]; [|exact I].
  destruct (negb (Z.of_nat (String.length (rtrim l)) =? 1 + 2 * (bc + 5)));
    [exact Hwf|].
  destruct (validateLineChecksum (rtrim l)) as [ok|]; cbn [bind]; [|exact I].
  destruct (negb ok); [exact Hwf|].
  destruct (t =? 0).
  - rewrite storeBytes_storeData.
    destruct (storeData (rtrim l) (absoluteAddress E a) 0 (Z.to_nat bc) m)
      as [m1|] eqn:Hs; cbn [bind snd]; [|exact I].
    now apply (storeData_wf _ _ _ _ _ _ Hwf Hs).
  - destruct (t =? 4).
    + destruct (negb (bc =? 2)); [exact Hwf|].
      destruct (parseHexWord (rtrim l) 9); cbn [bind snd]; [exact Hwf | exact I].
    + destruct (t =? 1); exact Hwf.
Qed.

Lemma parseIntelHexLines_wf (lines : list string) (flashData : gmap Z Z) :
  parseIntelHexLines lines = Ok flashData -> wfImage flashData = true.
Proof.
  unfold parseIntelHexLines.
  pose proof (whileLines_invariant parseIntelHexLine
                (fun st => wfImage (snd st) = true)
                (fun m => wfImage m = true)) as Hinv.
  specialize (Hinv
    ltac:(intros st l st' Hwf H; pose proof (parseIntelHexLine_wf st l Hwf) as P;
          now rewrite H in P)
    ltac:(intros st l x Hwf H; pose proof (parseIntelHexLine_wf st l Hwf) as P;
          now rewrite H in P)
    lines (0, ∅) wfImage_empty).
  destruct (whileLines parseIntelHexLine lines (0, ∅)) as [[[E m]|m]|e];
    cbn [bind]; intros H; [| |discriminate]; injection H as <-; exact Hinv.
Qed.

Lemma parseIntelHexToMapLines_wf (lines : list string) (ok : bool)
    (mem : gmap Z Z) :
  parseIntelHexToMapLines lines ∅ = Ok (ok, mem) -> wfImage mem = true.
Proof.
  unfold parseIntelHexToMapLines.
  pose proof (whileLines_invariant parseIntelHexToMapLine
                (fun st => wfImage (snd st) = true)
                (fun x => wfImage (snd x) = true)) as Hinv.
  specialize (Hinv
    ltac:(intros st l st' Hwf H; pose proof (parseIntelHexToMapLine_wf st l Hwf) as P;
          now rewrite H in P)
    ltac:(intros st l x Hwf H; pose proof (parseIntelHexToMapLine_wf st l Hwf) as P;
          now rewrite H in P)
    lines (0, ∅) wfImage_empty).
  destruct (whileLines parseIntelHexToMapLine lines (0, ∅)) as [[[E m]|[b m]]|e];
    cbn [bind]; intros H; [| |discriminate]; injection H as <- <-; exact Hinv.
Qed.

(* The file with the signature, end to end. *)
Example extract_fileWithSignature :
  extractBootloaderVersionFromHex (singleFile fileWithSignature)
    "firmware.hex" 0 0 = Ok (true, 0x06, 0x68).
Proof. vm_compute. reflexivity. Qed.

(* Under the extended linear address 0x0001 a byte for 0x1234 is at 0x11234. *)
Example parseIntelHex_extended :
  parseIntelHexLines [":020000040001F9"%string; ":01123400AB0E"%string;
                      ":00000001FF"%string]
  = Ok (<[0x00011234 := 0xAB]> ∅).
Proof. vm_compute. reflexivity. Qed.

(** ** The analyses on the image of a file *)

(* calculateFlashPagesUsed is computePagesUsed on an image of 32-bit
   addresses and bytes. *)
Corollary calculateFlashPagesUsed_on_image (fs : filesystem)
    (hexFilename : string) (flashPageSize : Z) (flashData : gmap Z Z) :
  parseIntelHex fs hexFilename = Ok flashData ->
  wfImage flashData = true
  /\ calculateFlashPagesUsed fs hexFilename flashPageSize
     = Ok (computePagesUsed flashData flashPageSize).
Proof.
  intros H. split.
  - unfold parseIntelHex in H. destruct (fs hexFilename); [|discriminate].
    now apply (parseIntelHexLines_wf _ _ H).
  - unfold calculateFlashPagesUsed. now rewrite H.
Qed.

(* extractBootloaderVersionFromHex is extractVersionFromImage on the image
   that parseIntelHexToMap builds, an image of 32-bit addresses and bytes. *)
Corollary extractBootloaderVersionFromHex_on_image (fs : filesystem)
    (hexPath : string) (major minor : Z) (mem : gmap Z Z) :
  parseIntelHexToMap fs hexPath ∅ = Ok (true, mem) ->
  wfImage mem = true
  /\ extractBootloaderVersionFromHex fs hexPath major minor
     = Ok (extractVersionFromImage mem major minor).
Proof.
  intros H. split.
  - unfold parseIntelHexToMap in H. destruct (fs hexPath); [|discriminate].
    now apply (parseIntelHexToMapLines_wf _ _ _ H).
  - unfold extractBootloaderVersionFromHex. now rewrite H.
Qed.

(** * Further properties *)

(** ** trimTrailing and rtrim *)

Lemma trimSuffix_split (drop : ascii -> bool) (s : string) :
  exists suffix,
    s = (trimSuffix drop s ++ suffix)%string /\ allChars drop suffix = true.
Proof.
  induction s as [|c s (suffix & Hs & Hall)].
  - exists EmptyString. now split.
  - cbn [trimSuffix].
    destruct (isEmpty (trimSuffix drop s) && drop c) eqn:Hd.
    + apply andb_true_iff in Hd as [He Hc].
      destruct (trimSuffix drop s); [|discriminate].
      change (s = suffix) in Hs.
      exists (String c s). split; [reflexivity|].
      cbn [allChars]. rewrite Hc. now rewrite Hs.
    + exists suffix. split; [|exact Hall].
      change (String c s = String c (trimSuffix drop s ++ suffix)%string).
      f_equal. exact Hs.
Qed.

Lemma trimSuffix_lastChar (drop : ascii -> bool) (s : string) (c : ascii) :
  lastChar (trimSuffix drop s) = Some c -> drop c = false.
Proof.
  revert c. induction s as [|a s IH]; intros c; [discriminate|].
  cbn [trimSuffix].
  destruct (isEmpty (trimSuffix drop s) && drop a) eqn:Hd; [discriminate|].
  cbn [lastChar]. destruct (trimSuffix drop s) as [|b t] eqn:Ht.
  - intros H. injection H as <-. cbn [isEmpty andb] in Hd. exact Hd.
  - apply IH.
Qed.

(* Nothing is trimmed from a string that does not end in a dropped
   character. *)
Lemma trimSuffix_fixed (drop : ascii -> bool) (s : string) :
  (forall c, lastChar s = Some c -> drop c = false) -> trimSuffix drop s = s.
Proof.
  induction s as [|a s IH]; intros H; [reflexivity|].
  cbn [trimSuffix]. destruct s as [|b t].
  - cbn [trimSuffix isEmpty andb]. now rewrite (H a eq_refl).
  - rewrite IH by (intros c Hc; now apply H).
    reflexivity.
Qed.

(* A dropped suffix does not change the result. *)
Lemma trimSuffix_app_dropped (drop : ascii -> bool) (s suffix : string) :
  allChars drop suffix = true ->
  trimSuffix drop (s ++ suffix) = trimSuffix drop s.
Proof.
  intros Hall.
  assert (Hsuf : trimSuffix drop suffix = EmptyString).
  { induction suffix as [|c t IH]; [reflexivity|].
    cbn [allChars] in Hall. apply andb_true_iff in Hall as [Hc Ht].
    cbn [trimSuffix]. now rewrite (IH Ht), Hc. }
  induction s as [|a s IH]; [exact Hsuf|].
  change (String a s ++ suffix)%string with (String a (s ++ suffix)%string).
  cbn [trimSuffix]. now rewrite IH.
Qed.

(** X1.  trimTrailing erases exactly the trailing run of spaces, CRs and
    LFs, and rtrim the trailing run of CRs, LFs, spaces and tabs: the line
    is the result followed by such characters only, the result does not end
    in one, and trimming again changes nothing. *)
Theorem trim_erases_trailing_run (line : string) :
  (exists suffix,
     line = (trimTrailing line ++ suffix)%string
     /\ allChars isTrailingChar suffix = true)
  /\ (forall c, lastChar (trimTrailing line) = Some c -> isTrailingChar c = false)
  /\ trimTrailing (trimTrailing line) = trimTrailing line
  /\ (exists suffix,
        line = (rtrim line ++ suffix)%string
        /\ allChars isRtrimChar suffix = true)
  /\ (forall c, lastChar (rtrim line) = Some c -> isRtrimChar c = false)
  /\ rtrim (rtrim line) = rtrim line
  /\ rtrim (trimTrailing line) = rtrim line.
Proof.
  split; [apply (trimSuffix_split isTrailingChar)|].
  split; [apply (trimSuffix_lastChar isTrailingChar)|].
  split; [apply (trimSuffix_fixed isTrailingChar),
                (trimSuffix_lastChar isTrailingChar)|].
  split; [apply (trimSuffix_split isRtrimChar)|].
  split; [apply (trimSuffix_lastChar isRtrimChar)|].
  split; [apply (trimSuffix_fixed isRtrimChar),
                (trimSuffix_lastChar isRtrimChar)|].
  destruct (trimSuffix_split isTrailingChar line) as (suffix & Hs & Hall).
  change (trimSuffix isTrailingChar line) with (trimTrailing line) in Hs.
  rewrite Hs at 2. symmetry. apply (trimSuffix_app_dropped isRtrimChar).
  clear Hs. induction suffix as [|c t IH]; [reflexivity|].
  cbn [allChars] in *. apply andb_true_iff in Hall as [Hc Ht].
  rewrite (IH Ht), andb_true_r. unfold isTrailingChar in Hc. unfold isRtrimChar.
  destruct (code c =? 32), (code c =? 13), (code c =? 10); try discriminate;
    cbn; try reflexivity; now rewrite ?orb_true_r.
Qed.

(** ** The exceptions of the field decoders *)

Lemma skipSpace_length (s : string) :
  (String.length (skipSpace s) <= String.length s)%nat.
Proof.
  induction s as [|c s IH]; [reflexivity|].
  cbn [skipSpace]. destruct (isspace c); cbn [String.length]; lia.
Qed.

Lemma takeSign_length (s : string) :
  (String.length (snd (takeSign s)) <= String.length s)%nat.
Proof.
  destruct s as [|c s]; [reflexivity|]. cbn [takeSign].
  destruct (code c =? 45); [cbn; lia|].
  destruct (code c =? 43); cbn; lia.
Qed.

Lemma skipPrefix_length (s : string) :
  (String.length (skipPrefix s) <= String.length s)%nat.
Proof.
  destruct s as [|c [|x s]]; try reflexivity. cbn [skipPrefix].
  destruct ((code c =? 48) && ((code x =? 120) || (code x =? 88))
            && startsWithDigit s); cbn [String.length]; lia.
Qed.

(* On at most seven characters std::stoi can only fail for want of a
   digit. *)
Lemma stoi16_short (s : string) :
  (String.length s <= 7)%nat ->
  stoi16 s = Throw invalid_argument
  \/ exists v, stoi16 s = Ok v /\ - 268435456 < v < 268435456.
Proof.
  intros Hlen. unfold stoi16.
  pose proof (skipSpace_length s) as H1.
  pose proof (takeSign_length (skipSpace s)) as H2.
  destruct (takeSign (skipSpace s)) as [neg s2]. cbn [snd] in H2.
  pose proof (skipPrefix_length s2) as H3. cbv zeta.
  destruct (startsWithDigit (skipPrefix s2)); [|now left].
  right.
  pose proof (digitsValue_bound (skipPrefix s2) 0 ltac:(lia)) as Hb.
  assert (H16 : 16 ^ Z.of_nat (String.length (skipPrefix s2)) <= 16 ^ 7)
    by (apply Z.pow_le_mono_r; lia).
  change (16 ^ 7) with 268435456 in H16.
  set (v := if neg then - digitsValue (skipPrefix s2) 0
            else digitsValue (skipPrefix s2) 0).
  assert (Hv : - 268435456 < v < 268435456) by (unfold v; destruct neg; lia).
  exists v. unfold INT_MIN, INT_MAX.
  destruct (Z.leb_spec (-2147483648) v); [|lia].
  destruct (Z.leb_spec v 2147483647); [|lia].
  now split.
Qed.

Lemma stoi16_empty : stoi16 EmptyString = Throw invalid_argument.
Proof. reflexivity. Qed.

Lemma substring_at_end (s : string) (n : nat) :
  substring (String.length s) n s = EmptyString.
Proof.
  induction s as [|c s IH]; [now destruct n|].
  cbn [String.length substring]. exact IH.
Qed.

Lemma parseHexByte_cases (str : string) (pos : nat) :
  ((String.length str < pos)%nat /\ parseHexByte str pos = Throw out_of_range)
  \/ ((pos <= String.length str)%nat
      /\ (parseHexByte str pos = Throw invalid_argument
          \/ exists v, parseHexByte str pos = Ok v /\ 0 <= v < 256)).
Proof.
  unfold parseHexByte, substr.
  destruct (Nat.ltb_spec (String.length str) pos) as [Hlt|Hle];
    [left; now split|].
  right. split; [exact Hle|]. cbn [bind].
  pose proof (substring_length_le str pos 2) as Hl.
  destruct (stoi16_short (substring pos 2 str) ltac:(lia)) as [->|(v & -> & _)];
    cbn [bind]; [now left|].
  right. eexists. split; [reflexivity|]. unfold wrap8.
  apply Z.mod_pos_bound. lia.
Qed.

(** X2.  parseHexByte throws out_of_range exactly when the position lies
    beyond the end of the string; at a position within the string it either
    throws invalid_argument or returns a value from 0 to 255, and at the
    end of the string it throws invalid_argument. *)
Theorem parseHexByte_errors (str : string) (pos : nat) :
  (((String.length str < pos)%nat /\ parseHexByte str pos = Throw out_of_range)
   \/ ((pos <= String.length str)%nat
       /\ (parseHexByte str pos = Throw invalid_argument
           \/ exists v, parseHexByte str pos = Ok v /\ 0 <= v < 256)))
  /\ parseHexByte str (String.length str) = Throw invalid_argument.
Proof.
  split; [apply parseHexByte_cases|].
  unfold parseHexByte, substr.
  rewrite Nat.ltb_irrefl. cbn [bind]. now rewrite substring_at_end.
Qed.

(** ** The exceptions of calculateFlashPagesUsed *)

Lemma parseHexByte_exn (str : string) (pos : nat) (e : exn) :
  parseHexByte str pos = Throw e -> e = invalid_argument \/ e = out_of_range.
Proof.
  intros H.
  destruct (parseHexByte_cases str pos) as [[_ H']|(_ & [H'|(v & H' & _)])];
    rewrite H' in H; [| |discriminate]; injection H as <-; auto.
Qed.

Lemma parseHexWord_exn (str : string) (pos : nat) (e : exn) :
  parseHexWord str pos = Throw e -> e = invalid_argument \/ e = out_of_range.
Proof.
  unfold parseHexWord, substr.
  destruct (String.length str <? pos)%nat; cbn [bind].
  - intros H. injection H as <-. now right.
  - pose proof (substring_length_le str pos 4) as Hl.
    destruct (stoi16_short (substring pos 4 str) ltac:(lia)) as [->|(v & -> & _)];
      cbn [bind]; [|discriminate].
    intros H. injection H as <-. now left.
Qed.

Lemma storeData_exn (line : string) (base : Z) : forall count i m e,
  storeData line base i count m = Throw e ->
  e = invalid_argument \/ e = out_of_range.
Proof.
  induction count as [|count IH]; intros i m e H; [discriminate|].
  cbn [storeData] in H.
  destruct (parseHexByte line (9 + i * 2)) as [b|e'] eqn:Hb; cbn [bind] in H.
  - now apply IH in H.
  - injection H as <-. now apply parseHexByte_exn in Hb.
Qed.

Lemma parseIntelHexLine_exn (st : Z * gmap Z Z) (line : string) (e : exn) :
  parseIntelHexLine st line = Throw e ->
  e = invalid_argument \/ e = out_of_range.
Proof.
  destruct st as [E m]. unfold parseIntelHexLine.
  destruct (isEmpty line || negb (startsWithColon line)); [discriminate|].
  destruct (parseHexByte line 1) as [bc|e1] eqn:H1; cbn [bind];
    [|intros H; injection H as <-; now apply parseHexByte_exn in H1].
  destruct (parseHexWord line 3) as [a|e3] eqn:H3; cbn [bind];
    [|intros H; injection H as <-; now apply parseHexWord_exn in H3].
  destruct (parseHexByte line 7) as [t|e7] eqn:H7; cbn [bind];
    [|intros H; injection H as <-; now apply parseHexByte_exn in H7].
  destruct (t =? 0).
  - destruct (storeData line (absoluteAddress E a) 0 (Z.to_nat bc) m) as [m'|e']
      eqn:Hs; cbn [bind]; [discriminate|].
    intros H. injection H as <-. now apply storeData_exn in Hs.
  - destruct (t =? 4).
    + destruct (parseHexWord line 9) as [v|e9] eqn:H9; cbn [bind]; [discriminate|].
      intros H. injection H as <-. now apply parseHexWord_exn in H9.
    + destruct (t =? 1); discriminate.
Qed.

Lemma parseIntelHexLines_exn (lines : list string) (e : exn) :
  parseIntelHexLines lines = Throw e ->
  e = invalid_argument \/ e = out_of_range.
Proof.
  unfold parseIntelHexLines.
  assert (H : forall st, whileLines parseIntelHexLine lines st = Throw e ->
                         e = invalid_argument \/ e = out_of_range).
  { induction lines as [|l rest IH]; intros st H; [discriminate|].
    cbn [whileLines] in H.
    destruct (parseIntelHexLine st l) as [[st'|x]|e'] eqn:Hl; cbn [bind] in H.
    - now apply IH in H.
    - discriminate.
    - injection H as <-. now apply parseIntelHexLine_exn in Hl. }
  destruct (whileLines parseIntelHexLine lines (0, ∅)) as [[[E m]|m]|e'] eqn:Hw;
    cbn [bind]; try discriminate.
  intros Hx. injection Hx as <-. now apply (H (0, ∅)).
Qed.


(** ** The checksum detects a changed digit *)

Lemma string_pair_ind (P : string -> Prop) :
  P EmptyString ->
  (forall a, P (String a EmptyString)) ->
  (forall a b s, P s -> P (String a (String b s))) ->
  forall s, P s.
Proof.
  intros H0 H1 H2 s.
  assert (H : P s /\ forall a, P (String a s)); [|exact (proj1 H)].
  induction s as [|b s [IHs IHc]]; split; auto.
Qed.

Lemma append_cons (a : ascii) (s t : string) :
  (String a s ++ t)%string = String a (s ++ t)%string.
Proof. reflexivity. Qed.

Lemma allHexChars_app (s t : string) :
  allHexChars (s ++ t) = allHexChars s && allHexChars t.
Proof.
  induction s as [|a s IH]; [reflexivity|].
  rewrite append_cons. cbn [allHexChars]. now rewrite IH, andb_assoc.
Qed.

Lemma digit_value (c : ascii) :
  isHexChar c = true -> hexDigitValue c = Some (digitOf c).
Proof.
  intros H. destruct (xdigit_facts c H) as (_ & _ & _ & _ & _ & _ & d & Hd & _).
  unfold digitOf. now rewrite Hd.
Qed.

Lemma validateLineChecksum_hexLine (line : string) :
  hexLine line = true ->
  validateLineChecksum line
  = Ok (wrap8 (sumBytes line 1 (String.length line / 2)) =? 0).
Proof.
  intros Hh. unfold validateLineChecksum.
  change 0 with (wrap8 0) at 1.
  rewrite checksumLoop_sum; [reflexivity | exact Hh | lia |].
  pose proof (Nat.Div0.mul_div_le (String.length line) 2). lia.
Qed.

Lemma sumBytes_drop_pair (x a b : ascii) (s : string) : forall k p,
  sumBytes (String x (String a (String b s))) (S (S (S p))) k
  = sumBytes (String x s) (S p) k.
Proof.
  induction k as [|k IH]; intros p; [reflexivity|].
  cbn [sumBytes]. rewrite !byteAt_shift.
  change (S (S (S p)) + 2)%nat with (S (S (S (p + 2)))).
  change (S p + 2)%nat with (S (p + 2)). now rewrite IH.
Qed.

Lemma div2_succ_succ (n : nat) : (S (S n) / 2 = S (n / 2))%nat.
Proof.
  replace (S (S n)) with (n + 1 * 2)%nat by lia.
  rewrite Nat.div_add by lia. lia.
Qed.

Lemma sumBytes_pairsTotal (c0 : ascii) (body : string) :
  allHexChars body = true ->
  sumBytes (String c0 body) 1 (S (String.length body) / 2) = pairsTotal body.
Proof.
  induction body as [|a|a b s IH] using string_pair_ind; intros Hall.
  - reflexivity.
  - cbn [allHexChars] in Hall. apply andb_true_iff in Hall as [Ha _].
    change (S (String.length (String a EmptyString)) / 2)%nat with 1%nat.
    cbn [sumBytes pairsTotal]. unfold byteAt. cbn [substring digitsValue].
    rewrite (digit_value a Ha). lia.
  - cbn [allHexChars] in Hall. apply andb_true_iff in Hall as [Ha Hall].
    apply andb_true_iff in Hall as [Hb Hs].
    cbn [String.length]. rewrite div2_succ_succ.
    cbn [sumBytes pairsTotal]. change (1 + 2)%nat with (S (S (S 0))).
    rewrite sumBytes_drop_pair, (IH Hs).
    unfold byteAt. cbn [substring digitsValue].
    rewrite (digit_value a Ha), (digit_value b Hb).
    replace (substring 0 0 s) with EmptyString by (now destruct s).
    cbn [digitsValue]. lia.
Qed.

(* Changing one digit changes the sum by the difference of the two values,
   once or sixteen times. *)
Lemma pairsTotal_change (c c' : ascii) (post : string) : forall pre,
  exists k, (k = 1 \/ k = 16)
            /\ pairsTotal (pre ++ String c post)
               - pairsTotal (pre ++ String c' post)
               = k * (digitOf c - digitOf c').
Proof.
  induction pre as [|a|a b s (k & Hk & IH)] using string_pair_ind.
  - change (EmptyString ++ String c post)%string with (String c post).
    change (EmptyString ++ String c' post)%string with (String c' post).
    destruct post as [|b t]; cbn [pairsTotal];
      [exists 1 | exists 16]; split; auto; lia.
  - change (String a EmptyString ++ String c post)%string
      with (String a (String c post)).
    change (String a EmptyString ++ String c' post)%string
      with (String a (String c' post)).
    cbn [pairsTotal]. exists 1. split; [now left | lia].
  - rewrite !append_cons. cbn [pairsTotal]. exists k. split; [exact Hk | lia].
Qed.

(** X4.  The checksum check detects every change of a single digit: when a
    line of a colon and hexadecimal digits passes validateLineChecksum,
    the line with one digit replaced by a digit of another value fails
    it. *)
Theorem checksum_detects_changed_digit (pre post : string) (c c' : ascii) :
  allHexChars (pre ++ String c post) = true ->
  isHexChar c' = true ->
  hexDigitValue c <> hexDigitValue c' ->
  validateLineChecksum (String ":" (pre ++ String c post)) = Ok true ->
  validateLineChecksum (String ":" (pre ++ String c' post)) = Ok false.
Proof.
  intros Hall Hc' Hne Hok.
  assert (Hparts : allHexChars pre = true /\ isHexChar c = true
                   /\ allHexChars post = true).
  { rewrite allHexChars_app in Hall. cbn [allHexChars] in Hall.
    apply andb_true_iff in Hall as [H1 H2]. apply andb_true_iff in H2 as [H2 H3].
    auto. }
  destruct Hparts as (Hpre & Hc & Hpost).
  assert (Hall' : allHexChars (pre ++ String c' post) = true).
  { rewrite allHexChars_app. cbn [allHexChars]. now rewrite Hpre, Hc', Hpost. }
  assert (Hlen : String.length (pre ++ String c' post)
                 = String.length (pre ++ String c post)).
  { clear. induction pre as [|a s IH]; [reflexivity|].
    rewrite !append_cons. cbn [String.length]. now rewrite IH. }
  rewrite validateLineChecksum_hexLine in Hok
    by (unfold hexLine; cbn [startsWithColon dropFirst]; exact Hall).
  rewrite validateLineChecksum_hexLine
    by (unfold hexLine; cbn [startsWithColon dropFirst]; exact Hall').
  cbn [String.length] in *. rewrite Hlen.
  rewrite sumBytes_pairsTotal in Hok by exact Hall.
  rewrite <- Hlen, sumBytes_pairsTotal by exact Hall'.
  injection Hok as Hok. apply Z.eqb_eq in Hok. f_equal. apply Z.eqb_neq.
  destruct (pairsTotal_change c c' post pre) as (k & Hk & Hdiff).
  pose proof (digitOf_range c) as Rc. pose proof (digitOf_range c') as Rc'.
  assert (Hd : digitOf c <> digitOf c').
  { intros E. apply Hne. now rewrite (digit_value c Hc), (digit_value c' Hc'), E. }
  unfold wrap8 in *. intros Hzero.
  pose proof (Z.div_mod (pairsTotal (pre ++ String c post)) 256 ltac:(lia)) as E1.
  pose proof (Z.div_mod (pairsTotal (pre ++ String c' post)) 256 ltac:(lia)) as E2.
  rewrite Hok in E1. rewrite Hzero in E2.
  destruct Hk as [-> | ->]; lia.
Qed.

Lemma checksum_detects_changed_digit_witness :
  validateLineChecksum ":0100000041BE" = Ok true
  /\ validateLineChecksum ":0100000041BF" = Ok false.
Proof.
  split; [reflexivity|].
  apply (checksum_detects_changed_digit "0100000041B" "" "E" "F");
    [reflexivity | reflexivity | vm_compute; discriminate | reflexivity].
Defined.

(** ** When validateHexFile accepts *)

Lemma validateLines_accepts_iff (lines : list string) (errorOut : string) :
  (exists finalError, validateLines lines errorOut = Ok (true, finalError))
  <-> forallb (fun l => lineChecksOk (trimTrailing l)) lines = true
      /\ List.NoDup (allWrites 0 lines)
      /\ countEof lines = 1%nat.
Proof.
  unfold validateLines. split.
  - intros (e & H).
    destruct (whileLines validateLine lines vstateInit) as [[st|msg]|x] eqn:Hrun;
      cbn [bind] in H; [|discriminate|discriminate].
    destruct (eofSeen st) eqn:Hseen; cbn [negb] in H; [|discriminate].
    destruct (accepted_writes_NoDup _ _ _ Hrun) as (Hok & Hnd & Hfresh & _).
    split; [exact Hok|]. split; [exact Hnd|].
    destruct (eof_count_verdict lines vstateInit Hok Hnd Hfresh) as [Hle Hge].
    cbn [vstateInit eofSeen] in Hle, Hge. rewrite Nat.add_0_r in Hle, Hge.
    destruct (Nat.lt_trichotomy (countEof lines) 1) as [Hlt|[Heq|Hgt]].
    + destruct (Hle ltac:(lia)) as (st' & Hrun' & Hs').
      rewrite Hrun in Hrun'. injection Hrun' as <-.
      replace (countEof lines) with 0%nat in Hs' by lia.
      rewrite Hseen in Hs'. discriminate.
    + exact Heq.
    + rewrite (Hge ltac:(lia)) in Hrun. discriminate.
  - intros (Hok & Hnd & Hc).
    destruct (eof_count_verdict lines vstateInit Hok Hnd) as [Hle _].
    { intros a _. apply not_elem_of_empty. }
    cbn [vstateInit eofSeen] in Hle. rewrite Nat.add_0_r in Hle.
    destruct (Hle ltac:(lia)) as (st & -> & Hs). cbn [bind].
    rewrite Hs, Hc. now exists errorOut.
Qed.

(** X5.  validateHexFile returns true exactly for a file that can be opened,
    whose lines all pass the line-level checks (a colon, hexadecimal digits
    only, the announced length, the checksum, a record type of at most 5),
    whose data records write no address twice and which holds exactly one
    end-of-file record, wherever in the file that record stands. *)
Theorem validateHexFile_accepts_iff (fs : filesystem)
    (hexFilename errorOut : string) :
  (exists finalError,
     validateHexFile fs hexFilename errorOut = Ok (true, finalError))
  <-> exists content,
        fs hexFilename = Some content
        /\ forallb (fun l => lineChecksOk (trimTrailing l)) (getlines content)
           = true
        /\ List.NoDup (allWrites 0 (getlines content))
        /\ countEof (getlines content) = 1%nat.
Proof.
  unfold validateHexFile. destruct (fs hexFilename) as [content|].
  - rewrite validateLines_accepts_iff. split.
    + intros H. now exists content.
    + intros (c & Hc & H). now injection Hc as ->.
  - split; [intros (e & H); discriminate | intros (c & Hc & _); discriminate].
Qed.

(** ** The line number in the message *)



Lemma append_empty_r (s : string) : (s ++ EmptyString)%string = s.
Proof.
  induction s as [|c s IH]; [reflexivity|]. rewrite append_cons. now rewrite IH.
Qed.

Lemma validateLine_fail_format (st : vstate) (rawLine : string) :
  lineChecksOk (trimTrailing rawLine) = false ->
  exists before after,
    In (before, after) lineErrorFormats
    /\ validateLine st rawLine
       = Ok (Done (before ++ to_string (wrap64 (lineNum st + 1)) ++ after)%string).
Proof.
  intros H. unfold validateLine. cbv zeta.
  set (line := trimTrailing rawLine) in *.
  set (num := to_string (wrap64 (lineNum st + 1))).
  destruct (isEmpty line || negb (startsWithColon line)) eqn:H1.
  { exists "Line "%string, " does not start with ':'"%string.
    split; [cbn; auto|reflexivity]. }
  destruct (negb (allHexChars (dropFirst line))) eqn:H2.
  { exists "Invalid hex character at line "%string, EmptyString.
    split; [cbn; auto|]. now rewrite append_empty_r. }
  destruct (Nat.ltb_spec (String.length line) 11) as [|Hmin].
  { exists "Line "%string, " too short."%string.
    split; [cbn; auto 6|reflexivity]. }
  assert (Hh : hexLine line = true).
  { unfold hexLine. apply orb_false_iff in H1 as [_ H1].
    apply negb_false_iff in H1, H2. now rewrite H1, H2. }
  rewrite (parseHexByte_line line 1) by (try assumption; lia). cbn [bind].
  rewrite (parseHexWord_line line 3) by (try assumption; lia). cbn [bind].
  rewrite (parseHexByte_line line 7) by (try assumption; lia). cbn [bind].
  destruct (Z.eqb_spec (Z.of_nat (String.length line)) (9 + byteAt line 1 * 2 + 2))
    as [Hlen|]; cbn [negb].
  2:{ exists "Incorrect line length at line "%string, EmptyString.
      split; [cbn; auto 6|]. now rewrite append_empty_r. }
  assert (Hs : recordShape line = true).
  { unfold recordShape. rewrite Hh. cbn [andb].
    apply andb_true_iff. split; [apply Nat.leb_le; lia | apply Z.eqb_eq; lia]. }
  rewrite (validateLineChecksum_sum line Hs). cbn [bind].
  destruct (wrap8 (sumBytes line 1 (5 + Z.to_nat (byteAt line 1))) =? 0) eqn:Hsum;
    cbn [negb].
  2:{ exists "Checksum mismatch at line "%string, EmptyString.
      split; [cbn; auto 8|]. now rewrite append_empty_r. }
  destruct (Z.ltb_spec 5 (byteAt line 7)) as [|Ht].
  { exists "Unknown record type at line "%string, EmptyString.
    split; [cbn; auto 10|]. now rewrite append_empty_r. }
  exfalso. unfold lineChecksOk in H.
  rewrite Hs, (validateLineChecksum_sum line Hs), Hsum in H. cbn [andb] in H.
  apply Z.leb_gt in H. lia.
Qed.



(** ** parseIntelHexToMap on the decoded fields *)

Lemma mapLineOk_inv (line : string) :
  mapLineOk line = true ->
  recordShape line = true /\ hexLine line = true
  /\ String.length line = (11 + 2 * Z.to_nat (byteAt line 1))%nat
  /\ validateLineChecksum line = Ok true
  /\ ((byteAt line 7 =? 4) = true -> byteAt line 1 = 2).
Proof.
  unfold mapLineOk. intros H.
  apply andb_true_iff in H as [H H4]. apply andb_true_iff in H as [Hs Hsum].
  destruct (recordShape_inv line Hs) as [Hh Hlen].
  repeat split; try assumption.
  - destruct (validateLineChecksum line) as [[]|]; [reflexivity | discriminate | discriminate].
  - intros Ht. rewrite Ht in H4. cbn [negb orb] in H4. now apply Z.eqb_eq in H4.
Qed.

Lemma parseIntelHexToMapLine_cases (st : Z * gmap Z Z) (rawLine : string) :
  (isEmpty (rtrim rawLine) = true
   /\ parseIntelHexToMapLine st rawLine = Ok (Next st))
  \/ (isEmpty (rtrim rawLine) = false /\ mapLineOk (rtrim rawLine) = false
      /\ parseIntelHexToMapLine st rawLine = Ok (Done (false, snd st)))
  \/ (isEmpty (rtrim rawLine) = false /\ mapLineOk (rtrim rawLine) = true
      /\ parseIntelHexToMapLine st rawLine = mapRecord st (rtrim rawLine)).
Proof.
  destruct st as [E m]. unfold parseIntelHexToMapLine, mapRecord. cbv zeta.
  change hexByte with parseHexByte. cbn [snd].
  set (line := rtrim rawLine).
  destruct (isEmpty line) eqn:H0; [left; now split|]. right.
  assert (Hbad : forall P : Prop, (mapLineOk line = true -> False) ->
                                  mapLineOk line = false)
    by (intros _ H; destruct (mapLineOk line); [now destruct H | reflexivity]).
  destruct (negb (startsWithColon line)) eqn:H1.
  { left. repeat split. apply (Hbad True). intros H.
    destruct (mapLineOk_inv line H) as (_ & Hh & _). unfold hexLine in Hh.
    apply negb_true_iff in H1. rewrite H1 in Hh. discriminate. }
  destruct (negb (allHexChars (dropFirst line))) eqn:H2.
  { left. repeat split. apply (Hbad True). intros H.
    destruct (mapLineOk_inv line H) as (_ & Hh & _). unfold hexLine in Hh.
    apply negb_true_iff in H2. rewrite H2, andb_false_r in Hh. discriminate. }
  destruct (Nat.ltb_spec (String.length line) 11) as [Hshort|Hmin].
  { left. repeat split. apply (Hbad True). intros H.
    destruct (mapLineOk_inv line H) as (_ & _ & Hlen & _). lia. }
  assert (Hh : hexLine line = true).
  { unfold hexLine. apply negb_false_iff in H1, H2. now rewrite H1, H2. }
  rewrite (parseHexByte_line line 1) by (try assumption; lia). cbn [bind].
  rewrite (parseHexWord_line line 3) by (try assumption; lia). cbn [bind].
  rewrite (parseHexByte_line line 7) by (try assumption; lia). cbn [bind].
  pose proof (byteAt_range line 1) as Hbc.
  destruct (Z.eqb_spec (Z.of_nat (String.length line)) (1 + 2 * (byteAt line 1 + 5)))
    as [Hlen|Hlen]; cbn [negb].
  2:{ left. repeat split. apply (Hbad True). intros H.
      destruct (mapLineOk_inv line H) as (_ & _ & Hl & _). lia. }
  assert (Hs : recordShape line = true).
  { unfold recordShape. rewrite Hh. cbn [andb].
    apply andb_true_iff. split; [apply Nat.leb_le; lia | apply Z.eqb_eq; lia]. }
  unfold mapLineOk. rewrite Hs. cbn [andb].
  rewrite (validateLineChecksum_sum line Hs). cbn [bind].
  destruct (wrap8 (sumBytes line 1 (5 + Z.to_nat (byteAt line 1))) =? 0);
    cbn [negb andb]; [|left; now repeat split].
  destruct (byteAt line 7 =? 0) eqn:T0.
  { right. assert ((byteAt line 7 =? 4) = false) as -> by lia.
    cbn [negb orb]. rewrite storeBytes_storeData. now repeat split. }
  destruct (byteAt line 7 =? 4) eqn:T4; cbn [negb orb].
  - destruct (byteAt line 1 =? 2); cbn [negb]; [|left; now repeat split].
    right. rewrite (parseHexWord_line line 9) by (try assumption; lia).
    now repeat split.
  - right. now repeat split.
Qed.

(* A line that parseIntelHexToMap passes goes on with the next line. *)
Lemma mapLinePassed_Next (st : Z * gmap Z Z) (rawLine : string) :
  mapLinePassed rawLine = true ->
  exists st', parseIntelHexToMapLine st rawLine = Ok (Next st').
Proof.
  unfold mapLinePassed. intros H.
  destruct (parseIntelHexToMapLine_cases st rawLine)
    as [[He ->]|[(He & Hbad & _)|(He & Hok & ->)]]; [now eexists| |].
  - rewrite He, Hbad in H. discriminate.
  - rewrite He, Hok in H. cbn [orb andb] in H. apply negb_true_iff in H.
    destruct st as [E m]. unfold mapRecord. rewrite H.
    destruct (mapLineOk_inv _ Hok) as (_ & Hh & Hlen & _).
    destruct (byteAt (rtrim rawLine) 7 =? 0).
    + destruct (storeData_total (rtrim rawLine)
                  (absoluteAddress E (wordAt (rtrim rawLine) 3))
                  (Z.to_nat (byteAt (rtrim rawLine) 1)) 0 m Hh ltac:(lia))
        as (m' & ->). now eexists.
    + destruct (byteAt (rtrim rawLine) 7 =? 4); now eexists.
Qed.

Lemma mapLine_Next_passed (st st' : Z * gmap Z Z) (rawLine : string) :
  parseIntelHexToMapLine st rawLine = Ok (Next st') ->
  mapLinePassed rawLine = true.
Proof.
  unfold mapLinePassed. intros H.
  destruct (parseIntelHexToMapLine_cases st rawLine)
    as [[He _]|[(_ & _ & Hr)|(He & Hok & Hr)]].
  - now rewrite He.
  - rewrite Hr in H. discriminate.
  - rewrite He, Hok. cbn [orb andb]. rewrite Hr in H.
    destruct st as [E m]. unfold mapRecord in H.
    destruct (byteAt (rtrim rawLine) 7 =? 0) eqn:T0;
      [assert ((byteAt (rtrim rawLine) 7 =? 1) = false) as -> by lia; reflexivity|].
    destruct (byteAt (rtrim rawLine) 7 =? 4) eqn:T4;
      [assert ((byteAt (rtrim rawLine) 7 =? 1) = false) as -> by lia; reflexivity|].
    destruct (byteAt (rtrim rawLine) 7 =? 1); [discriminate | reflexivity].
Qed.

Lemma mapLine_Done_true (st : Z * gmap Z Z) (rawLine : string) (mem : gmap Z Z) :
  parseIntelHexToMapLine st rawLine = Ok (Done (true, mem)) <->
  mapLineOk (rtrim rawLine) = true /\ byteAt (rtrim rawLine) 7 = 1
  /\ mem = snd st.
Proof.
  destruct (parseIntelHexToMapLine_cases st rawLine)
    as [[He ->]|[(He & Hbad & ->)|(He & Hok & ->)]].
  - split; [discriminate|]. intros (Hok & _).
    destruct (mapLineOk_inv _ Hok) as (_ & Hh & _).
    unfold hexLine in Hh. destruct (rtrim rawLine); discriminate.
  - split; [discriminate|]. intros (Hok & _). congruence.
  - destruct st as [E m]. unfold mapRecord. cbn [snd].
    destruct (byteAt (rtrim rawLine) 7 =? 0) eqn:T0.
    { destruct (storeData _ _ _ _ _); cbn [bind];
        (split; [discriminate | intros (_ & H1 & _); lia]). }
    destruct (byteAt (rtrim rawLine) 7 =? 4) eqn:T4;
      [split; [discriminate | intros (_ & H1 & _); lia]|].
    destruct (Z.eqb_spec (byteAt (rtrim rawLine) 7) 1) as [T1|T1].
    + split; [intros H; injection H as <-; auto | intros (_ & _ & ->); reflexivity].
    + split; [discriminate | intros (_ & H1 & _); contradiction].
Qed.

Lemma whileLines_map_succeeds (lines : list string) : forall st mem,
  whileLines parseIntelHexToMapLine lines st = Ok (Done (true, mem))
  <-> exists pre eof post st',
        lines = pre ++ eof :: post
        /\ whileLines parseIntelHexToMapLine pre st = Ok (Next st')
        /\ mapLineOk (rtrim eof) = true /\ byteAt (rtrim eof) 7 = 1
        /\ mem = snd st'.
Proof.
  induction lines as [|l rest IH]; intros st mem.
  - split; [discriminate|]. intros (pre & eof & post & st' & H & _).
    destruct pre; discriminate.
  - split.
    + cbn [whileLines].
      destruct (parseIntelHexToMapLine st l) as [[st1|[b m]]|e] eqn:Hl;
        cbn [bind]; [| |discriminate].
      * intros H. apply IH in H as (pre & eof & post & st' & -> & Hrun & Hrest).
        exists (l :: pre), eof, post, st'. split; [reflexivity|].
        split; [|exact Hrest]. cbn [whileLines]. now rewrite Hl.
      * intros H. injection H as -> ->.
        apply mapLine_Done_true in Hl as (Hok & Ht & ->).
        exists [], l, rest, st. now repeat split.
    + intros (pre & eof & post & st' & Heq & Hrun & Hok & Ht & ->).
      rewrite Heq, whileLines_app, Hrun. cbn [whileLines].
      now rewrite (proj2 (mapLine_Done_true st' eof (snd st')) (conj Hok (conj Ht eq_refl))).
Qed.

Lemma whileLines_map_passed (pre : list string) : forall st,
  forallb mapLinePassed pre = true <->
  exists st', whileLines parseIntelHexToMapLine pre st = Ok (Next st').
Proof.
  induction pre as [|l rest IH]; intros st.
  - split; [intros _; now exists st | reflexivity].
  - cbn [forallb whileLines]. rewrite andb_true_iff. split.
    + intros [Hl Hrest]. destruct (mapLinePassed_Next st l Hl) as (st1 & ->).
      cbn [bind]. now apply IH.
    + intros (st' & H).
      destruct (parseIntelHexToMapLine st l) as [[st1|x]|e] eqn:Hl;
        cbn [bind] in H; [|discriminate|discriminate].
      split; [now apply (mapLine_Next_passed st st1) | apply (IH st1); now exists st'].
Qed.

(** X7.  parseIntelHexToMap returns true exactly when some line is, after
    trimming, a well-formed end-of-file record and every line before it is
    empty after trimming or a well-formed record of another type (with two
    payload bytes when its type is 0x04); what follows the end-of-file
    record is not read, and the function never throws. *)
Theorem parseIntelHexToMap_succeeds_iff (lines : list string)
    (mem : gmap Z Z) :
  ((exists mem', parseIntelHexToMapLines lines mem = Ok (true, mem'))
   <-> exists pre eof post,
         lines = pre ++ eof :: post
         /\ forallb mapLinePassed pre = true
         /\ mapLineOk (rtrim eof) = true /\ byteAt (rtrim eof) 7 = 1)
  /\ ((exists mem', parseIntelHexToMapLines lines mem = Ok (true, mem'))
      \/ (exists mem', parseIntelHexToMapLines lines mem = Ok (false, mem'))).
Proof.
  unfold parseIntelHexToMapLines. split.
  - split.
    + intros (mem' & H).
      destruct (whileLines parseIntelHexToMapLine lines (0, mem))
        as [[[E m]|[b m]]|e] eqn:Hrun; cbn [bind] in H; try discriminate.
      injection H as -> ->.
      apply whileLines_map_succeeds in Hrun
        as (pre & eof & post & st' & Heq & Hpre & Hok & Ht & _).
      exists pre, eof, post. repeat split; try assumption.
      apply (whileLines_map_passed pre (0, mem)). now exists st'.
    + intros (pre & eof & post & Heq & Hpre & Hok & Ht).
      apply (whileLines_map_passed pre (0, mem)) in Hpre as (st' & Hrun).
      exists (snd st').
      rewrite (proj2 (whileLines_map_succeeds lines (0, mem) (snd st'))); [reflexivity|].
      exists pre, eof, post, st'. now repeat split.
  - assert (H : forall ls st, exists r,
                  whileLines parseIntelHexToMapLine ls st = Ok r).
    { induction ls as [|l rest IH]; intros st; [now eexists|].
      cbn [whileLines].
      destruct (parseIntelHexToMapLine_total st l) as ([st'|x] & ->); cbn [bind];
        [apply IH | now eexists]. }
    destruct (H lines (0, mem)) as ([[E m]|[[] m]] & ->); cbn [bind];
      [right | left | right]; now eexists.
Qed.

(** ** The two image builders on the same file *)

Lemma substring_app_l (a b : string) : forall p n,
  (p + n <= String.length a)%nat ->
  substring p n (a ++ b) = substring p n a.
Proof.
  induction a as [|c a IH]; intros p n H.
  - cbn [String.length] in H. assert (p = 0%nat) as -> by lia.
    assert (n = 0%nat) as -> by lia.
    change (EmptyString ++ b)%string with b. now destruct b.
  - change (String c a ++ b)%string with (String c (a ++ b)%string).
    cbn [String.length] in H.
    destruct p as [|p]; destruct n as [|n]; cbn [substring]; try reflexivity.
    + f_equal. apply IH. lia.
    + apply IH. lia.
    + apply IH. lia.
Qed.

Lemma length_append (a b : string) :
  String.length (a ++ b) = (String.length a + String.length b)%nat.
Proof.
  induction a as [|c a IH]; [reflexivity|].
  change (String c a ++ b)%string with (String c (a ++ b)%string).
  cbn [String.length]. now rewrite IH.
Qed.

Lemma substr_app_l (a b : string) (p n : nat) :
  (p + n <= String.length a)%nat ->
  substr (a ++ b) p n = substr a p n.
Proof.
  intros H. unfold substr. rewrite length_append.
  destruct (Nat.ltb_spec (String.length a + String.length b) p); [lia|].
  destruct (Nat.ltb_spec (String.length a) p); [lia|].
  now rewrite substring_app_l.
Qed.

Lemma parseHexByte_app_l (a b : string) (p : nat) :
  (p + 2 <= String.length a)%nat ->
  parseHexByte (a ++ b) p = parseHexByte a p.
Proof. intros H. unfold parseHexByte. now rewrite substr_app_l. Qed.

Lemma parseHexWord_app_l (a b : string) (p : nat) :
  (p + 4 <= String.length a)%nat ->
  parseHexWord (a ++ b) p = parseHexWord a p.
Proof. intros H. unfold parseHexWord. now rewrite substr_app_l. Qed.

Lemma storeData_app_l (a b : string) (base : Z) : forall count i m,
  (9 + 2 * (i + count) <= String.length a)%nat ->
  storeData (a ++ b) base i count m = storeData a base i count m.
Proof.
  induction count as [|count IH]; intros i m H; [reflexivity|].
  cbn [storeData]. rewrite parseHexByte_app_l by lia.
  destruct (parseHexByte a (9 + i * 2)); cbn [bind]; [|reflexivity].
  apply IH. lia.
Qed.

(* A line that rtrim empties does not start with a colon. *)
Lemma rtrim_empty_no_colon (rawLine : string) :
  isEmpty (rtrim rawLine) = true ->
  isEmpty rawLine || negb (startsWithColon rawLine) = true.
Proof.
  destruct rawLine as [|c s]; [reflexivity|].
  change (rtrim (String c s)) with (trimSuffix isRtrimChar (String c s)).
  cbn [trimSuffix isEmpty orb].
  destruct (isEmpty (trimSuffix isRtrimChar s) && isRtrimChar c) eqn:Hd;
    cbn [isEmpty]; [|intros H; discriminate H].
  intros _. apply andb_true_iff in Hd as [_ Hc].
  unfold startsWithColon. unfold isRtrimChar in Hc.
  destruct (Z.eqb_spec (code c) 58) as [E|]; [|reflexivity].
  rewrite E in Hc. discriminate Hc.
Qed.

(* What parseIntelHex does with a raw line whose trimmed form
   parseIntelHexToMap accepts. *)
Lemma parseIntelHexLine_accepted (st : Z * gmap Z Z) (rawLine : string) :
  mapLineOk (rtrim rawLine) = true ->
  parseIntelHexLine st rawLine
  = match mapRecord st (rtrim rawLine) with
    | Ok (Next st') => Ok (Next st')
    | Ok (Done (_, mem)) => Ok (Done mem)
    | Throw e => Throw e
    end.
Proof.
  intros Hok. destruct (mapLineOk_inv _ Hok) as (Hs & Hh & Hlen & _ & H4).
  destruct (trimSuffix_split isRtrimChar rawLine) as (suffix & Hraw & _).
  change (trimSuffix isRtrimChar rawLine) with (rtrim rawLine) in Hraw.
  set (line := rtrim rawLine) in *.
  destruct st as [E m]. unfold parseIntelHexLine, mapRecord.
  assert (Hne : isEmpty line = false)
    by (unfold hexLine in Hh; now destruct line).
  assert (Hc : startsWithColon rawLine = true).
  { rewrite <- (rtrim_startsWithColon rawLine Hne). fold line.
    unfold hexLine in Hh. now apply andb_true_iff in Hh as [-> _]. }
  assert (Hre : isEmpty rawLine = false).
  { rewrite Hraw. destruct line; [discriminate | reflexivity]. }
  rewrite Hre, Hc. cbn [negb orb].
  pose proof (byteAt_range line 1) as Hbc.
  rewrite Hraw.
  rewrite (parseHexByte_app_l line suffix 1) by lia.
  rewrite (parseHexWord_app_l line suffix 3) by lia.
  rewrite (parseHexByte_app_l line suffix 7) by lia.
  rewrite (parseHexByte_line line 1) by (try assumption; lia). cbn [bind].
  rewrite (parseHexWord_line line 3) by (try assumption; lia). cbn [bind].
  rewrite (parseHexByte_line line 7) by (try assumption; lia). cbn [bind].
  destruct (byteAt line 7 =? 0).
  { rewrite storeData_app_l by lia.
    destruct (storeData line _ _ _ _); reflexivity. }
  destruct (byteAt line 7 =? 4) eqn:T4.
  { specialize (H4 eq_refl).
    rewrite (parseHexWord_app_l line suffix 9) by lia.
    rewrite (parseHexWord_line line 9) by (try assumption; lia). reflexivity. }
  destruct (byteAt line 7 =? 1); reflexivity.
Qed.

Lemma whileLines_builders_agree (lines : list string) : forall st mem,
  whileLines parseIntelHexToMapLine lines st = Ok (Done (true, mem)) ->
  whileLines parseIntelHexLine lines st = Ok (Done mem).
Proof.
  induction lines as [|l rest IH]; intros st mem; [discriminate|].
  cbn [whileLines].
  destruct (parseIntelHexToMapLine_cases st l)
    as [[He ->]|[(He & Hbad & ->)|(He & Hok & ->)]]; cbn [bind].
  - intros H. destruct st as [E m]. unfold parseIntelHexLine.
    rewrite (rtrim_empty_no_colon l He). cbn [bind]. now apply IH.
  - discriminate.
  - rewrite (parseIntelHexLine_accepted st l Hok).
    destruct (mapRecord st (rtrim l)) as [[st'|[b m]]|e]; cbn [bind].
    + apply IH.
    + intros H. now injection H as -> ->.
    + discriminate.
Qed.



(** ** The validator and the builders on the same line *)

Lemma rtrim_trimTrailing (line : string) :
  rtrim (trimTrailing line) = rtrim line.
Proof.
  destruct (trimSuffix_split isTrailingChar line) as (suffix & Hs & Hall).
  change (trimSuffix isTrailingChar line) with (trimTrailing line) in Hs.
  rewrite Hs at 2. symmetry. apply (trimSuffix_app_dropped isRtrimChar).
  clear Hs. induction suffix as [|c t IH]; [reflexivity|].
  cbn [allChars] in *. apply andb_true_iff in Hall as [Hc Ht].
  rewrite (IH Ht), andb_true_r. unfold isTrailingChar in Hc. unfold isRtrimChar.
  destruct (code c =? 32), (code c =? 13), (code c =? 10); try discriminate;
    cbn; try reflexivity; now rewrite ?orb_true_r.
Qed.

Lemma isHexChar_not_trimmed (c : ascii) :
  isHexChar c = true -> isRtrimChar c = false.
Proof.
  unfold isHexChar, isxdigit, isRtrimChar. intros H.
  destruct (Z.eqb_spec (code c) 13), (Z.eqb_spec (code c) 10),
    (Z.eqb_spec (code c) 32), (Z.eqb_spec (code c) 9);
    try reflexivity; exfalso;
    repeat match goal with
           | E : code c = _ |- _ => rewrite E in H
           end; discriminate H.
Qed.

Lemma allHexChars_lastChar (s : string) (c : ascii) :
  allHexChars s = true -> lastChar s = Some c -> isHexChar c = true.
Proof.
  induction s as [|a s IH]; [discriminate|].
  cbn [allHexChars lastChar]. intros H. apply andb_true_iff in H as [Ha Hs].
  destruct s as [|b t].
  - intros E. now injection E as <-.
  - now apply IH.
Qed.

Lemma hexLine_rtrim (line : string) :
  hexLine line = true -> (2 <= String.length line)%nat -> rtrim line = line.
Proof.
  intros Hh Hlen. apply (trimSuffix_fixed isRtrimChar). intros c Hc.
  apply isHexChar_not_trimmed.
  unfold hexLine in Hh. apply andb_true_iff in Hh as [_ Hh].
  destruct line as [|c0 [|c1 body]]; cbn [String.length] in Hlen; try lia.
  cbn [dropFirst] in Hh. apply (allHexChars_lastChar _ c Hh). exact Hc.
Qed.

(* A line that passes the checks of the validator is trimmed to the same
   text by rtrim. *)
Lemma accepted_line_same_trim (rawLine : string) :
  lineChecksOk (trimTrailing rawLine) = true ->
  rtrim rawLine = trimTrailing rawLine.
Proof.
  intros H. destruct (lineChecksOk_inv _ H) as (_ & Hh & Hmin & _).
  rewrite <- rtrim_trimTrailing. apply hexLine_rtrim; [exact Hh | lia].
Qed.

Lemma accepted_line_mapLineOk (rawLine : string) :
  lineChecksOk (trimTrailing rawLine) = true ->
  extendedHasTwoBytes rawLine = true ->
  mapLineOk (rtrim rawLine) = true.
Proof.
  intros H H4. rewrite (accepted_line_same_trim rawLine H).
  unfold lineChecksOk in H. unfold mapLineOk, extendedHasTwoBytes in *.
  apply andb_true_iff in H as [H _]. now rewrite H, H4.
Qed.

Lemma checked_lines_reach_eof (lines : list string) : forall st,
  forallb (fun l => lineChecksOk (trimTrailing l)) lines = true ->
  forallb extendedHasTwoBytes lines = true ->
  (1 <= countEof lines)%nat ->
  exists mem, whileLines parseIntelHexToMapLine lines st = Ok (Done (true, mem)).
Proof.
  induction lines as [|l rest IH]; intros st Hok H4 Hn;
    [cbn in Hn; lia|].
  cbn [forallb] in Hok, H4.
  apply andb_true_iff in Hok as [Hl Hrest]. apply andb_true_iff in H4 as [Hl4 Hrest4].
  rewrite countEof_cons, (isEofRecord_ok _ Hl) in Hn.
  pose proof (accepted_line_mapLineOk l Hl Hl4) as Hm.
  rewrite <- (accepted_line_same_trim l Hl) in Hn.
  cbn [whileLines].
  destruct (Z.eqb_spec (byteAt (rtrim l) 7) 1) as [T1|T1].
  - exists (snd st).
    now rewrite (proj2 (mapLine_Done_true st l (snd st)) (conj Hm (conj T1 eq_refl))).
  - assert (Hp : mapLinePassed l = true).
    { unfold mapLinePassed. rewrite Hm.
      replace (byteAt (rtrim l) 7 =? 1) with false by (symmetry; now apply Z.eqb_neq).
      apply orb_true_r. }
    destruct (mapLinePassed_Next st l Hp) as (st' & ->). cbn [bind].
    apply IH; [assumption | assumption | lia].
Qed.

(** X9.  A file that validateHexFile accepts and in which every type-0x04
    record has two payload bytes is read by both builders:
    parseIntelHexToMap returns true and parseIntelHex returns the same image
    without throwing. *)
Theorem validated_file_is_parsed (fs : filesystem)
    (path content errorOut finalError : string) :
  fs path = Some content ->
  validateHexFile fs path errorOut = Ok (true, finalError) ->
  forallb extendedHasTwoBytes (getlines content) = true ->
  exists mem,
    parseIntelHexToMap fs path ∅ = Ok (true, mem)
    /\ parseIntelHex fs path = Ok mem.
Proof.
  intros Hfs Hv H4. unfold validateHexFile in Hv. rewrite Hfs in Hv.
  destruct (proj1 (validateLines_accepts_iff (getlines content) errorOut)
              (ex_intro _ finalError Hv)) as (Hok & _ & Hn).
  destruct (checked_lines_reach_eof (getlines content) (0, ∅) Hok H4 ltac:(lia))
    as (mem & Hrun).
  exists mem. unfold parseIntelHexToMap, parseIntelHex. rewrite Hfs.
  unfold parseIntelHexToMapLines, parseIntelHexLines.
  now rewrite Hrun, (whileLines_builders_agree _ _ _ Hrun).
Qed.

Lemma validated_file_is_parsed_witness :
  exists mem,
    parseIntelHexToMap (singleFile fileWithSignature) "firmware.hex" ∅
    = Ok (true, mem)
    /\ parseIntelHex (singleFile fileWithSignature) "firmware.hex" = Ok mem.
Proof.
  apply (validated_file_is_parsed (singleFile fileWithSignature)
           "firmware.hex" fileWithSignature "" "");
    [reflexivity | vm_compute; reflexivity | vm_compute; reflexivity].
Defined.

(** X10.  The validator trims spaces, CRs and LFs and the map builder also
    tabs: a line that the validator accepts is read as the same text by the
    map builder, while a tab after a record makes the validator stop with
    "Invalid hex character at line N" and leaves the map builder's reading
    of the line as it was. *)
Theorem trailing_tab_divides_validator_and_builder (rawLine : string)
    (vst : vstate) (st : Z * gmap Z Z) :
  lineChecksOk (trimTrailing rawLine) = true ->
  rtrim rawLine = trimTrailing rawLine
  /\ parseIntelHexToMapLine st (trimTrailing rawLine ++ tab)
     = parseIntelHexToMapLine st rawLine
  /\ validateLine vst (trimTrailing rawLine ++ tab)
     = Ok (Done ("Invalid hex character at line "
                 ++ to_string (wrap64 (lineNum vst + 1)))%string).
Proof.
  intros H. pose proof (accepted_line_same_trim rawLine H) as Hsame.
  destruct (lineChecksOk_inv _ H) as (_ & Hh & Hmin & _).
  set (line := trimTrailing rawLine) in *.
  assert (Htab : rtrim (line ++ tab) = rtrim rawLine).
  { rewrite Hsame. transitivity (rtrim line); [|apply hexLine_rtrim; [exact Hh | lia]].
    apply (trimSuffix_app_dropped isRtrimChar). reflexivity. }
  split; [exact Hsame|]. split.
  - destruct st as [E m]. unfold parseIntelHexToMapLine. now rewrite Htab.
  - assert (Hfix : trimTrailing (line ++ tab) = (line ++ tab)%string).
    { apply (trimSuffix_fixed isTrailingChar). intros c Hc.
      assert (Hl : forall s, lastChar (s ++ tab) = Some "009"%char).
      { induction s as [|a s IH]; [reflexivity|].
        rewrite append_cons. cbn [lastChar]. rewrite IH.
        destruct (s ++ tab)%string eqn:E; [|reflexivity].
        destruct s; discriminate. }
      rewrite Hl in Hc. injection Hc as <-. reflexivity. }
    unfold validateLine. cbv zeta. rewrite Hfix.
    unfold hexLine in Hh. apply andb_true_iff in Hh as [Hc Hx].
    destruct line as [|c0 body]; [discriminate|].
    rewrite append_cons. cbn [isEmpty orb startsWithColon dropFirst].
    cbn [startsWithColon] in Hc. rewrite Hc. cbn [negb].
    assert (Hbad : allHexChars (body ++ tab) = false).
    { rewrite allHexChars_app. apply andb_false_iff. now right. }
    rewrite Hbad. reflexivity.
Qed.

Lemma trailing_tab_divides_validator_and_builder_witness :
  validateLine vstateInit (":00000001FF" ++ tab)
  = Ok (Done "Invalid hex character at line 1"%string).
Proof.
  apply (trailing_tab_divides_validator_and_builder ":00000001FF"
           vstateInit (0, ∅)).
  reflexivity.
Defined.

(** ** What one record does to the image *)

Lemma storeData_keeps (line : string) (base : Z) : forall count i m m' key,
  storeData line base i count m = Ok m' ->
  is_Some (m !! key) -> is_Some (m' !! key).
Proof.
  induction count as [|count IH]; intros i m m' key H Hk.
  - cbn [storeData] in H. now injection H as <-.
  - cbn [storeData] in H.
    destruct (parseHexByte line (9 + i * 2)) as [b|e]; cbn [bind] in H;
      [|discriminate].
    apply (IH _ _ _ key H).
    destruct (decide (wrap32 (base + Z.of_nat i) = key)) as [<-|Hne].
    + rewrite lookup_insert_eq. now eexists.
    + now rewrite lookup_insert_ne.
Qed.

Lemma storeData_changed (line : string) (base : Z) (count : nat)
    (m m' : gmap Z Z) (key : Z) :
  storeData line base 0 count m = Ok m' ->
  m' !! key <> m !! key ->
  exists i : nat, (i < count)%nat /\ key = wrap32 (base + Z.of_nat i).
Proof.
  intros H Hne.
  destruct (in_dec Z.eq_dec key (addressesFrom base 0 count)) as [Hin|Hout].
  - unfold addressesFrom in Hin. apply in_map_iff in Hin as (i & <- & Hi).
    apply in_seq in Hi. exists i. split; [lia | reflexivity].
  - exfalso. apply Hne. apply (storeData_other line base count 0 m m' key H).
    intros k Hk E. apply Hout. unfold addressesFrom. apply in_map_iff.
    exists k. split; [now symmetry | apply in_seq; lia].
Qed.

(** X11.  One line read by parseIntelHex keeps every address that the image
    has, and changes the image only at an address
    [((ext << 16) | address) + i], [i] below the byte count, of a data
    record; the extended address changes only at a type-0x04 record. *)
Theorem record_changes_only_its_addresses (ext ext' : Z) (m m' : gmap Z Z)
    (line : string) (key : Z) :
  parseIntelHexLine (ext, m) line = Ok (Next (ext', m')) ->
  (is_Some (m !! key) -> is_Some (m' !! key))
  /\ (m' !! key <> m !! key ->
      exists byteCount address (i : nat),
        parseHexByte line 1 = Ok byteCount
        /\ parseHexWord line 3 = Ok address
        /\ parseHexByte line 7 = Ok 0
        /\ (i < Z.to_nat byteCount)%nat
        /\ key = wrap32 (absoluteAddress ext address + Z.of_nat i))
  /\ (ext' <> ext -> parseHexByte line 7 = Ok 4
                     /\ parseHexWord line 9 = Ok ext' /\ m' = m).
Proof.
  unfold parseIntelHexLine.
  destruct (isEmpty line || negb (startsWithColon line)).
  { intros H. injection H as <- <-. repeat split; try tauto. }
  destruct (parseHexByte line 1) as [bc|]; cbn [bind]; [|discriminate].
  destruct (parseHexWord line 3) as [a|]; cbn [bind]; [|discriminate].
  destruct (parseHexByte line 7) as [t|]; cbn [bind]; [|discriminate].
  destruct (Z.eqb_spec t 0) as [->|T0].
  { destruct (storeData line (absoluteAddress ext a) 0 (Z.to_nat bc) m)
      as [m1|] eqn:Hs; cbn [bind]; [|discriminate].
    intros H. injection H as <- <-. split; [|split].
    - now apply (storeData_keeps _ _ _ _ _ _ _ Hs).
    - intros Hne. destruct (storeData_changed _ _ _ _ _ _ Hs Hne) as (i & Hi & ->).
      now exists bc, a, i.
    - tauto. }
  destruct (Z.eqb_spec t 4) as [->|T4].
  { destruct (parseHexWord line 9) as [e|]; cbn [bind]; [|discriminate].
    intros H. injection H as <- <-. repeat split; tauto. }
  destruct (t =? 1); [discriminate|].
  intros H. injection H as <- <-. repeat split; tauto.
Qed.

Lemma record_changes_only_its_addresses_witness :
  parseIntelHexLine (0, ∅) ":0100000041BE" = Ok (Next (0, {[0 := 65]}))
  /\ (({[0 := 65]} : gmap Z Z) !! 0 <> (∅ : gmap Z Z) !! 0 ->
      exists byteCount address (i : nat),
        parseHexByte ":0100000041BE" 1 = Ok byteCount
        /\ parseHexWord ":0100000041BE" 3 = Ok address
        /\ parseHexByte ":0100000041BE" 7 = Ok 0
        /\ (i < Z.to_nat byteCount)%nat
        /\ 0 = wrap32 (absoluteAddress 0 address + Z.of_nat i)).
Proof.
  split; [vm_compute; reflexivity|].
  apply (record_changes_only_its_addresses 0 0 ∅ {[0 := 65]} ":0100000041BE" 0).
  vm_compute. reflexivity.
Defined.

(** ** The builders stop at the end-of-file record *)

Lemma whileLines_stops {S R : Type} (body : S -> string -> result (flow S R))
    (pre post : list string) (l : string) (st : S) :
  (forall st', exists r, body st' l = Ok (Done r)) ->
  whileLines body (pre ++ l :: post) st = whileLines body (pre ++ [l]) st.
Proof.
  intros H. rewrite !whileLines_app.
  destruct (whileLines body pre st) as [[st'|x]|e]; try reflexivity.
  cbn [whileLines]. destruct (H st') as (r & ->). reflexivity.
Qed.

(** X12.  Neither builder reads past a well-formed end-of-file record: the
    lines that follow it, whatever they are, change neither the result nor
    the image. *)
Theorem lines_after_eof_are_not_read (pre post : list string) (eof : string)
    (mem : gmap Z Z) :
  mapLineOk (rtrim eof) = true -> byteAt (rtrim eof) 7 = 1 ->
  parseIntelHexToMapLines (pre ++ eof :: post) mem
  = parseIntelHexToMapLines (pre ++ [eof]) mem
  /\ parseIntelHexLines (pre ++ eof :: post) = parseIntelHexLines (pre ++ [eof]).
Proof.
  intros Hok Ht. split.
  - unfold parseIntelHexToMapLines. rewrite (whileLines_stops _ pre post eof);
      [reflexivity|].
    intros st'. exists (true, snd st').
    now apply (mapLine_Done_true st' eof (snd st')).
  - unfold parseIntelHexLines. rewrite (whileLines_stops _ pre post eof);
      [reflexivity|].
    intros [E m]. rewrite (parseIntelHexLine_accepted (E, m) eof Hok).
    unfold mapRecord. rewrite Ht. cbn. now eexists.
Qed.

Lemma lines_after_eof_are_not_read_witness :
  parseIntelHexLines
    ([":0100000041BE"%string] ++ ":00000001FF"%string :: ["no record"%string])
  = parseIntelHexLines ([":0100000041BE"%string] ++ [":00000001FF"%string]).
Proof.
  apply (lines_after_eof_are_not_read [":0100000041BE"%string]
           ["no record"%string] ":00000001FF" ∅);
    reflexivity.
Defined.

(** ** The messages of the validator *)

Lemma recordChecks_messages (st : vstate) (line message : string) :
  recordChecks st line = Ok (Done message) ->
  message = "Multiple EOF records detected."%string
  \/ exists a, 0 <= a < 4294967296
               /\ message = ("Overlapping data at address 0x" ++ toHexUpper a)%string.
Proof.
  unfold recordChecks. cbv zeta.
  destruct ((byteAt line 7 =? 1) && eofSeen st).
  { intros H. injection H as <-. now left. }
  destruct (byteAt line 7 =? 0).
  - destruct (checkOverlap _ _ _ _) as [W|a] eqn:Hc; [discriminate|].
    intros H. injection H as <-. right. exists a. split; [|reflexivity].
    pose proof (byteAt_range line 1) as Hbc.
    apply checkOverlap_inr in Hc as [_ Hin]; [|lia].
    unfold addressesFrom in Hin. apply in_map_iff in Hin as (k & <- & _).
    apply wrap32_range.
  - destruct (byteAt line 7 =? 4); discriminate.
Qed.

Lemma whileLines_messages (lines : list string) : forall st message,
  whileLines validateLine lines st = Ok (Done message) ->
  message = "Multiple EOF records detected."%string
  \/ (exists a, 0 <= a < 4294967296
                /\ message = ("Overlapping data at address 0x" ++ toHexUpper a)%string)
  \/ (exists n before after,
         In (before, after) lineErrorFormats
         /\ message = (before ++ to_string n ++ after)%string).
Proof.
  induction lines as [|l rest IH]; intros st message H; [discriminate|].
  cbn [whileLines] in H.
  destruct (lineChecksOk (trimTrailing l)) eqn:Hok.
  - rewrite (validateLine_checks_ok st l Hok) in H.
    destruct (recordChecks st (trimTrailing l)) as [[st'|msg]|e] eqn:Hr;
      cbn [bind] in H; [now apply (IH st')| |discriminate].
    injection H as <-.
    destruct (recordChecks_messages _ _ _ Hr) as [->|Ha]; [now left | right; now left].
  - destruct (validateLine_fail_format st l Hok) as (before & after & Hin & Hl).
    rewrite Hl in H. cbn [bind] in H. injection H as <-.
    right. right. now eexists _, before, after.
Qed.

(** X13.  validateHexFile has ten messages and no other outcome: when it
    returns false, errorOut is "Failed to open file: " and the name,
    "Missing EOF record.", "Multiple EOF records detected.", "Overlapping
    data at address 0x" with a 32-bit address in upper-case hexadecimal, or
    one of the six line-level messages around a line number. *)
Theorem validateHexFile_messages (fs : filesystem)
    (hexFilename errorOut message : string) :
  validateHexFile fs hexFilename errorOut = Ok (false, message) ->
  (fs hexFilename = None
   /\ message = ("Failed to open file: " ++ hexFilename)%string)
  \/ message = "Missing EOF record."%string
  \/ message = "Multiple EOF records detected."%string
  \/ (exists a, 0 <= a < 4294967296
                /\ message = ("Overlapping data at address 0x" ++ toHexUpper a)%string)
  \/ (exists n before after,
         In (before, after) lineErrorFormats
         /\ message = (before ++ to_string n ++ after)%string).
Proof.
  unfold validateHexFile. destruct (fs hexFilename) as [content|].
  - unfold validateLines.
    destruct (whileLines validateLine (getlines content) vstateInit)
      as [[st|msg]|e] eqn:Hrun; cbn [bind]; [| |discriminate].
    + destruct (eofSeen st); cbn [negb]; [discriminate|].
      intros H. injection H as <-. right. now left.
    + intros H. injection H as <-. right. right.
      apply (whileLines_messages _ _ _ Hrun).
  - intros H. injection H as <-. now left.
Qed.

Lemma validateHexFile_messages_witness :
  (singleFile fileWithOverlap "firmware.hex"%string = None
   /\ "Overlapping data at address 0x0"%string
      = ("Failed to open file: " ++ "firmware.hex")%string)
  \/ "Overlapping data at address 0x0"%string = "Missing EOF record."%string
  \/ "Overlapping data at address 0x0"%string
     = "Multiple EOF records detected."%string
  \/ (exists a, 0 <= a < 4294967296
                /\ "Overlapping data at address 0x0"%string
                   = ("Overlapping data at address 0x" ++ toHexUpper a)%string)
  \/ (exists n before after,
         In (before, after) lineErrorFormats
         /\ "Overlapping data at address 0x0"%string
            = (before ++ to_string n ++ after)%string).
Proof.
  apply (validateHexFile_messages (singleFile fileWithOverlap) "firmware.hex" "").
  vm_compute. reflexivity.
Defined.

(** ** The pages that computePagesUsed counts *)

Lemma size_between (mem : gmap Z Z) (lo hi : Z) :
  isMinKey mem lo -> isMaxKey mem hi ->
  Z.of_nat (size mem) <= hi - lo + 1.
Proof.
  intros [Hlo Hmin] [Hhi Hmax].
  assert (Hsub : dom mem ⊆ list_to_set (seqZ lo (hi - lo + 1))).
  { intros k Hk. apply elem_of_dom in Hk.
    apply elem_of_list_to_set, elem_of_seqZ.
    specialize (Hmin k Hk). specialize (Hmax k Hk). lia. }
  apply subseteq_size in Hsub.
  rewrite size_dom, size_list_to_set in Hsub by apply NoDup_seqZ.
  rewrite length_seqZ in Hsub. specialize (Hmin hi Hhi). lia.
Qed.

Lemma wfImage_subseteq (mem mem' : gmap Z Z) :
  mem ⊆ mem' -> wfImage mem' = true -> wfImage mem = true.
Proof.
  intros Hsub Hwf. apply wfImage_intro. intros k v Hk.
  apply (wfImage_lookup mem' k v Hwf). now apply (lookup_weaken mem mem').
Qed.

(** X14.  On a non-empty image of 32-bit addresses and a positive page size
    the count of computePagesUsed is at least 1, every address of the image
    lies in one of the counted pages, which start at the page of the
    smallest address, and the counted pages have room for all the bytes of
    the image. *)
Theorem computePagesUsed_covers_image (flashData : gmap Z Z) (pageSize : Z) :
  wfImage flashData = true -> 0 < pageSize -> flashData <> ∅ ->
  1 <= computePagesUsed flashData pageSize
  /\ (forall k, is_Some (flashData !! k) ->
        hd 0 (imageKeys flashData) / pageSize <= k / pageSize
        /\ k / pageSize
           < hd 0 (imageKeys flashData) / pageSize
             + computePagesUsed flashData pageSize)
  /\ Z.of_nat (size flashData) <= computePagesUsed flashData pageSize * pageSize.
Proof.
  intros Hwf Hps Hne.
  destruct (imageKeys_minmax flashData Hne) as [Hmin Hmax].
  rewrite (computePagesUsed_minmax flashData pageSize _ _ Hwf Hps Hmin Hmax).
  set (lo := hd 0 (imageKeys flashData)) in *.
  set (hi := List.last (imageKeys flashData) 0) in *.
  pose proof (size_between flashData lo hi Hmin Hmax) as Hsize.
  destruct Hmin as [Hlo Hmin]. destruct Hmax as [Hhi Hmax].
  assert (Hle : lo <= hi) by now apply Hmin.
  pose proof (Z.div_le_mono lo hi pageSize Hps Hle) as Hdiv.
  split; [lia|]. split.
  - intros k Hk. specialize (Hmin k Hk). specialize (Hmax k Hk).
    pose proof (Z.div_le_mono lo k pageSize Hps Hmin).
    pose proof (Z.div_le_mono k hi pageSize Hps Hmax). lia.
  - pose proof (Z.mul_div_le lo pageSize Hps).
    pose proof (Z.mul_succ_div_gt hi pageSize Hps). nia.
Qed.

Lemma computePagesUsed_covers_image_witness :
  1 <= computePagesUsed sampleImage 2048.
Proof.
  apply (computePagesUsed_covers_image sampleImage 2048);
    [vm_compute; reflexivity | lia | vm_compute; discriminate].
Defined.

(** X15.  computePagesUsed is monotone: with a positive page size, an
    image of 32-bit addresses that contains another one has at least as
    many pages, so a record that adds bytes never lowers the count. *)
Theorem computePagesUsed_monotone (flashData flashData' : gmap Z Z)
    (pageSize : Z) :
  wfImage flashData' = true -> 0 < pageSize -> flashData ⊆ flashData' ->
  computePagesUsed flashData pageSize <= computePagesUsed flashData' pageSize.
Proof.
  intros Hwf' Hps Hsub.
  pose proof (wfImage_subseteq _ _ Hsub Hwf') as Hwf.
  destruct (decide (flashData = ∅)) as [->|Hne].
  - destruct (decide (flashData' = ∅)) as [->|Hne']; [reflexivity|].
    destruct (imageKeys_minmax flashData' Hne') as [Hmin Hmax].
    rewrite (computePagesUsed_minmax flashData' pageSize _ _ Hwf' Hps Hmin Hmax).
    destruct Hmin as [Hlo Hmin]. specialize (Hmin _ (proj1 Hmax)).
    pose proof (Z.div_le_mono _ _ pageSize Hps Hmin).
    change (computePagesUsed ∅ pageSize) with 0. lia.
  - assert (Hne' : flashData' <> ∅).
    { intros ->. apply Hne. apply map_empty. intros k.
      destruct (flashData !! k) as [v|] eqn:Hk; [|reflexivity].
      apply (lookup_weaken _ _ _ _ Hk) in Hsub. now rewrite lookup_empty in Hsub. }
    destruct (imageKeys_minmax flashData Hne) as [Hmin Hmax].
    destruct (imageKeys_minmax flashData' Hne') as [Hmin' Hmax'].
    rewrite (computePagesUsed_minmax flashData pageSize _ _ Hwf Hps Hmin Hmax).
    rewrite (computePagesUsed_minmax flashData' pageSize _ _ Hwf' Hps Hmin' Hmax').
    destruct Hmin as [[vlo Hlo] _]. destruct Hmax as [[vhi Hhi] _].
    destruct Hmin' as [_ Hmin']. destruct Hmax' as [_ Hmax'].
    assert (H1 : is_Some (flashData' !! hd 0 (imageKeys flashData)))
      by (exists vlo; now apply (lookup_weaken flashData flashData')).
    assert (H2 : is_Some (flashData' !! List.last (imageKeys flashData) 0))
      by (exists vhi; now apply (lookup_weaken flashData flashData')).
    specialize (Hmin' _ H1). specialize (Hmax' _ H2).
    pose proof (Z.div_le_mono _ _ pageSize Hps Hmin').
    pose proof (Z.div_le_mono _ _ pageSize Hps Hmax'). lia.
Qed.

Lemma computePagesUsed_monotone_witness :
  computePagesUsed sampleImage 16
  <= computePagesUsed (<[0 := 0]> sampleImage) 16.
Proof.
  apply (computePagesUsed_monotone sampleImage (<[0 := 0]> sampleImage) 16);
    [vm_compute; reflexivity | lia |].
  apply insert_subseteq. vm_compute. reflexivity.
Defined.

(** ** Letter case *)

(** X16.  The checksum check does not see the case of a digit: replacing a
    digit of a line of a colon and hexadecimal digits by a digit of the same
    value, as "a" for "A", leaves the result of validateLineChecksum as it
    was. *)
Theorem checksum_ignores_letter_case (pre post : string) (c c' : ascii) :
  allHexChars (pre ++ String c post) = true ->
  isHexChar c' = true ->
  hexDigitValue c = hexDigitValue c' ->
  validateLineChecksum (String ":" (pre ++ String c' post))
  = validateLineChecksum (String ":" (pre ++ String c post)).
Proof.
  intros Hall Hc' Heq.
  assert (Hparts : allHexChars pre = true /\ isHexChar c = true
                   /\ allHexChars post = true).
  { rewrite allHexChars_app in Hall. cbn [allHexChars] in Hall.
    apply andb_true_iff in Hall as [H1 H2]. apply andb_true_iff in H2 as [H2 H3].
    auto. }
  destruct Hparts as (Hpre & Hc & Hpost).
  assert (Hall' : allHexChars (pre ++ String c' post) = true).
  { rewrite allHexChars_app. cbn [allHexChars]. now rewrite Hpre, Hc', Hpost. }
  assert (Hlen : String.length (pre ++ String c' post)
                 = String.length (pre ++ String c post)).
  { clear. induction pre as [|a s IH]; [reflexivity|].
    rewrite !append_cons. cbn [String.length]. now rewrite IH. }
  rewrite !validateLineChecksum_hexLine
    by (unfold hexLine; cbn [startsWithColon dropFirst]; assumption).
  cbn [String.length]. rewrite Hlen at 1.
  rewrite sumBytes_pairsTotal by exact Hall.
  rewrite <- Hlen, sumBytes_pairsTotal by exact Hall'.
  destruct (pairsTotal_change c c' post pre) as (k & _ & Hdiff).
  assert (Hd : digitOf c = digitOf c').
  { rewrite (digit_value c Hc), (digit_value c' Hc') in Heq. now injection Heq. }
  rewrite Hd, Z.sub_diag, Z.mul_0_r in Hdiff.
  replace (pairsTotal (pre ++ String c' post))
    with (pairsTotal (pre ++ String c post)) by lia.
  reflexivity.
Qed.

Lemma checksum_ignores_letter_case_witness :
  validateLineChecksum ":0100000041be" = validateLineChecksum ":0100000041bE".
Proof.
  apply (checksum_ignores_letter_case "0100000041b" "" "E" "e");
    reflexivity.
Defined.

(** ** A file that cannot be opened *)

Lemma message_not_open_failure (message name : string) :
  (message = "Missing EOF record."%string
   \/ message = "Multiple EOF records detected."%string
   \/ (exists a, 0 <= a < 4294967296
                 /\ message = ("Overlapping data at address 0x" ++ toHexUpper a)%string)
   \/ (exists n before after,
          In (before, after) lineErrorFormats
          /\ message = (before ++ to_string n ++ after)%string)) ->
  message <> ("Failed to open file: " ++ name)%string.
Proof.
  intros H E. rewrite E in H. clear E.
  change ("Failed to open file: " ++ name)%string
    with (String "F" ("ailed to open file: " ++ name)%string) in H.
  destruct H as [H|[H|[(a & _ & H)|(n & before & after & Hin & H)]]];
    try discriminate H.
  cbn [lineErrorFormats In] in Hin.
  repeat (destruct Hin as [Hin|Hin];
          [injection Hin as <- <-; rewrite append_cons in H; discriminate H|]).
  exact Hin.
Qed.

(** X17.  The four entry points agree on a file that cannot be opened:
    fileExists returns false exactly when validateHexFile reports "Failed to
    open file: " with the name, and exactly when calculateFlashPagesUsed
    throws the runtime_error with that text; extractBootloaderVersionFromHex
    then returns false without touching major and minor. *)
Theorem unopened_file_consistent (fs : filesystem)
    (path errorOut : string) (flashPageSize major minor : Z) :
  (fileExists fs path = false
   <-> validateHexFile fs path errorOut
       = Ok (false, ("Failed to open file: " ++ path)%string))
  /\ (fileExists fs path = false
      <-> calculateFlashPagesUsed fs path flashPageSize
          = Throw (runtime_error ("Failed to open file: " ++ path)%string))
  /\ (fileExists fs path = false ->
      extractBootloaderVersionFromHex fs path major minor
      = Ok (false, major, minor)).
Proof.
  unfold fileExists. split; [|split].
  - split.
    + unfold validateHexFile. destruct (fs path); [discriminate | reflexivity].
    + intros H. destruct (fs path) as [content|] eqn:Hfs; [|reflexivity].
      exfalso. unfold validateHexFile in H. rewrite Hfs in H.
      apply (message_not_open_failure ("Failed to open file: " ++ path) path);
        [|reflexivity].
      unfold validateLines in H.
      destruct (whileLines validateLine (getlines content) vstateInit)
        as [[st|msg]|e] eqn:Hrun; cbn [bind] in H; [| |discriminate].
      * destruct (eofSeen st); cbn [negb] in H; [discriminate|].
        injection H as H. left. now symmetry.
      * injection H as <-. right. apply (whileLines_messages _ _ _ Hrun).
  - split.
    + unfold calculateFlashPagesUsed, parseIntelHex.
      destruct (fs path); [discriminate | reflexivity].
    + intros H. destruct (fs path) as [content|] eqn:Hfs; [|reflexivity].
      exfalso. unfold calculateFlashPagesUsed, parseIntelHex in H.
      rewrite Hfs in H.
      destruct (parseIntelHexLines (getlines content)) as [m|e] eqn:Hp;
        cbn [bind] in H; [discriminate|].
      destruct (parseIntelHexLines_exn _ _ Hp) as [->| ->]; discriminate.
  - unfold extractBootloaderVersionFromHex, parseIntelHexToMap.
    destruct (fs path); [discriminate | reflexivity].
Qed.

(** ** The addresses of the image *)

Lemma storeData_addresses (line : string) (base : Z) : forall count i m m',
  storeData line base i count m = Ok m' ->
  forall k, is_Some (m' !! k)
            <-> is_Some (m !! k) \/ In k (addressesFrom base i count).
Proof.
  induction count as [|count IH]; intros i m m' H k.
  - cbn [storeData] in H. injection H as <-. cbn. tauto.
  - cbn [storeData] in H.
    destruct (parseHexByte line (9 + i * 2)) as [b|e]; cbn [bind] in H;
      [|discriminate].
    rewrite (IH _ _ _ H k), addressesFrom_cons. cbn [In].
    destruct (decide (wrap32 (base + Z.of_nat i) = k)) as [<-|Hne].
    + rewrite lookup_insert_eq. split; [auto | intros _; left; now eexists].
    + rewrite lookup_insert_ne by exact Hne. tauto.
Qed.

Lemma accepted_line_mapRecord (st : Z * gmap Z Z) (rawLine : string) :
  lineChecksOk (trimTrailing rawLine) = true ->
  extendedHasTwoBytes rawLine = true ->
  parseIntelHexToMapLine st rawLine = mapRecord st (trimTrailing rawLine).
Proof.
  intros Hok H4. pose proof (accepted_line_mapLineOk rawLine Hok H4) as Hm.
  rewrite <- (accepted_line_same_trim rawLine Hok).
  destruct (parseIntelHexToMapLine_cases st rawLine)
    as [[He _]|[(_ & Hbad & _)|(_ & _ & ->)]]; [| congruence | reflexivity].
  destruct (mapLineOk_inv _ Hm) as (_ & Hh & _).
  unfold hexLine in Hh. destruct (rtrim rawLine); discriminate.
Qed.

Lemma whileLines_image (pre : list string) : forall ext m ext' m',
  forallb (fun l => lineChecksOk (trimTrailing l)) pre = true ->
  forallb extendedHasTwoBytes pre = true ->
  whileLines parseIntelHexToMapLine pre (ext, m) = Ok (Next (ext', m')) ->
  forall k, is_Some (m' !! k) <-> is_Some (m !! k) \/ In k (allWrites ext pre).
Proof.
  induction pre as [|l rest IH]; intros ext m ext' m' Hok H4 Hrun k.
  - cbn [whileLines] in Hrun. injection Hrun as <- <-. cbn. tauto.
  - cbn [forallb] in Hok, H4.
    apply andb_true_iff in Hok as [Hl Hrest]. apply andb_true_iff in H4 as [Hl4 Hrest4].
    apply whileLines_cons_Next in Hrun as ([ext1 m1] & Hstep & Hrun).
    rewrite (accepted_line_mapRecord _ l Hl Hl4) in Hstep.
    unfold mapRecord in Hstep. cbn [allWrites]. cbv zeta.
    destruct (byteAt (trimTrailing l) 7 =? 0).
    { destruct (storeData _ _ _ _ _) as [m2|] eqn:Hs; cbn [bind] in Hstep;
        [|discriminate].
      injection Hstep as <- <-.
      rewrite (IH _ _ _ _ Hrest Hrest4 Hrun k), in_app_iff.
      rewrite (storeData_addresses _ _ _ _ _ _ Hs k). unfold recordAddresses. tauto. }
    destruct (byteAt (trimTrailing l) 7 =? 4).
    { injection Hstep as <- <-. apply (IH _ _ _ _ Hrest Hrest4 Hrun k). }
    destruct (byteAt (trimTrailing l) 7 =? 1); [discriminate|].
    injection Hstep as <- <-. apply (IH _ _ _ _ Hrest Hrest4 Hrun k).
Qed.

Lemma checked_lines_passed (pre : list string) :
  forallb (fun l => lineChecksOk (trimTrailing l)) pre = true ->
  forallb extendedHasTwoBytes pre = true ->
  countEof pre = 0%nat ->
  forallb mapLinePassed pre = true.
Proof.
  induction pre as [|l rest IH]; intros Hok H4 Hn; [reflexivity|].
  cbn [forallb] in *.
  apply andb_true_iff in Hok as [Hl Hrest]. apply andb_true_iff in H4 as [Hl4 Hrest4].
  rewrite countEof_cons, (isEofRecord_ok _ Hl) in Hn.
  apply andb_true_iff. split; [|apply IH; [assumption | assumption | lia]].
  unfold mapLinePassed. rewrite (accepted_line_mapLineOk l Hl Hl4).
  rewrite (accepted_line_same_trim l Hl).
  destruct (byteAt (trimTrailing l) 7 =? 1); [cbn in Hn; lia|].
  apply orb_true_r.
Qed.

(** X18.  When the lines before a well-formed end-of-file record pass the
    line checks of the validator, hold no end-of-file record and have two
    payload bytes in every type-0x04 record, parseIntelHexToMap returns true
    with an image whose addresses are exactly those that the data records
    before the end-of-file record write; when no address is written twice,
    the image has one entry for each payload byte. *)
Theorem image_has_the_written_addresses (pre post : list string)
    (eof : string) :
  forallb (fun l => lineChecksOk (trimTrailing l)) pre = true ->
  forallb extendedHasTwoBytes pre = true ->
  countEof pre = 0%nat ->
  mapLineOk (rtrim eof) = true -> byteAt (rtrim eof) 7 = 1 ->
  exists mem,
    parseIntelHexToMapLines (pre ++ eof :: post) ∅ = Ok (true, mem)
    /\ (forall k, is_Some (mem !! k) <-> In k (allWrites 0 pre))
    /\ (List.NoDup (allWrites 0 pre) ->
        size mem = length (allWrites 0 pre)).
Proof.
  intros Hok H4 Hn Heof Ht.
  pose proof (checked_lines_passed pre Hok H4 Hn) as Hp.
  apply (whileLines_map_passed pre (0, ∅)) in Hp as ([ext' mem] & Hrun).
  exists mem.
  assert (Hkeys : forall k, is_Some (mem !! k) <-> In k (allWrites 0 pre)).
  { intros k. rewrite (whileLines_image pre _ _ _ _ Hok H4 Hrun k).
    rewrite lookup_empty. split; [intros [[v Hv]|H]; [discriminate | exact H] | auto]. }
  split; [|split; [exact Hkeys|]].
  - unfold parseIntelHexToMapLines. rewrite whileLines_app, Hrun.
    cbn [whileLines].
    now rewrite (proj2 (mapLine_Done_true (ext', mem) eof mem)
                   (conj Heof (conj Ht eq_refl))).
  - intros Hnd. rewrite <- size_dom.
    assert (Hdom : dom mem = list_to_set (allWrites 0 pre)).
    { apply set_eq. intros k.
      rewrite elem_of_dom, elem_of_list_to_set, list_elem_of_In. apply Hkeys. }
    rewrite Hdom. apply size_list_to_set. now apply NoDup_ListNoDup.
Qed.

Lemma image_has_the_written_addresses_witness :
  exists mem,
    parseIntelHexToMapLines
      ([":0100000041BE"%string] ++ ":00000001FF"%string :: []) ∅
    = Ok (true, mem)
    /\ (forall k, is_Some (mem !! k)
                  <-> In k (allWrites 0 [":0100000041BE"%string]))
    /\ (List.NoDup (allWrites 0 [":0100000041BE"%string]) ->
        size mem = length (allWrites 0 [":0100000041BE"%string])).
Proof.
  apply (image_has_the_written_addresses [":0100000041BE"%string] []
           ":00000001FF"); reflexivity.
Defined.

(** ** Extended linear address records of another length *)

(** X19.  The validator does not check the byte count of a type-0x04
    record and the map builder does: a line that passes the line checks
    with record type 4 and a byte count other than 2 lets validateHexFile go
    on to the next line, and makes parseIntelHexToMap return false with the
    image as it is. *)
Theorem extended_record_length_divides (rawLine : string) (vst : vstate)
    (st : Z * gmap Z Z) :
  lineChecksOk (trimTrailing rawLine) = true ->
  byteAt (trimTrailing rawLine) 7 = 4 ->
  byteAt (trimTrailing rawLine) 1 <> 2 ->
  validateLine vst rawLine
  = Ok (Next (mkVstate (wrap64 (lineNum vst + 1)) (eofSeen vst)
                (wordAt (trimTrailing rawLine) 9) (writtenAddresses vst)))
  /\ parseIntelHexToMapLine st rawLine = Ok (Done (false, snd st)).
Proof.
  intros Hok Ht Hbc. split.
  - rewrite (validateLine_checks_ok vst rawLine Hok).
    unfold recordChecks. cbv zeta. rewrite Ht. reflexivity.
  - destruct (lineChecksOk_inv _ Hok) as (_ & Hh & _).
    pose proof (accepted_line_same_trim rawLine Hok) as Hsame.
    destruct (parseIntelHexToMapLine_cases st rawLine)
      as [[He _]|[(_ & _ & ->)|(_ & Hm & _)]]; [|reflexivity|].
    + rewrite Hsame in He. unfold hexLine in Hh.
      destruct (trimTrailing rawLine); discriminate.
    + rewrite Hsame in Hm. destruct (mapLineOk_inv _ Hm) as (_ & _ & _ & _ & H4).
      rewrite Ht in H4. now specialize (H4 eq_refl).
Qed.

Lemma extended_record_length_divides_witness :
  validateLine vstateInit ":00000004FC"
  = Ok (Next (mkVstate 1 false 252 ∅))
  /\ parseIntelHexToMapLine (0, ∅) ":00000004FC" = Ok (Done (false, ∅)).
Proof.
  apply (extended_record_length_divides ":00000004FC" vstateInit (0, ∅));
    [reflexivity | reflexivity | vm_compute; discriminate].
Defined.
